(** * nflreadpy-supabase: schema mapping, batch upload and filtered reads

    A shallow embedding of the pieces of the repository that carry logic.
    At the centre:

    - the loaders' [prepare_for_upload] functions
      ([src/data_loader/pbp_loader.py], [player_loader.py],
      [team_loader.py]), which conform a raw Polars table to the
      destination schema;
    - [SupabaseClient.upload_dataframe] ([src/supabase_client/client.py]),
      which pushes a table to the remote store chunk by chunk;
    - [SupabaseClient.query], which reads a table back through equality
      filters.

    Around them, the code that uses these pieces: the join of
    [TeamDataLoader.load_team_stats], the leaders query
    [PlayerAnalytics.get_rushing_touchdowns] with its week-17 example,
    the loading script [scripts/load_data.py] and the paging loop of
    [scripts/test_passing_leaders.py].

    Polars tables are modelled column-wise, as Polars stores them: a frame
    is an ordered list of named, typed columns.  The remote store is a
    state threaded through the calls, and Python exceptions are an explicit
    error result. *)

From Stdlib Require Import ZArith String Ascii Bool Lia Permutation Arith List.
From Stdlib Require Import DecimalString DecimalZ DecimalPos.
From Stdlib Require Import Floats.SpecFloat.
From Stdlib Require Import Sorting.Sorted.
Import ListNotations.

Local Open Scope string_scope.
Local Open Scope list_scope.

(** ** Python values and exceptions *)

(** The scalars that travel between Polars, Python dictionaries and the
    JSON bodies of the remote store. *)
Inductive PyValue : Type :=
| PyNone
| PyInt (z : Z)
| PyFloat (f : spec_float)
| PyStr (s : string).

Definition spec_float_eq_dec (a b : spec_float) : {a = b} + {a <> b}.
Proof.
  decide equality; try apply Pos.eq_dec; try apply Z.eq_dec;
    apply Bool.bool_dec.
Defined.

Definition PyValue_eq_dec (a b : PyValue) : {a = b} + {a <> b}.
Proof.
  decide equality;
    [apply Z.eq_dec | apply spec_float_eq_dec | apply string_dec].
Defined.

(** A Python [dict] with string keys, in insertion order. *)
Definition Record := list (string * PyValue).

Inductive exn : Type :=
| ValueError (msg : string)
| DuplicateError (column : string)
| InvalidOperationError (msg : string)
| APIError (msg : string).

Inductive result (A : Type) : Type :=
| Ok (a : A)
| Raise (e : exn).

Arguments Ok {A} a.
Arguments Raise {A} e.

Definition bind {A B : Type} (r : result A) (k : A -> result B) : result B :=
  match r with
  | Ok a => k a
  | Raise e => Raise e
  end.

Notation "x <- r ;; k" := (bind r (fun x => k))
  (at level 61, r at next level, right associativity).

(** ** Polars series and frames *)

Module Polars.

(** A column: its dtype and its cells, [None] being a null cell.  The
    dtypes are the numbers and the text of the provider's tables: 32- and
    64-bit integers, 64-bit floats, strings, and the all-null dtype with
    its length.  Dates, booleans and nested dtypes are not modelled. *)
Inductive Series : Type :=
| Int32 (cells : list (option Z))
| Int64 (cells : list (option Z))
| Float64 (cells : list (option spec_float))
| Utf8 (cells : list (option string))
| Null (n : nat).

Definition DataFrame := list (string * Series).

Definition series_len (s : Series) : nat :=
  match s with
  | Int32 l | Int64 l => length l
  | Float64 l => length l
  | Utf8 l => length l
  | Null n => n
  end.

(** [df.columns] *)
Definition columns (df : DataFrame) : list string := map fst df.

(** [len(df)]: the height of the frame; a frame without columns has no
    rows. *)
Definition height (df : DataFrame) : nat :=
  match df with
  | [] => 0
  | (_, s) :: _ => series_len s
  end.

Definition py_of_int (c : option Z) : PyValue :=
  match c with Some z => PyInt z | None => PyNone end.

Definition py_of_float (c : option spec_float) : PyValue :=
  match c with Some f => PyFloat f | None => PyNone end.

Definition py_of_str (c : option string) : PyValue :=
  match c with Some s => PyStr s | None => PyNone end.

(** The cells of a column as Python values. *)
Definition to_list (s : Series) : list PyValue :=
  match s with
  | Int32 l | Int64 l => map py_of_int l
  | Float64 l => map py_of_float l
  | Utf8 l => map py_of_str l
  | Null n => repeat PyNone n
  end.

(** Row [i] of a frame as a dictionary. *)
Definition row (df : DataFrame) (i : nat) : Record :=
  map (fun c => (fst c, nth i (to_list (snd c)) PyNone)) df.

(** [df.to_dicts()] *)
Definition to_dicts (df : DataFrame) : list Record :=
  map (row df) (seq 0 (height df)).

(** *** Column access *)

(** [c in df.columns] *)
Definition has_column (df : DataFrame) (c : string) : bool :=
  existsb (String.eqb c) (columns df).

(** [df[c]], when the column exists. *)
Fixpoint lookup (c : string) (df : DataFrame) : option Series :=
  match df with
  | [] => None
  | (n, s) :: df' => if String.eqb c n then Some s else lookup c df'
  end.

(** [df.select(names)], for names that are columns of [df]: the named
    columns, in the order of [names]. *)
Definition select (df : DataFrame) (names : list string) : DataFrame :=
  flat_map (fun c => match lookup c df with
                     | Some s => [(c, s)]
                     | None => []
                     end) names.

(** [df.with_columns(expr.alias(c))]: the column replaces the one of that
    name where it stands, or is appended. *)
Definition with_column (df : DataFrame) (c : string) (s : Series) : DataFrame :=
  if has_column df c
  then map (fun col => if String.eqb c (fst col) then (c, s) else col) df
  else df ++ [(c, s)].

(** The new name of a column under a rename mapping. *)
Definition rename_name (mapping : list (string * string)) (n : string) : string :=
  match find (fun p => String.eqb (fst p) n) mapping with
  | Some p => snd p
  | None => n
  end.

(** The first name, reading from the left, that has been met before:
    the name the engine reports when it builds a frame whose names are
    not distinct. *)
Fixpoint first_repeated (seen names : list string) : option string :=
  match names with
  | [] => None
  | n :: names' =>
      if existsb (String.eqb n) seen then Some n
      else first_repeated (n :: seen) names'
  end.

Definition first_duplicate (names : list string) : option string :=
  first_repeated [] names.

(** [df.rename(mapping)], for a mapping whose keys are columns of [df]:
    the columns are renamed where they stand and the frame is rebuilt,
    which rejects a name that now occurs twice. *)
Definition rename (df : DataFrame) (mapping : list (string * string))
    : result DataFrame :=
  let df' := map (fun col => (rename_name mapping (fst col), snd col)) df in
  match first_duplicate (columns df') with
  | Some n => Raise (DuplicateError n)
  | None => Ok df'
  end.

(** *** Row selection *)

(** [s.is_not_null()] *)
Definition is_not_null (s : Series) : list bool :=
  let some {A} (c : option A) := match c with Some _ => true | None => false end in
  match s with
  | Int32 l | Int64 l => map some l
  | Float64 l => map some l
  | Utf8 l => map some l
  | Null n => repeat false n
  end.

(** The elements of [l] at which [mask] is true. *)
Fixpoint keep {A : Type} (mask : list bool) (l : list A) : list A :=
  match mask, l with
  | b :: mask', x :: l' => if b then x :: keep mask' l' else keep mask' l'
  | _, _ => []
  end.

Definition filter_series (mask : list bool) (s : Series) : Series :=
  match s with
  | Int32 l => Int32 (keep mask l)
  | Int64 l => Int64 (keep mask l)
  | Float64 l => Float64 (keep mask l)
  | Utf8 l => Utf8 (keep mask l)
  | Null n => Null (length (keep mask (repeat tt n)))
  end.

(** [df.filter(mask)] *)
Definition filter (df : DataFrame) (mask : list bool) : DataFrame :=
  map (fun col => (fst col, filter_series mask (snd col))) df.

(** [df.filter(pl.col(c).is_not_null())], for a column [c] of [df]. *)
Definition filter_not_null (df : DataFrame) (c : string) : DataFrame :=
  match lookup c df with
  | Some s => filter df (is_not_null s)
  | None => df
  end.

(** The elements of [l] at the positions [idx], in that order. *)
Definition take {A : Type} (idx : list nat) (l : list A) : list A :=
  flat_map (fun i => match nth_error l i with
                     | Some x => [x]
                     | None => []
                     end) idx.

Definition take_series (idx : list nat) (s : Series) : Series :=
  match s with
  | Int32 l => Int32 (take idx l)
  | Int64 l => Int64 (take idx l)
  | Float64 l => Float64 (take idx l)
  | Utf8 l => Utf8 (take idx l)
  | Null n => Null (length (take idx (repeat tt n)))
  end.

Definition take_rows (idx : list nat) (df : DataFrame) : DataFrame :=
  map (fun col => (fst col, take_series idx (snd col))) df.

(** *** Integers and casts *)

Definition int32_min : Z := - 2 ^ 31.
Definition int32_max : Z := 2 ^ 31 - 1.

Definition in_int32 (z : Z) : bool :=
  ((int32_min <=? z) && (z <=? int32_max))%Z.

(** Two's-complement wrap-around of integer arithmetic. *)
Definition wrap32 (z : Z) : Z := ((z + 2 ^ 31) mod 2 ^ 32 - 2 ^ 31)%Z.
Definition wrap64 (z : Z) : Z := ((z + 2 ^ 63) mod 2 ^ 64 - 2 ^ 63)%Z.

(** The integer part of a float, rounded towards zero; infinities and NaN
    have none. *)
Definition float_trunc (f : spec_float) : option Z :=
  match f with
  | S754_zero _ => Some 0%Z
  | S754_finite sign m e =>
      let a := match e with
               | Z0 => Zpos m
               | Zpos p => (Zpos m * 2 ^ Zpos p)%Z
               | Zneg p => (Zpos m / 2 ^ Zpos p)%Z
               end in
      Some (if sign then (- a)%Z else a)
  | S754_infinity _ | S754_nan => None
  end.

(** The decimal numeral of an integer: ["-120"] for [-120]. *)
Definition decimal (z : Z) : string := NilZero.string_of_int (Z.to_int z).

(** The integer that a plain decimal numeral spells: an optional minus
    sign, then one or more digits and nothing else. *)
Definition of_decimal (s : string) : option Z :=
  option_map Z.of_int (NilZero.int_of_string s).

Definition is_digit (a : ascii) : bool :=
  Nat.leb 48%nat (nat_of_ascii a) && Nat.leb (nat_of_ascii a) 57%nat.

(** The string has a digit somewhere. *)
Fixpoint has_digit (s : string) : bool :=
  match s with
  | EmptyString => false
  | String a s' => is_digit a || has_digit s'
  end.

(** What the engine leaves to its implementation or to chance: how it
    reads a string that has digits but is not a plain decimal numeral
    (a plus sign, blanks, a decimal point, an exponent), how floats are
    printed, in which order [unique] returns the rows it keeps,
    arithmetic on columns that are not numbers, in which order
    [sum_horizontal] adds more than two columns, and what becomes of a
    column of Python values of several types. *)
Record Engine : Type := mkEngine {
  parse_int : string -> option Z;
  float_to_utf8 : spec_float -> string;
  unique_order : list nat -> list nat;
  fill_zero_other : Series -> result Series;
  add_other : Series -> Series -> result Series;
  sum_pick : nat -> nat;
  infer_mixed : list PyValue -> result Series
}.

Section WithEngine.
Variable E : Engine.

Definition narrow (z : Z) : option Z :=
  if in_int32 z then Some z else None.

Definition opt_bind {A B : Type} (c : option A) (f : A -> option B) : option B :=
  match c with Some a => f a | None => None end.

(** The integer a non-null cell stands for, if it stands for one. *)
Definition int_of_int (z : Z) : option Z := Some z.
Definition int_of_float (f : spec_float) : option Z := float_trunc f.
Definition int_of_str (s : string) : option Z :=
  match of_decimal s with
  | Some z => Some z
  | None => if has_digit s then parse_int E s else None
  end.

(** [s.cast(pl.Int32, strict=False)]: a cell that does not stand for an
    integer of 32 bits becomes null. *)
Definition cast_int32 (s : Series) : Series :=
  match s with
  | Int32 l => Int32 l
  | Int64 l => Int32 (map (fun c => opt_bind c narrow) l)
  | Float64 l => Int32 (map (fun c => opt_bind (opt_bind c int_of_float) narrow) l)
  | Utf8 l => Int32 (map (fun c => opt_bind (opt_bind c int_of_str) narrow) l)
  | Null n => Int32 (repeat None n)
  end.

(** [s.cast(pl.Utf8)] *)
Definition cast_utf8 (s : Series) : Series :=
  match s with
  | Int32 l | Int64 l => Utf8 (map (option_map decimal) l)
  | Float64 l => Utf8 (map (option_map (float_to_utf8 E)) l)
  | Utf8 l => Utf8 l
  | Null n => Utf8 (repeat None n)
  end.

(** [for col in cols: if col in df.columns:
       df = df.with_columns(pl.col(col).cast(pl.Int32, strict=False))] *)
Definition cast_int_columns (cols : list string) (df : DataFrame) : DataFrame :=
  fold_left
    (fun d c => if has_column d c
                then match lookup c d with
                     | Some s => with_column d c (cast_int32 s)
                     | None => d
                     end
                else d)
    cols df.

(** *** Arithmetic *)

Definition zero_if_null (c : option Z) : option Z :=
  match c with Some z => Some z | None => Some 0%Z end.

Definition float_zero_if_null (c : option spec_float) : option spec_float :=
  match c with Some f => Some f | None => Some (S754_zero false) end.

(** [s.fill_null(0)]: in a float column the zero is the float zero. *)
Definition fill_null_zero (s : Series) : result Series :=
  match s with
  | Int32 l => Ok (Int32 (map zero_if_null l))
  | Int64 l => Ok (Int64 (map zero_if_null l))
  | Float64 l => Ok (Float64 (map float_zero_if_null l))
  | _ => fill_zero_other E s
  end.

(** Addition of 64-bit floats, rounded to the nearest float, and the
    float nearest to an integer. *)
Definition float_add (x y : spec_float) : spec_float := SFadd 53 1024 x y.
Definition float_of_int (z : Z) : spec_float :=
  binary_normalize 53 1024 z 0 false.

Fixpoint zip_float_add (a b : list (option spec_float))
    : list (option spec_float) :=
  match a, b with
  | x :: a', y :: b' =>
      match x, y with
      | Some u, Some v => Some (float_add u v)
      | _, _ => None
      end :: zip_float_add a' b'
  | _, _ => []
  end.

Definition as_floats (l : list (option Z)) : list (option spec_float) :=
  map (option_map float_of_int) l.

Fixpoint zip_add (wrap : Z -> Z) (a b : list (option Z)) : list (option Z) :=
  match a, b with
  | x :: a', y :: b' =>
      match x, y with
      | Some u, Some v => Some (wrap (u + v)%Z)
      | _, _ => None
      end :: zip_add wrap a' b'
  | _, _ => []
  end.

(** [a + b] on two columns: integers add in the wider of the two types
    and wrap around; with a float column the sum is a float column, an
    integer being turned into a float first. *)
Definition add (a b : Series) : result Series :=
  match a, b with
  | Int32 x, Int32 y => Ok (Int32 (zip_add wrap32 x y))
  | Int32 x, Int64 y | Int64 x, Int32 y | Int64 x, Int64 y =>
      Ok (Int64 (zip_add wrap64 x y))
  | Float64 x, Float64 y => Ok (Float64 (zip_float_add x y))
  | Float64 x, Int32 y | Float64 x, Int64 y =>
      Ok (Float64 (zip_float_add x (as_floats y)))
  | Int32 x, Float64 y | Int64 x, Float64 y =>
      Ok (Float64 (zip_float_add (as_floats x) y))
  | _, _ => add_other E a b
  end.

Definition is_int32 (s : Series) : bool :=
  match s with Int32 _ => true | _ => false end.
Definition is_int64 (s : Series) : bool :=
  match s with Int64 _ => true | _ => false end.

Fixpoint add_all (acc : Series) (cols : list Series) : result Series :=
  match cols with
  | [] => Ok acc
  | c :: cols' => acc' <- add acc c ;; add_all acc' cols'
  end.

(** One addition in a sum of several columns: the columns at the
    positions [i] and [i + 1] make way for their sum. *)
Fixpoint add_at (i : nat) (cols : list Series) : result (list Series) :=
  match cols with
  | a :: (b :: rest) as cols' =>
      match i with
      | 0 => s <- add a b ;; Ok (s :: rest)
      | S i' => r <- add_at i' cols' ;; Ok (a :: r)
      end
  | _ => Ok cols
  end.

(** [steps] additions of neighbouring columns; with [n] columns left the
    engine adds the pair at the position [sum_pick n]. *)
Fixpoint add_neighbours (steps : nat) (cols : list Series)
    : result (list Series) :=
  match steps with
  | 0 => Ok cols
  | S steps' =>
      cols' <- add_at (sum_pick E (S steps) mod steps) cols ;;
      add_neighbours steps' cols'
  end.

(** [pl.sum_horizontal] of columns without nulls: one column is
    returned as it is, two are added, and more are added pair by pair,
    neighbours first, in an order the engine chooses; the order is
    immaterial when all have the same integer type. *)
Definition sum_horizontal (cols : list Series) : result Series :=
  match cols with
  | [] => Raise (InvalidOperationError "no columns")
  | [a] => Ok a
  | [a; b] => add a b
  | a :: rest =>
      if forallb is_int32 cols || forallb is_int64 cols
      then add_all a rest
      else
        sums <- add_neighbours (length rest) cols ;;
        match sums with
        | [s] => Ok s
        | _ => Raise (InvalidOperationError "no columns")
        end
  end.

(** *** Distinct rows *)

(** The value under which [unique] compares a cell: a float zero has no
    sign. *)
Definition key_of (v : PyValue) : PyValue :=
  match v with
  | PyFloat (S754_zero _) => PyFloat (S754_zero false)
  | _ => v
  end.

Definition keys (s : Series) : list PyValue := map key_of (to_list s).

(** The positions, from [i] on, of the keys that occur neither in
    [seen] nor earlier in the list. *)
Fixpoint first_occurrences (seen : list PyValue) (i : nat)
    (ks : list PyValue) : list nat :=
  match ks with
  | [] => []
  | k :: ks' =>
      if in_dec PyValue_eq_dec k seen
      then first_occurrences seen (S i) ks'
      else i :: first_occurrences (k :: seen) (S i) ks'
  end.

(** [df.unique(subset=[c], keep="first")], for a column [c] of [df]:
    the first row of each key, in the order the engine returns them
    ([maintain_order] is off). *)
Definition unique_keep_first (df : DataFrame) (c : string) : DataFrame :=
  match lookup c df with
  | Some s => take_rows (unique_order E (first_occurrences [] 0 (keys s))) df
  | None => df
  end.

(** *** Frames from dictionaries *)

(** [r.get(k)] *)
Definition record_get (k : string) (r : Record) : PyValue :=
  match find (fun p => String.eqb (fst p) k) r with
  | Some p => snd p
  | None => PyNone
  end.

(** The keys of the rows, each once, in the order they first appear. *)
Fixpoint union_keys (seen : list string) (ks : list string) : list string :=
  match ks with
  | [] => []
  | k :: ks' =>
      if existsb (String.eqb k) seen then union_keys seen ks'
      else k :: union_keys (k :: seen) ks'
  end.

Inductive DType : Type := TInt64 | TFloat64 | TUtf8 | TNull.

Definition dtype_of (v : PyValue) : DType :=
  match v with
  | PyNone => TNull
  | PyInt _ => TInt64
  | PyFloat _ => TFloat64
  | PyStr _ => TUtf8
  end.

Definition dtype_eqb (a b : DType) : bool :=
  match a, b with
  | TInt64, TInt64 | TFloat64, TFloat64 | TUtf8, TUtf8 | TNull, TNull => true
  | _, _ => false
  end.

(** The dtype of the first value that is not [None]. *)
Fixpoint first_dtype (vals : list PyValue) : DType :=
  match vals with
  | [] => TNull
  | PyNone :: vals' => first_dtype vals'
  | v :: _ => dtype_of v
  end.

Definition in_int64 (z : Z) : bool :=
  ((- 2 ^ 63 <=? z) && (z <? 2 ^ 63))%Z.

Definition conforms (t : DType) (v : PyValue) : bool :=
  match v with
  | PyNone => true
  | PyInt z => dtype_eqb t TInt64 && in_int64 z
  | _ => dtype_eqb t (dtype_of v)
  end.

Definition infer_schema_length : nat := 100.

(** One column of [pl.DataFrame(rows)]: the dtype is inferred from the
    first [infer_schema_length] values; values of one type, or [None],
    make a column of that type. *)
Definition infer_series (vals : list PyValue) : result Series :=
  let t := first_dtype (firstn infer_schema_length vals) in
  if forallb (conforms t) vals then
    Ok match t with
       | TInt64 =>
           Int64 (map (fun v => match v with PyInt z => Some z | _ => None end) vals)
       | TFloat64 =>
           Float64 (map (fun v => match v with PyFloat f => Some f | _ => None end) vals)
       | TUtf8 =>
           Utf8 (map (fun v => match v with PyStr x => Some x | _ => None end) vals)
       | TNull => Null (length vals)
       end
  else infer_mixed E vals.

Fixpoint infer_columns (names : list string) (rows : list Record)
    : result DataFrame :=
  match names with
  | [] => Ok []
  | k :: names' =>
      s <- infer_series (map (record_get k) rows) ;;
      df <- infer_columns names' rows ;;
      Ok ((k, s) :: df)
  end.

(** [pl.DataFrame(rows)] for a list of dictionaries: no rows make the
    empty frame; otherwise the columns are the keys met in the first
    [infer_schema_length] rows. *)
Definition from_dicts (rows : list Record) : result DataFrame :=
  match rows with
  | [] => Ok []
  | _ =>
      let names :=
        union_keys [] (flat_map (map fst) (firstn infer_schema_length rows)) in
      infer_columns names rows
  end.

End WithEngine.

End Polars.

(** ** The loaders *)

(** [[col for col in schema_columns if col in df.columns]] *)
Definition available (schema_columns : list string) (df : Polars.DataFrame)
    : list string :=
  List.filter (Polars.has_column df) schema_columns.

Module PlayByPlayLoader.
Import Polars.

Definition key_columns : list string :=
  ["play_id"; "game_id"; "season"; "week"; "game_date"; "posteam";
   "defteam"; "quarter"; "time"; "down"; "ydstogo"; "yardline_100";
   "play_type"; "yards_gained"; "epa"; "wp"; "wpa"; "passer_player_name";
   "receiver_player_name"; "rusher_player_name"; "desc";
   "score_differential"].

Definition int_columns : list string :=
  ["season"; "week"; "quarter"; "down"; "ydstogo"; "yardline_100";
   "yards_gained"; "score_differential"].

(** [PlayByPlayLoader.prepare_for_upload] *)
Definition prepare_for_upload (E : Engine) (df : DataFrame) : DataFrame :=
  let available_columns := available key_columns df in
  let result := select df available_columns in
  let result := cast_int_columns E int_columns result in
  if has_column result "play_id"
  then unique_keep_first E result "play_id"
  else result.

End PlayByPlayLoader.

Module PlayerStatsLoader.
Import Polars.

Definition schema_columns : list string :=
  ["player_id"; "player_name"; "season"; "week"; "team"; "position";
   "completions"; "attempts"; "passing_yards"; "passing_tds";
   "interceptions"; "carries"; "rushing_yards"; "rushing_tds";
   "receptions"; "receiving_yards"; "receiving_tds"; "targets";
   "fantasy_points"; "fantasy_points_ppr"].

Definition int_cols : list string :=
  ["season"; "week"; "completions"; "attempts"; "passing_yards";
   "passing_tds"; "interceptions"; "carries"; "rushing_yards";
   "rushing_tds"; "receptions"; "receiving_yards"; "receiving_tds";
   "targets"].

(** [PlayerStatsLoader.prepare_for_upload] *)
Definition prepare_for_upload (E : Engine) (df : DataFrame)
    : result DataFrame :=
  let df := if has_column df "player_id"
            then filter_not_null df "player_id" else df in
  let rename_map :=
    if has_column df "passing_interceptions"
       && negb (has_column df "interceptions")
    then [("passing_interceptions", "interceptions")] else [] in
  df <- match rename_map with
        | [] => Ok df
        | _ => rename df rename_map
        end ;;
  let result := select df (available schema_columns df) in
  Ok (cast_int_columns E int_cols result).

Definition info_schema_columns : list string :=
  ["player_id"; "player_name"; "position"; "height"; "weight"; "college";
   "birth_date"; "draft_year"; "draft_round"; "draft_pick"; "draft_team";
   "gsis_id"; "espn_id"; "yahoo_id"].

Definition info_int_cols : list string :=
  ["weight"; "draft_year"; "draft_round"; "draft_pick"].

(** [PlayerStatsLoader.prepare_player_info_for_upload] *)
Definition prepare_player_info_for_upload (E : Engine) (df : DataFrame)
    : result DataFrame :=
  let df := if has_column df "gsis_id"
            then filter_not_null df "gsis_id" else df in
  let df := match lookup "gsis_id" df with
            | Some s => with_column df "player_id" s
            | None => df
            end in
  df <- (if has_column df "display_name"
         then rename df [("display_name", "player_name")]
         else Ok df) ;;
  let result := select df (available info_schema_columns df) in
  let result := cast_int_columns E info_int_cols result in
  let result := match lookup "birth_date" result with
                | Some s => with_column result "birth_date" (cast_utf8 E s)
                | None => result
                end in
  Ok result.

End PlayerStatsLoader.

Module TeamDataLoader.
Import Polars.

Definition schedules_schema_columns : list string :=
  ["game_id"; "season"; "week"; "game_type"; "gameday"; "home_team";
   "away_team"; "home_score"; "away_score"; "stadium"; "location"; "roof";
   "surface"; "temp"; "wind"].

Definition schedules_int_cols : list string :=
  ["season"; "week"; "home_score"; "away_score"; "temp"; "wind"].

Definition rosters_schema_columns : list string :=
  ["player_id"; "player_name"; "season"; "team"; "position";
   "depth_chart_position"; "jersey_number"; "status"; "height"; "weight";
   "birth_date"; "college"].

Definition rosters_int_cols : list string :=
  ["season"; "jersey_number"; "weight"].

Definition info_schema_columns : list string :=
  ["team_abbr"; "team_name"; "team_nick"; "team_color"; "team_color2";
   "team_logo_espn"; "team_logo_wikipedia"; "team_conference";
   "team_division"].

Definition stats_schema_columns : list string :=
  ["team"; "season"; "week"; "opponent"; "completions"; "attempts";
   "passing_yards"; "passing_tds"; "interceptions"; "carries";
   "rushing_yards"; "rushing_tds"; "total_yards"; "turnovers"; "points"].

Definition stats_int_cols : list string :=
  ["season"; "week"; "completions"; "attempts"; "passing_yards";
   "passing_tds"; "interceptions"; "carries"; "rushing_yards";
   "rushing_tds"; "total_yards"; "turnovers"; "points"].

Definition turnover_sources : list string :=
  ["passing_interceptions"; "rushing_fumbles_lost"; "sack_fumbles_lost"].

Section WithEngine.
Variable E : Engine.

(** The branch for [data_type == "schedules"]. *)
Definition prepare_schedules (df : DataFrame) : result DataFrame :=
  let df := select df (available schedules_schema_columns df) in
  df <- (if has_column df "gameday"
         then rename df [("gameday", "game_date")]
         else Ok df) ;;
  Ok (cast_int_columns E schedules_int_cols df).

(** The branch for [data_type == "rosters"]. *)
Definition prepare_rosters (df : DataFrame) : result DataFrame :=
  let df := if has_column df "gsis_id"
            then filter_not_null df "gsis_id" else df in
  let df := match lookup "birth_date" df with
            | Some s => with_column df "birth_date" (cast_utf8 E s)
            | None => df
            end in
  let rename_map :=
    (if has_column df "gsis_id" then [("gsis_id", "player_id")] else [])
    ++ (if has_column df "full_name"
        then [("full_name", "player_name")] else []) in
  df <- match rename_map with
        | [] => Ok df
        | _ => rename df rename_map
        end ;;
  let result := select df (available rosters_schema_columns df) in
  Ok (cast_int_columns E rosters_int_cols result).

(** The branch for [data_type == "info"]. *)
Definition prepare_info (df : DataFrame) : result DataFrame :=
  Ok (select df (available info_schema_columns df)).

(** [pl.col(c).fill_null(0)] for each turnover column that [df] has. *)
Fixpoint turnover_cols (df : DataFrame) (sources : list string)
    : result (list Series) :=
  match sources with
  | [] => Ok []
  | c :: sources' =>
      match lookup c df with
      | Some s =>
          s0 <- fill_null_zero E s ;;
          rest <- turnover_cols df sources' ;;
          Ok (s0 :: rest)
      | None => turnover_cols df sources'
      end
  end.

(** The branch for [data_type == "stats"]. *)
Definition prepare_stats (df : DataFrame) : result DataFrame :=
  df <- match lookup "passing_yards" df, lookup "rushing_yards" df with
        | Some p, Some r =>
            p0 <- fill_null_zero E p ;;
            r0 <- fill_null_zero E r ;;
            total <- add E p0 r0 ;;
            Ok (with_column df "total_yards" total)
        | _, _ => Ok df
        end ;;
  cols <- turnover_cols df turnover_sources ;;
  df <- match cols with
        | [] => Ok df
        | _ =>
            turnovers <- sum_horizontal E cols ;;
            Ok (with_column df "turnovers" turnovers)
        end ;;
  df <- (if has_column df "opponent_team"
         then rename df [("opponent_team", "opponent")]
         else Ok df) ;;
  df <- (if has_column df "passing_interceptions"
         then rename df [("passing_interceptions", "interceptions")]
         else Ok df) ;;
  let df := select df (available stats_schema_columns df) in
  Ok (cast_int_columns E stats_int_cols df).

(** [TeamDataLoader.prepare_for_upload] *)
Definition prepare_for_upload (df : DataFrame) (data_type : string)
    : result DataFrame :=
  if String.eqb data_type "schedules" then prepare_schedules df
  else if String.eqb data_type "rosters" then prepare_rosters df
  else if String.eqb data_type "info" then prepare_info df
  else if String.eqb data_type "stats" then prepare_stats df
  else Ok df.

End WithEngine.

End TeamDataLoader.

(** ** Specification-side vocabulary for the schema mapper *)

Module MapperSpec.
Import Polars.

(** Membership in a list of column names. *)
Definition mem (c : string) (names : list string) : bool :=
  existsb (String.eqb c) names.

(** The names of [schema] that are in [names], in the order of
    [schema]: the intersection of the two column sets. *)
Definition intersection (names schema : list string) : list string :=
  List.filter (fun c => mem c names) schema.

(** A column list after a rename mapping. *)
Definition renamed (mapping : list (string * string)) (names : list string)
    : list string :=
  map (rename_name mapping) names.

(** A column list after [with_columns] of one column named [c]. *)
Definition with_name (names : list string) (c : string) : list string :=
  if mem c names then names else names ++ [c].

(** The columns of a raw table once the loader has added its derived
    columns and renamed, just before it selects. *)
Definition player_stats_columns (names : list string) : list string :=
  if mem "passing_interceptions" names && negb (mem "interceptions" names)
  then renamed [("passing_interceptions", "interceptions")] names
  else names.

Definition player_info_columns (names : list string) : list string :=
  renamed [("display_name", "player_name")]
          (if mem "gsis_id" names then with_name names "player_id" else names).

Definition rosters_columns (names : list string) : list string :=
  renamed [("gsis_id", "player_id"); ("full_name", "player_name")] names.

Definition stats_columns (names : list string) : list string :=
  let names :=
    if mem "passing_yards" names && mem "rushing_yards" names
    then with_name names "total_yards" else names in
  let names :=
    if existsb (fun c => mem c names) TeamDataLoader.turnover_sources
    then with_name names "turnovers" else names in
  renamed [("passing_interceptions", "interceptions")]
          (renamed [("opponent_team", "opponent")] names).

(** [k] zeros. *)
Fixpoint zeros (k : nat) : string :=
  match k with
  | 0 => EmptyString
  | S k' => String "0"%char (zeros k')
  end.

(** A fraction [n / 10^k] without its trailing zeros. *)
Fixpoint shortened (k : nat) (n : Z) : nat * Z :=
  match k with
  | 0 => (0, n)
  | S k' => if (n mod 10 =? 0)%Z then shortened k' (n / 10)%Z else (k, n)
  end.

(** The digits after the point of [n / 10^k], for [0 <= n < 10^k]. *)
Definition fraction_text (k : nat) (n : Z) : string :=
  let (k', n') := shortened k n in
  if (n' =? 0)%Z then "0"
  else String.append (zeros (k' - String.length (decimal n'))) (decimal n').

(** A float in positional notation with all its digits; for a float of
    few digits, such as 2.0 or 0.5, that is the numeral Polars prints. *)
Definition float_text (f : spec_float) : string :=
  match f with
  | S754_zero sign => if sign then "-0.0" else "0.0"
  | S754_infinity sign => if sign then "-inf" else "inf"
  | S754_nan => "NaN"
  | S754_finite sign m e =>
      let text :=
        match e with
        | Zneg k =>
            let k := Pos.to_nat k in
            String.append (decimal (Zpos m / 2 ^ Z.of_nat k))
              (String.append "."
                 (fraction_text k ((Zpos m mod 2 ^ Z.of_nat k)
                                   * 5 ^ Z.of_nat k)))
        | _ => String.append (decimal (Zpos m * 2 ^ e)) ".0"
        end in
      if sign then String "-"%char text else text
  end.

(** An engine for concrete runs: of the strings that are not plain
    decimal numerals it reads none as a number, it prints floats in
    positional notation, returns the rows of [unique] in their original
    order, adds the columns of [sum_horizontal] from the left and
    rejects what it is not required to support. *)
Definition reference_engine : Engine :=
  mkEngine (fun _ => None) float_text (fun idx => idx)
           (fun _ => Raise (InvalidOperationError "fill_null"))
           (fun _ _ => Raise (InvalidOperationError "add"))
           (fun _ => 0)
           (fun _ => Raise (InvalidOperationError "mixed types")).

(** A one-game schedule as the provider names its columns. *)
Definition raw_schedule : DataFrame :=
  [("game_id", Utf8 [Some "2024_01_BAL_KC"]);
   ("gameday", Utf8 [Some "2024-09-05"]);
   ("home_team", Utf8 [Some "KC"])].

(** A schedule whose date column already has the name used in the
    store. *)
Definition dated_schedule : DataFrame :=
  [("game_id", Utf8 [Some "2024_01_BAL_KC"]);
   ("game_date", Utf8 [Some "2024-09-05"])].

(** Team statistics that carry an opponent under both names. *)
Definition stats_with_both_opponents : DataFrame :=
  [("team", Utf8 [Some "KC"]);
   ("opponent_team", Utf8 [Some "BAL"]);
   ("opponent", Utf8 [Some "BAL"])].

(** Statistics that carry interceptions under both names. *)
Definition stats_with_both_interceptions : DataFrame :=
  [("team", Utf8 [Some "KC"]);
   ("passing_interceptions", Int64 [Some 1%Z]);
   ("interceptions", Int64 [Some 1%Z])].

(** The number of rows a mask keeps. *)
Definition count_true (mask : list bool) : nat :=
  length (List.filter (fun b => b) mask).

(** The number of cells of a column that are not null. *)
Definition count_not_null (s : Series) : nat :=
  length (List.filter (fun b => b) (is_not_null s)).


(** The cast loop seen as one pass over the columns. *)
Definition cast_if (E : Engine) (cols : list string) (col : string * Series)
    : string * Series :=
  if mem (fst col) cols then (fst col, cast_int32 E (snd col)) else col.

(** A roster of ten players, one of them without a provider id. *)
Definition raw_roster : DataFrame :=
  [("season", Int64 (repeat (Some 2024%Z) 10));
   ("team", Utf8 (repeat (Some "KC") 10));
   ("gsis_id",
    Utf8 [Some "00-0033873"; Some "00-0030506"; Some "00-0036356";
          None; Some "00-0035640"; Some "00-0034272"; Some "00-0038120";
          Some "00-0037741"; Some "00-0031345"; Some "00-0039064"]);
   ("full_name",
    Utf8 [Some "Patrick Mahomes"; Some "Travis Kelce"; Some "Creed Humphrey";
          Some "Practice Squad"; Some "Mecole Hardman"; Some "Justin Reid";
          Some "Rashee Rice"; Some "Isiah Pacheco"; Some "Chris Jones";
          Some "Xavier Worthy"]);
   ("jersey_number",
    Float64 (map (fun n => Some (S754_finite false n 0))
                 [15; 87; 52; 40; 12; 20; 4; 10; 95; 1]%positive));
   ("weight", Utf8 (repeat (Some "unknown") 10))].



(** The cells of a column fit its dtype. *)
Definition well_typed (s : Series) : bool :=
  let fits (ok : Z -> bool) (c : option Z) :=
    match c with Some z => ok z | None => true end in
  match s with
  | Int32 l => forallb (fits in_int32) l
  | Int64 l => forallb (fits in_int64) l
  | _ => true
  end.


(** The rows of a raw column that survive the filter on the key column
    [k]. *)
Definition rows_kept (k : string) (df : DataFrame) (raw : Series) : Series :=
  match lookup k df with
  | Some key => filter_series (is_not_null key) raw
  | None => raw
  end.


(** A week of player statistics with provider-side types: a float
    column, a text column and a 64-bit column with a value that does not
    fit 32 bits. *)
Definition raw_player_stats : DataFrame :=
  [("player_id", Utf8 [Some "00-0033873"; None; Some "00-0030506"]);
   ("season", Int64 [Some 2024%Z; Some 2024%Z; Some 2024%Z]);
   ("week", Float64 [Some (S754_finite false 3 (-1)); None;
                     Some (S754_finite false 1 1)]);
   ("attempts", Utf8 [Some "n/a"; Some "31"; Some "n/a"]);
   ("passing_yards", Int64 [Some 291%Z; Some 5%Z; Some 4294967296%Z]);
   ("passing_interceptions", Int64 [Some 1%Z; Some 0%Z; None])].

(** The cells of an integer column. *)
Definition int_cells (s : Series) : option (list (option Z)) :=
  match s with
  | Int32 l | Int64 l => Some l
  | _ => None
  end.

(** A cell with null read as zero. *)
Definition cell_or_zero (c : option Z) : Z :=
  match c with Some z => z | None => 0%Z end.

(** The sum of row [i] over some columns, nulls read as zero. *)
Definition row_total (cols : list (list (option Z))) (i : nat) : Z :=
  fold_left (fun t col => (t + cell_or_zero (nth i col None))%Z) cols 0%Z.

(** What becomes of a sum [t] of two integer columns in the result:
    32-bit columns add with wrap-around, and a sum computed in 64 bits is
    null when it is not a 32-bit integer. *)
Definition derived_cell (both32 : bool) (t : Z) : option Z :=
  if both32 then Some (wrap32 t) else narrow (wrap64 t).

(** The cells of an integer column, none for another column. *)
Definition cells_of (s : Series) : list (option Z) :=
  match s with
  | Int32 l | Int64 l => l
  | _ => []
  end.

(** An integer column with its nulls read as zero. *)
Definition filled (s : Series) : Series :=
  match s with
  | Int32 l => Int32 (map zero_if_null l)
  | Int64 l => Int64 (map zero_if_null l)
  | _ => s
  end.

(** The columns of the given names that a table has. *)
Definition present (df : DataFrame) (names : list string) : list Series :=
  flat_map (fun c => match lookup c df with Some s => [s] | None => [] end)
           names.

(** The turnover columns a raw table has, in the loader's order. *)
Definition present_turnovers (df : DataFrame) : list Series :=
  present df TeamDataLoader.turnover_sources.

(** A week of team statistics, one game with 250 passing and 80 rushing
    yards and one whose totals do not fit 32 bits. *)
Definition raw_team_stats : DataFrame :=
  [("team", Utf8 [Some "KC"; Some "BAL"]);
   ("season", Int64 [Some 2024%Z; Some 2024%Z]);
   ("opponent_team", Utf8 [Some "BAL"; Some "KC"]);
   ("passing_yards", Int64 [Some 250%Z; Some 2000000000%Z]);
   ("rushing_yards", Int64 [Some 80%Z; Some 2000000000%Z]);
   ("passing_interceptions", Int64 [Some 1%Z; None]);
   ("sack_fumbles_lost", Int64 [Some 1%Z; Some 2%Z])].




(** The values that deduplication keeps, given those already seen. *)
Fixpoint dedup (seen : list PyValue) (ks : list PyValue) : list PyValue :=
  match ks with
  | [] => []
  | k :: ks' =>
      if in_dec PyValue_eq_dec k seen then dedup seen ks'
      else k :: dedup (k :: seen) ks'
  end.


(** All columns of a frame have its height. *)
Definition rectangular (df : DataFrame) : Prop :=
  Forall (fun col => series_len (snd col) = height df) df.

(** The dictionary of a row has a value other than [None] under [c]. *)
Definition key_present (c : string) (r : Record) : bool :=
  match record_get c r with
  | PyNone => false
  | _ => true
  end.

(** A column is an integer column whose cell in row [i] is [x]. *)
Definition int_cell (i : nat) (s : Series) (x : Z) : Prop :=
  is_int32 s || is_int64 s = true
  /\ nth i (cells_of s) None = Some x.

(** The sum of the absolute values of row [i] over some columns, nulls
    read as zero. *)
Definition row_abs_total (cols : list (list (option Z))) (i : nat) : Z :=
  fold_left (fun t col => (t + Z.abs (cell_or_zero (nth i col None)))%Z)
            cols 0%Z.

(** The sum of some integers, and of their absolute values. *)
Definition zsum (vs : list Z) : Z := fold_right Z.add 0%Z vs.
Definition zabs (vs : list Z) : Z :=
  fold_right (fun v t => Z.abs v + t)%Z 0%Z vs.

(** A float cell with null read as zero. *)
Definition float_or_zero (c : option spec_float) : spec_float :=
  match c with Some f => f | None => S754_zero false end.

(** A week of team statistics with yards as floats and turnover columns
    of two integer widths. *)
Definition raw_team_week : DataFrame :=
  [("team", Utf8 [Some "KC"; Some "BAL"]);
   ("passing_yards", Float64 [Some (S754_finite false 250 0);
                              Some (S754_finite false 501 (-1))]);
   ("rushing_yards", Float64 [Some (S754_finite false 80 0);
                              Some (S754_finite false 323 (-2))]);
   ("passing_interceptions", Int32 [Some 1%Z; None]);
   ("rushing_fumbles_lost", Int64 [Some 0%Z; Some 2%Z]);
   ("sack_fumbles_lost", Int32 [Some 1%Z; Some 1%Z])].

(** Turnover columns of two widths: the two 32-bit cells add up to more
    than 32 bits can hold, all three cells to less.  The 32-bit columns
    come first in one table and last in the other. *)
Definition wrapping_turnovers : DataFrame :=
  [("team", Utf8 [Some "KC"]);
   ("passing_interceptions", Int32 [Some 2147483647%Z]);
   ("rushing_fumbles_lost", Int32 [Some 1%Z]);
   ("sack_fumbles_lost", Int64 [Some (-1)%Z])].

Definition wrapping_turnovers_right : DataFrame :=
  [("team", Utf8 [Some "KC"]);
   ("passing_interceptions", Int64 [Some (-1)%Z]);
   ("rushing_fumbles_lost", Int32 [Some 2147483647%Z]);
   ("sack_fumbles_lost", Int32 [Some 1%Z])].

(** The engine that adds the columns of [sum_horizontal] from the
    right. *)
Definition right_first (E : Engine) : Engine :=
  mkEngine (parse_int E) (float_to_utf8 E) (unique_order E)
           (fill_zero_other E) (add_other E) (fun n => n - 2)
           (infer_mixed E).









End MapperSpec.

(** ** Python sequences *)

(** [l[i:j]] for [0 <= i]: the slice stops at the end of the list. *)
Definition py_slice {A : Type} (l : list A) (i j : nat) : list A :=
  firstn (j - i) (skipn i l).

(** [range(0, stop, step)]: [ValueError] for a zero step, empty for a
    negative one, and otherwise the [ceil(stop / step)] multiples of
    [step] below [stop]. *)
Definition py_range0 (stop : nat) (step : Z) : result (list nat) :=
  if (step =? 0)%Z then Raise (ValueError "range() arg 3 must not be zero")
  else if (step <? 0)%Z then Ok []
  else
    let k := Z.to_nat step in
    Ok (map (fun n => n * k) (seq 0 ((stop + k - 1) / k))).

(** ** The remote store as seen by the uploader *)

Module SupabaseClient.

(** A write sent to the store: [table(name).insert(batch)] or
    [table(name).upsert(batch)]. *)
Record WriteRequest : Type := mkWrite {
  w_upsert : bool;
  w_table : string;
  w_rows : list Record
}.

(** One entry of [error_details]. *)
Record ErrorDetail : Type := mkErrorDetail {
  batch : nat;
  error : string
}.

(** The dictionary returned by [upload_dataframe]. *)
Record Summary : Type := mkSummary {
  total_rows : nat;
  uploaded : nat;
  errors : nat;
  error_details : list ErrorDetail
}.

Section Remote.

(** The store is an arbitrary state machine: [respond w q] is the state
    after the write [q] and either [None], the call returned, or
    [Some msg], the call raised an exception whose [str] is [msg]. *)
Variable World : Type.
Variable respond : World -> WriteRequest -> World * option string.

(** The client's view of the store: its state and the writes that
    reached it so far, oldest first. *)
Record Remote : Type := mkRemote {
  world : World;
  calls : list WriteRequest
}.

(** [....execute()] *)
Definition execute (r : Remote) (q : WriteRequest) : Remote * option string :=
  let (w', answer) := respond (world r) q in
  (mkRemote w' (calls r ++ [q]), answer).

(** The loop state: the store, [uploaded] and [errors]. *)
Record UploadState : Type := mkUpload {
  remote : Remote;
  up_uploaded : nat;
  up_errors : list ErrorDetail
}.

(** One iteration of the loop body, at offset [i]. *)
Definition upload_batch (records : list Record) (table_name : string)
    (batch_size : nat) (upsert : bool) (st : UploadState) (i : nat)
    : UploadState :=
  let batch := py_slice records i (i + batch_size) in
  match execute (remote st) (mkWrite upsert table_name batch) with
  | (r', None) =>
      mkUpload r' (up_uploaded st + length batch) (up_errors st)
  | (r', Some msg) =>
      mkUpload r' (up_uploaded st) (up_errors st ++ [mkErrorDetail i msg])
  end.

(** [upload_dataframe(df, table_name, batch_size, upsert)] run against
    the store [r]: the store afterwards and the summary, or the
    exception that escaped. *)
Definition upload_dataframe (r : Remote) (df : Polars.DataFrame)
    (table_name : string) (batch_size : Z) (upsert : bool)
    : result (Remote * Summary) :=
  let total_rows := Polars.height df in
  let records := Polars.to_dicts df in
  offsets <- py_range0 total_rows batch_size ;;
  let st :=
    fold_left
      (upload_batch records table_name (Z.to_nat batch_size) upsert)
      offsets (mkUpload r 0 []) in
  Ok (remote st,
      mkSummary total_rows (up_uploaded st)
                (length (up_errors st)) (up_errors st)).

(** The answers of the store to a sequence of writes, in order. *)
Fixpoint answers (w : World) (qs : list WriteRequest) : list (option string) :=
  match qs with
  | [] => []
  | q :: qs' => let (w', a) := respond w q in a :: answers w' qs'
  end.

End Remote.

Arguments mkRemote {World} _ _.
Arguments world {World} _.
Arguments calls {World} _.
Arguments execute {World} _ _ _.
Arguments mkUpload {World} _ _ _.
Arguments remote {World} _.
Arguments up_uploaded {World} _.
Arguments up_errors {World} _.
Arguments upload_batch {World} _ _ _ _ _ _ _.
Arguments upload_dataframe {World} _ _ _ _ _ _.
Arguments answers {World} _ _ _.

(** *** Reading *)

(** The request built by [table(name).select("*")] and [.eq(column, value)]. *)
Record SelectQuery : Type := mkSelect {
  s_table : string;
  s_columns : string;
  s_filters : list (string * PyValue)
}.

Definition select_all (table_name : string) : SelectQuery :=
  mkSelect table_name "*" [].

(** [query.eq(column, value)] *)
Definition query_eq (q : SelectQuery) (column : string) (value : PyValue)
    : SelectQuery :=
  mkSelect (s_table q) (s_columns q) (s_filters q ++ [(column, value)]).

Section Reader.

Variable E : Polars.Engine.

(** [query.execute()]: the rows of [response.data], or the exception the
    store raised. *)
Variable fetch : SelectQuery -> result (list Record).

(** [SupabaseClient.query(table_name, filters)]; [filters] is [None] or
    the items of a dictionary, in its order. *)
Definition query (table_name : string)
    (filters : option (list (string * PyValue))) : result Polars.DataFrame :=
  let query := select_all table_name in
  let query :=
    match filters with
    | Some ((_ :: _) as items) =>
        fold_left (fun q item => query_eq q (fst item) (snd item)) items query
    | _ => query
    end in
  data <- fetch query ;;
  Polars.from_dicts E data.

End Reader.

(** Modelled from the spec: the remote store's answer to a select request.
    The store itself is a hosted service and is not part of the sources;
    the specification describes it as a table-oriented API whose
    equality filters are combined with a logical AND, and which caps the
    rows of a single request. *)
Record Store : Type := mkStore {
  tables : string -> list Record;
  max_rows : option nat
}.

Definition PyValue_eqb (a b : PyValue) : bool :=
  if PyValue_eq_dec a b then true else false.

(** A row matches a filter when it has the column with exactly that
    value. *)
Definition matches (r : Record) (f : string * PyValue) : bool :=
  match List.find (fun p => String.eqb (fst p) (fst f)) r with
  | Some p => PyValue_eqb (snd p) (snd f)
  | None => false
  end.

Definition matches_all (filters : list (string * PyValue)) (r : Record) : bool :=
  forallb (matches r) filters.

Definition capped (cap : option nat) (rows : list Record) : list Record :=
  match cap with
  | Some n => firstn n rows
  | None => rows
  end.

Definition store_select (db : Store) (q : SelectQuery) : result (list Record) :=
  Ok (capped (max_rows db)
             (List.filter (matches_all (s_filters q)) (tables db (s_table q)))).

End SupabaseClient.

(** ** Specification-side vocabulary for the uploader *)

Module UploadSpec.
Import SupabaseClient.

(** The chunk of [records] that starts at offset [i]. *)
Definition chunk (records : list Record) (k i : nat) : list Record :=
  py_slice records i (i + k).

(** The offsets at which the chunks of [total] rows start: [0], [k],
    [2 * k], ... below [total]. *)
Definition chunk_offsets (total k : nat) : list nat :=
  map (fun n => n * k) (seq 0 ((total + k - 1) / k)).

(** The writes that carry the chunks, one per offset. *)
Definition chunk_writes (records : list Record) (table_name : string)
    (k : nat) (upsert : bool) (offs : list nat)
    : list SupabaseClient.WriteRequest :=
  map (fun i => mkWrite upsert table_name (chunk records k i)) offs.

Definition is_failure (a : option string) : bool :=
  match a with Some _ => true | None => false end.

(** The failed chunks among offsets paired with the store's answers. *)
Fixpoint failures (offs : list nat) (ans : list (option string))
    : list ErrorDetail :=
  match offs, ans with
  | i :: offs', Some msg :: ans' => mkErrorDetail i msg :: failures offs' ans'
  | _ :: offs', None :: ans' => failures offs' ans'
  | _, _ => []
  end.

(** The rows of the chunks the store accepted. *)
Fixpoint accepted_rows (sizes : list nat) (ans : list (option string)) : nat :=
  match sizes, ans with
  | n :: sizes', None :: ans' => n + accepted_rows sizes' ans'
  | _ :: sizes', Some _ :: ans' => accepted_rows sizes' ans'
  | _, _ => 0
  end.

End UploadSpec.

(** *** A concrete run: 2,500 rows, the second write refused *)

Module UploadDemo.
Import SupabaseClient UploadSpec.

Definition demo_df : Polars.DataFrame :=
  [("play_id", Polars.Int64 (map (fun n => Some (Z.of_nat n)) (seq 0 2500)))].

(** A store that counts the writes it has seen and refuses the second. *)
Definition demo_respond (w : nat) (q : WriteRequest) : nat * option string :=
  (S w, if Nat.eqb w 1 then Some "timeout" else None).

Definition demo_remote : Remote nat := mkRemote 0 [].

End UploadDemo.


(** ** Specification-side vocabulary for the reader *)

Module ReaderSpec.
Import SupabaseClient.

(** The items of an optional filter dictionary. *)
Definition items (filters : option (list (string * PyValue)))
    : list (string * PyValue) :=
  match filters with
  | Some l => l
  | None => []
  end.

(** The rows of a table that satisfy every filter. *)
Definition matching (db : Store) (table_name : string)
    (filters : list (string * PyValue)) : list Record :=
  List.filter (matches_all filters) (tables db table_name).

(** A store that answers at most 1,000 rows per request and holds 1,001
    plays. *)
Definition capped_store : Store :=
  mkStore (fun _ => map (fun n => [("play_id", PyInt (Z.of_nat n))])
                        (seq 0 1001))
          (Some 1000).

End ReaderSpec.

(** ** The rest of the client, the loaders' joins and the scripts *)

(** The exceptions met outside the mappers: those above, and the ones
    Polars raises for a column that a frame does not have. *)
Inductive failure : Type :=
| Exn (e : exn)
| ColumnNotFoundError (column : string).

Inductive outcome (A : Type) : Type :=
| Return (a : A)
| Throw (e : failure).

Arguments Return {A} a.
Arguments Throw {A} e.

Definition and_then {A B : Type} (r : outcome A) (k : A -> outcome B)
    : outcome B :=
  match r with
  | Return a => k a
  | Throw e => Throw e
  end.

Notation "x <~ r ;; k" := (and_then r (fun x => k))
  (at level 61, r at next level, right associativity).

Definition lift {A : Type} (r : result A) : outcome A :=
  match r with
  | Ok a => Return a
  | Raise e => Throw (Exn e)
  end.

(** *** Polars: expressions, concatenation, joins, sorting *)

Module Frames.
Import Polars.

(** What these operations leave to the engine: stacking columns of
    different dtypes, joining on keys that are not integers or strings
    of one dtype, the order of the rows a join or a sort returns (both
    run without [maintain_order]), a comparison with an integer on a
    column that holds no integers, and the sum of a column. *)
Record Runtime : Type := mkRuntime {
  concat_other : Series -> Series -> outcome Series;
  join_other : DataFrame -> DataFrame -> list string -> outcome DataFrame;
  join_order : list (nat * option nat) -> list (nat * option nat);
  sort_order : Series -> bool -> list nat;
  compare_other : Series -> Z -> outcome (list bool);
  sum_series : Series -> outcome PyValue
}.

(** [pl.col(c)] evaluated on [df] *)
Definition col (df : DataFrame) (c : string) : outcome Series :=
  match lookup c df with
  | Some s => Return s
  | None => Throw (ColumnNotFoundError c)
  end.

Fixpoint aliased (df : DataFrame) (exprs : list (string * string))
    : outcome DataFrame :=
  match exprs with
  | [] => Return []
  | (src, dst) :: exprs' =>
      s <~ col df src ;;
      rest <~ aliased df exprs' ;;
      Return ((dst, s) :: rest)
  end.

(** [df.select([pl.col(src).alias(dst), ...])]: every column must exist
    and the output names must differ. *)
Definition select_as (df : DataFrame) (exprs : list (string * string))
    : outcome DataFrame :=
  out <~ aliased df exprs ;;
  match first_duplicate (columns out) with
  | Some n => Throw (Exn (DuplicateError n))
  | None => Return out
  end.

(** [df.select(names)] with plain column names *)
Definition select_names (df : DataFrame) (names : list string)
    : outcome DataFrame :=
  select_as df (map (fun c => (c, c)) names).

Section WithRuntime.
Variable R : Runtime.

(** One column under another, for columns of one dtype. *)
Definition vstack (a b : Series) : outcome Series :=
  match a, b with
  | Int32 x, Int32 y => Return (Int32 (x ++ y))
  | Int64 x, Int64 y => Return (Int64 (x ++ y))
  | Float64 x, Float64 y => Return (Float64 (x ++ y))
  | Utf8 x, Utf8 y => Return (Utf8 (x ++ y))
  | Null n, Null m => Return (Null (n + m))
  | _, _ => concat_other R a b
  end.

(** [pl.concat([a, b])], for two frames with the same column names in
    the same order: the rows of [b] under the rows of [a]. *)
Fixpoint concat (a b : DataFrame) : outcome DataFrame :=
  match a, b with
  | (n, x) :: a', (_, y) :: b' =>
      s <~ vstack x y ;;
      rest <~ concat a' b' ;;
      Return ((n, s) :: rest)
  | _, _ => Return []
  end.

(** The value of row [i] in a column. *)
Definition cell (s : Series) (i : nat) : PyValue := nth i (to_list s) PyNone.

(** Key columns a join compares cell by cell: integers or strings, of
    the same dtype on both sides. *)
Definition joinable (a b : Series) : bool :=
  match a, b with
  | Int32 _, Int32 _ | Int64 _, Int64 _ | Utf8 _, Utf8 _ => true
  | _, _ => false
  end.

Definition value_eqb (a b : PyValue) : bool :=
  if PyValue_eq_dec a b then true else false.

(** Two key cells match: they are equal, and a null matches nothing. *)
Definition key_eqb (a b : PyValue) : bool :=
  match a with
  | PyNone => false
  | _ => value_eqb a b
  end.

(** Row [i] of the left keys matches row [j] of the right keys: the
    cells match in every key column. *)
Definition key_match (lk rk : list Series) (i j : nat) : bool :=
  forallb (fun p => key_eqb (cell (fst p) i) (cell (snd p) j))
          (combine lk rk).

(** The rows of a left join as pairs of positions: each left row with
    each right row it matches, or once with no right row. *)
Definition left_join_rows (lk rk : list Series) (nl nr : nat)
    : list (nat * option nat) :=
  flat_map (fun i => match List.filter (key_match lk rk i) (seq 0 nr) with
                     | [] => [(i, None)]
                     | js => map (fun j => (i, Some j)) js
                     end)
           (seq 0 nl).

(** The cells of a column at the given positions, null where there is
    none. *)
Definition gather (idx : list (option nat)) (s : Series) : Series :=
  let at_ {A} (l : list (option A)) (o : option nat) : option A :=
    match o with Some j => nth j l None | None => None end in
  match s with
  | Int32 l => Int32 (map (at_ l) idx)
  | Int64 l => Int64 (map (at_ l) idx)
  | Float64 l => Float64 (map (at_ l) idx)
  | Utf8 l => Utf8 (map (at_ l) idx)
  | Null _ => Null (length idx)
  end.

Fixpoint cols (df : DataFrame) (names : list string) : outcome (list Series) :=
  match names with
  | [] => Return []
  | c :: names' =>
      s <~ col df c ;;
      rest <~ cols df names' ;;
      Return (s :: rest)
  end.

(** [left.join(right, on=on, how="left")]: the columns of [left], then
    the columns of [right] that are not keys, with the suffix [_right]
    where [left] has the name already. *)
Definition join_left (left right : DataFrame) (on : list string)
    : outcome DataFrame :=
  lk <~ cols left on ;;
  rk <~ cols right on ;;
  if forallb (fun p => joinable (fst p) (snd p)) (combine lk rk) then
    let pairs :=
      join_order R (left_join_rows lk rk (height left) (height right)) in
    let kept := take_rows (map fst pairs) left in
    let added :=
      map (fun c => (if has_column left (fst c)
                     then String.append (fst c) "_right" else fst c,
                     gather (map snd pairs) (snd c)))
          (List.filter (fun c => negb (existsb (String.eqb (fst c)) on))
                       right) in
    let out := kept ++ added in
    match first_duplicate (columns out) with
    | Some n => Throw (Exn (DuplicateError n))
    | None => Return out
    end
  else join_other R left right on.

(** [df.sort(c, descending=d)] *)
Definition sort (df : DataFrame) (c : string) (descending : bool)
    : outcome DataFrame :=
  s <~ col df c ;;
  Return (take_rows (sort_order R s descending) df).

(** [df.head(n)]: the first [n] rows, or all but the last [-n] for a
    negative [n]. *)
Definition head (df : DataFrame) (n : Z) : DataFrame :=
  let h := height df in
  let k := if (0 <=? n)%Z then Nat.min (Z.to_nat n) h
           else h - Z.to_nat (- n) in
  take_rows (seq 0 k) df.

(** The mask of [pl.col(c).is_not_null() & (pl.col(c) >= n)] as
    [filter] reads it: true where the cell is an integer of at least
    [n]. *)
Definition at_least_mask (s : Series) (n : Z) : outcome (list bool) :=
  match s with
  | Int32 l | Int64 l =>
      Return (map (fun c => match c with
                            | Some z => (n <=? z)%Z
                            | None => false
                            end) l)
  | _ => compare_other R s n
  end.

End WithRuntime.

End Frames.

(** *** Team statistics with points *)

Module TeamPoints.
Import Polars Frames.

(** [TeamDataLoader.load_team_stats], from the two tables the provider
    returns: [stats] is [nfl.load_team_stats(seasons, summary_level)] and
    [schedules] is [nfl.load_schedules(seasons)]. *)
Definition load_team_stats (R : Runtime) (stats schedules : DataFrame)
    : outcome DataFrame :=
  home_points <~ select_as schedules
                   [("season", "season"); ("week", "week");
                    ("home_team", "team"); ("home_score", "points")] ;;
  away_points <~ select_as schedules
                   [("season", "season"); ("week", "week");
                    ("away_team", "team"); ("away_score", "points")] ;;
  points_lookup <~ concat R home_points away_points ;;
  join_left R stats points_lookup ["season"; "week"; "team"].

End TeamPoints.

(** Specification-side vocabulary for the points join. *)

Module TeamPointsSpec.
Import Polars Frames.

(** Two key values are the same: equal, and not null. *)
Definition same_key (a b : PyValue) : bool :=
  match a with
  | PyNone => false
  | _ => value_eqb a b
  end.

(** The scores a schedule holds for a team in a week of a season: the
    home scores of the games it hosts, then the away scores of the games
    it visits. *)
Definition scores_for (games : list Record) (season week team : PyValue)
    : list PyValue :=
  flat_map (fun g => if same_key season (record_get "season" g)
                        && same_key week (record_get "week" g)
                        && same_key team (record_get "home_team" g)
                     then [record_get "home_score" g] else []) games
  ++ flat_map (fun g => if same_key season (record_get "season" g)
                           && same_key week (record_get "week" g)
                           && same_key team (record_get "away_team" g)
                        then [record_get "away_score" g] else []) games.

(** A statistics row with its points: once per score found, or once
    with no points. *)
Definition with_points (name : string) (games : list Record) (r : Record)
    : list Record :=
  match scores_for games (record_get "season" r) (record_get "week" r)
                   (record_get "team" r) with
  | [] => [r ++ [(name, PyNone)]]
  | ps => map (fun p => r ++ [(name, p)]) ps
  end.

(** The name under which the points arrive. *)
Definition points_name (stats : DataFrame) : string :=
  if has_column stats "points" then "points_right" else "points".

Definition same_dtype (a b : Series) : bool :=
  match a, b with
  | Int32 _, Int32 _ | Int64 _, Int64 _ | Float64 _, Float64 _
  | Utf8 _, Utf8 _ | Null _, Null _ => true
  | _, _ => false
  end.

(** The two tables have the columns the loader reads, the keys are
    integers or strings of the same dtype on both sides, and the two
    score columns have one dtype. *)
Definition plain_tables (stats schedules : DataFrame) : bool :=
  match lookup "season" stats, lookup "week" stats, lookup "team" stats with
  | Some s1, Some w1, Some t1 =>
      match lookup "season" schedules, lookup "week" schedules,
            lookup "home_team" schedules, lookup "away_team" schedules,
            lookup "home_score" schedules, lookup "away_score" schedules with
      | Some s2, Some w2, Some ht, Some at_, Some hs, Some as_ =>
          joinable s1 s2 && joinable w1 w2 && joinable t1 ht
          && joinable t1 at_ && same_dtype hs as_
      | _, _, _, _, _, _ => false
      end
  | _, _, _ => false
  end.

(** An engine for concrete runs: rows in the order of the left table,
    no support for what it is not required to support. *)
Definition reference_runtime : Runtime :=
  mkRuntime (fun _ _ => Throw (Exn (InvalidOperationError "concat")))
            (fun _ _ _ => Throw (Exn (InvalidOperationError "join")))
            (fun pairs => pairs)
            (fun s _ => seq 0 (series_len s))
            (fun _ _ => Throw (Exn (InvalidOperationError "compare")))
            (fun _ => Throw (Exn (InvalidOperationError "sum"))).

(** Two weeks of statistics for two teams, and the schedule of the first
    week. *)
Definition week_stats : DataFrame :=
  [("team", Utf8 [Some "KC"; Some "BAL"; Some "KC"]);
   ("season", Int64 [Some 2024%Z; Some 2024%Z; Some 2024%Z]);
   ("week", Int64 [Some 1%Z; Some 1%Z; Some 2%Z]);
   ("passing_yards", Int64 [Some 291%Z; Some 273%Z; Some 151%Z])].

Definition week_schedule : DataFrame :=
  [("game_id", Utf8 [Some "2024_01_BAL_KC"]);
   ("season", Int64 [Some 2024%Z]);
   ("week", Int64 [Some 1%Z]);
   ("home_team", Utf8 [Some "KC"]);
   ("away_team", Utf8 [Some "BAL"]);
   ("home_score", Int64 [Some 27%Z]);
   ("away_score", Int64 [Some 20%Z])].

End TeamPointsSpec.

(** *** Rushing touchdowns *)

Module PlayerAnalytics.
Import Polars Frames SupabaseClient.

Section Analytics.
Variable E : Engine.
Variable R : Runtime.
Variable fetch : SelectQuery -> result (list Record).

(** [PlayerAnalytics.get_rushing_touchdowns(season, week, min_tds,
    limit)] *)
Definition get_rushing_touchdowns (season : Z) (week : option Z)
    (min_tds limit : Z) : outcome DataFrame :=
  let filters := [("season", PyInt season)] in
  let filters := match week with
                 | Some w => filters ++ [("week", PyInt w)]
                 | None => filters
                 end in
  player_stats <~ lift (query E fetch "player_stats" (Some filters)) ;;
  tds <~ col player_stats "rushing_tds" ;;
  mask <~ at_least_mask R tds min_tds ;;
  let rushing_td_stats := Polars.filter player_stats mask in
  selected <~ select_names rushing_td_stats
                ["player_name"; "team"; "position"; "week"; "carries";
                 "rushing_yards"; "rushing_tds"] ;;
  sorted <~ sort R selected "rushing_tds" true ;;
  Return (head sorted limit).

End Analytics.

End PlayerAnalytics.

(** *** The week-17 example *)

Module Week17Example.
Import Polars Frames SupabaseClient.

(** What [main] of [examples/rushing_touchdowns_week17.py] prints: that
    no data was found, the number of players with the three totals, or
    the error it caught. *)
Inductive Report : Type :=
| NoData
| Totals (players : nat) (total_tds total_yards total_carries : PyValue)
| Failed (e : failure).

Section Example.
Variable E : Engine.
Variable R : Runtime.
Variable fetch : SelectQuery -> result (list Record).

(** [df[c].sum()] *)
Definition column_sum (df : DataFrame) (c : string) : outcome PyValue :=
  s <~ col df c ;;
  sum_series R s.

Definition main : Report :=
  match PlayerAnalytics.get_rushing_touchdowns E R fetch
          2025 (Some 17%Z) 1 50 with
  | Throw e => Failed e
  | Return rushing_tds =>
      if Nat.eqb (height rushing_tds) 0 then NoData
      else
        match (total_tds <~ column_sum rushing_tds "rushing_tds" ;;
               total_yards <~ column_sum rushing_tds "rushing_yards" ;;
               total_carries <~ column_sum rushing_tds "carries" ;;
               Return (total_tds, total_yards, total_carries)) with
        | Return (total_tds, total_yards, total_carries) =>
            Totals (height rushing_tds) total_tds total_yards total_carries
        | Throw e => Failed e
        end
  end.

End Example.

End Week17Example.

(** Specification-side vocabulary for the touchdown leaders. *)

Module LeadersSpec.
Import Polars Frames SupabaseClient.

Definition rushing_columns : list string :=
  ["player_name"; "team"; "position"; "week"; "carries"; "rushing_yards";
   "rushing_tds"].

(** The request [get_rushing_touchdowns] sends. *)
Definition leaders_request (season : Z) (week : option Z) : SelectQuery :=
  mkSelect "player_stats" "*"
    (("season", PyInt season)
     :: match week with Some w => [("week", PyInt w)] | None => [] end).

(** The touchdowns of a row, zero when it has none. *)
Definition touchdowns (r : Record) : Z :=
  match record_get "rushing_tds" r with
  | PyInt z => z
  | _ => 0%Z
  end.

(** The row has at least [n] rushing touchdowns. *)
Definition qualifies (n : Z) (r : Record) : bool :=
  match record_get "rushing_tds" r with
  | PyInt z => (n <=? z)%Z
  | _ => false
  end.

(** The row restricted to the columns of the result. *)
Definition leader_row (r : Record) : Record :=
  map (fun c => (c, record_get c r)) rushing_columns.

(** [l[:n]] as [head] takes it: for a negative [n], all but the last
    [-n]. *)
Definition first_rows {A : Type} (n : Z) (l : list A) : list A :=
  if (0 <=? n)%Z then firstn (Z.to_nat n) l
  else firstn (length l - Z.to_nat (- n)) l.

(** The engine's descending sort of an integer column without nulls
    returns the positions of the column, each once, largest value
    first. *)
Definition sorts_descending (R : Runtime) : Prop :=
  forall zs : list Z,
    let idx := sort_order R (Int64 (map Some zs)) true in
    Permutation idx (seq 0 (length zs))
    /\ StronglySorted (fun a b => (b <= a)%Z)
                      (map (fun i => nth i zs 0%Z) idx).

(** Three players' rows as the store returns them. *)
Definition week_rows : list Record :=
  [[("player_name", PyStr "D.Henry"); ("team", PyStr "BAL");
    ("position", PyStr "RB"); ("season", PyInt 2024); ("week", PyInt 5);
    ("carries", PyInt 15); ("rushing_yards", PyInt 92);
    ("rushing_tds", PyInt 2)];
   [("player_name", PyStr "L.Jackson"); ("team", PyStr "BAL");
    ("position", PyStr "QB"); ("season", PyInt 2024); ("week", PyInt 5);
    ("carries", PyInt 12); ("rushing_yards", PyInt 55);
    ("rushing_tds", PyNone)];
   [("player_name", PyStr "I.Pacheco"); ("team", PyStr "KC");
    ("position", PyStr "RB"); ("season", PyInt 2024); ("week", PyInt 5);
    ("carries", PyInt 18); ("rushing_yards", PyInt 80);
    ("rushing_tds", PyInt 1)]].

Definition week_fetch (q : SelectQuery) : result (list Record) :=
  Ok week_rows.

(** The frame Polars builds from these rows. *)
Definition week_frame : DataFrame :=
  [("player_name", Utf8 [Some "D.Henry"; Some "L.Jackson"; Some "I.Pacheco"]);
   ("team", Utf8 [Some "BAL"; Some "BAL"; Some "KC"]);
   ("position", Utf8 [Some "RB"; Some "QB"; Some "RB"]);
   ("season", Int64 [Some 2024%Z; Some 2024%Z; Some 2024%Z]);
   ("week", Int64 [Some 5%Z; Some 5%Z; Some 5%Z]);
   ("carries", Int64 [Some 15%Z; Some 12%Z; Some 18%Z]);
   ("rushing_yards", Int64 [Some 92%Z; Some 55%Z; Some 80%Z]);
   ("rushing_tds", Int64 [Some 2%Z; None; Some 1%Z])].

(** A store without rows. *)
Definition empty_fetch (q : SelectQuery) : result (list Record) := Ok [].

(** A week in which nobody ran for a touchdown. *)
Definition dry_rows : list Record :=
  [[("player_name", PyStr "L.Jackson"); ("team", PyStr "BAL");
    ("position", PyStr "QB"); ("season", PyInt 2025); ("week", PyInt 17);
    ("carries", PyInt 12); ("rushing_yards", PyInt 55);
    ("rushing_tds", PyInt 0)]].

Definition dry_frame : DataFrame :=
  [("player_name", Utf8 [Some "L.Jackson"]);
   ("team", Utf8 [Some "BAL"]);
   ("position", Utf8 [Some "QB"]);
   ("season", Int64 [Some 2025%Z]);
   ("week", Int64 [Some 17%Z]);
   ("carries", Int64 [Some 12%Z]);
   ("rushing_yards", Int64 [Some 55%Z]);
   ("rushing_tds", Int64 [Some 0%Z])].

Definition dry_fetch (q : SelectQuery) : result (list Record) := Ok dry_rows.

End LeadersSpec.

(** An engine that sorts: positions by insertion, largest value
    first. *)
Module SortingRuntime.
Import Polars Frames.

Fixpoint insert_desc (zs : list Z) (i : nat) (idx : list nat) : list nat :=
  match idx with
  | [] => [i]
  | j :: idx' =>
      if (nth j zs 0 <=? nth i zs 0)%Z then i :: j :: idx'
      else j :: insert_desc zs i idx'
  end.

Definition positions_desc (zs : list Z) : list nat :=
  fold_right (insert_desc zs) [] (seq 0 (length zs)).

Definition sorting_runtime : Runtime :=
  mkRuntime (fun _ _ => Throw (Exn (InvalidOperationError "concat")))
            (fun _ _ _ => Throw (Exn (InvalidOperationError "join")))
            (fun pairs => pairs)
            (fun s _ => match s with
                        | Int32 l | Int64 l =>
                            positions_desc (map MapperSpec.cell_or_zero l)
                        | _ => seq 0 (series_len s)
                        end)
            (fun _ _ => Throw (Exn (InvalidOperationError "compare")))
            (fun _ => Throw (Exn (InvalidOperationError "sum"))).

End SortingRuntime.

(** *** The loading script *)

Module LoadData.
Import Polars Frames SupabaseClient.

(** What [nflreadpy] returns for the seasons of the run, or the
    exception it raises. *)
Record Provider : Type := mkProvider {
  nfl_load_pbp : result DataFrame;
  nfl_load_player_stats : result DataFrame;
  nfl_load_team_stats : result DataFrame;
  nfl_load_schedules : result DataFrame;
  nfl_load_rosters : result DataFrame;
  nfl_load_players : result DataFrame;
  nfl_load_teams : result DataFrame
}.

Section Script.
Variable E : Engine.
Variable R : Runtime.
Variable World : Type.
Variable respond : World -> WriteRequest -> World * option string.
Variable nfl : Provider.

(** A step of the script: it runs against the store and returns a value
    or raises, and in both cases leaves the store as its writes made
    it. *)
Definition Script (A : Type) : Type :=
  Remote World -> Remote World * outcome A.

Definition ret {A : Type} (a : A) : Script A := fun r => (r, Return a).

Definition pure {A : Type} (o : outcome A) : Script A := fun r => (r, o).

Definition step {A B : Type} (m : Script A) (k : A -> Script B) : Script B :=
  fun r => match m r with
           | (r', Return a) => k a r'
           | (r', Throw e) => (r', Throw e)
           end.

(** [client.upload_dataframe(df, table_name, batch_size=1000,
    upsert=True)] *)
Definition upload (df : DataFrame) (table_name : string) : Script Summary :=
  fun r => match upload_dataframe respond r df table_name 1000 true with
           | Ok (r', s) => (r', Return s)
           | Raise e => (r, Throw (Exn e))
           end.

Definition load_play_by_play : Script Summary :=
  step (pure (lift (nfl_load_pbp nfl))) (fun df =>
  let df_prepared := PlayByPlayLoader.prepare_for_upload E df in
  upload df_prepared "play_by_play").

Definition load_player_stats : Script Summary :=
  step (pure (lift (nfl_load_player_stats nfl))) (fun df =>
  step (pure (lift (PlayerStatsLoader.prepare_for_upload E df)))
       (fun df_prepared =>
  upload df_prepared "player_stats")).

Definition load_team_stats : Script Summary :=
  step (pure (lift (nfl_load_team_stats nfl))) (fun stats =>
  step (pure (lift (nfl_load_schedules nfl))) (fun schedules =>
  step (pure (TeamPoints.load_team_stats R stats schedules)) (fun df =>
  step (pure (lift (TeamDataLoader.prepare_for_upload E df "stats")))
       (fun df_prepared =>
  upload df_prepared "team_stats")))).

Definition load_rosters : Script Summary :=
  step (pure (lift (nfl_load_rosters nfl))) (fun df =>
  step (pure (lift (TeamDataLoader.prepare_for_upload E df "rosters")))
       (fun df_prepared =>
  upload df_prepared "rosters")).

Definition load_schedules : Script Summary :=
  step (pure (lift (nfl_load_schedules nfl))) (fun df =>
  step (pure (lift (TeamDataLoader.prepare_for_upload E df "schedules")))
       (fun df_prepared =>
  upload df_prepared "schedules")).

Definition load_reference_data : Script Summary :=
  step (pure (lift (nfl_load_players nfl))) (fun players_df =>
  step (pure (lift (PlayerStatsLoader.prepare_player_info_for_upload
                      E players_df)))
       (fun players_prepared =>
  step (upload players_prepared "players") (fun _ =>
  step (pure (lift (nfl_load_teams nfl))) (fun teams_df =>
  step (pure (lift (TeamDataLoader.prepare_for_upload E teams_df "info")))
       (fun teams_prepared =>
  upload teams_prepared "teams"))))).

Definition all_data_types : list string :=
  ["pbp"; "player_stats"; "team_stats"; "rosters"; "schedules"; "reference"].

(** [if name in data_types: load(...)] *)
Definition when (name : string) (data_types : list string)
    (load : Script Summary) : Script unit :=
  if existsb (String.eqb name) data_types
  then step load (fun _ => ret tt)
  else ret tt.

(** The body of [main] once the client is connected: the data types
    asked for on the command line are loaded in the script's order, and
    an exception ends the run; [main] catches and prints it. *)
Definition main (data_types : list string) : Script unit :=
  let data_types :=
    if existsb (String.eqb "all") data_types then all_data_types
    else data_types in
  step (when "reference" data_types load_reference_data) (fun _ =>
  step (when "pbp" data_types load_play_by_play) (fun _ =>
  step (when "player_stats" data_types load_player_stats) (fun _ =>
  step (when "team_stats" data_types load_team_stats) (fun _ =>
  step (when "rosters" data_types load_rosters) (fun _ =>
  when "schedules" data_types load_schedules))))).

End Script.

End LoadData.

(** Specification-side vocabulary for the loading script. *)

Module LoadSpec.
Import SupabaseClient.

(** The tables in the order the script writes them. *)
Definition table_order : list string :=
  ["players"; "teams"; "play_by_play"; "player_stats"; "team_stats";
   "rosters"; "schedules"].

Fixpoint index_of (t : string) (l : list string) : nat :=
  match l with
  | [] => 0
  | x :: l' => if String.eqb t x then 0 else S (index_of t l')
  end.

Definition table_rank (t : string) : nat := index_of t table_order.

(** Every write a step of the script adds to the store satisfies [P]. *)
Definition sends {World A : Type} (P : WriteRequest -> Prop)
    (m : LoadData.Script World A) : Prop :=
  forall r, exists ws,
    calls (fst (m r)) = calls r ++ ws /\ Forall P ws.

(** A write of the script: an upsert of 1 to 1,000 rows into one of its
    tables. *)
Definition script_write (q : WriteRequest) : Prop :=
  w_upsert q = true
  /\ 1 <= length (w_rows q) <= 1000
  /\ In (w_table q) table_order.

(** The writes come table by table, in the order of [table_order]. *)
Definition in_table_order (ws : list WriteRequest) : Prop :=
  StronglySorted
    (fun a b => table_rank (w_table a) <= table_rank (w_table b)) ws.

(** The writes a step adds are writes of the script into the tables of
    ranks [lo] to [hi - 1], in the order of the tables. *)
Definition sends_sorted {World A : Type} (lo hi : nat)
    (m : LoadData.Script World A) : Prop :=
  forall r, exists ws,
    calls (fst (m r)) = calls r ++ ws
    /\ Forall (fun q => script_write q
                        /\ lo <= table_rank (w_table q) < hi) ws
    /\ in_table_order ws.

(** Every row of the write has a value under [c]. *)
Definition keyed (c : string) (q : WriteRequest) : Prop :=
  Forall (fun r => MapperSpec.key_present c r = true) (w_rows q).

(** A provider with one week of player statistics and nothing else. *)
Definition stats_only : LoadData.Provider :=
  LoadData.mkProvider
    (Raise (APIError "offline")) (Ok MapperSpec.raw_player_stats)
    (Raise (APIError "offline")) (Raise (APIError "offline"))
    (Raise (APIError "offline")) (Raise (APIError "offline"))
    (Raise (APIError "offline")).

End LoadSpec.

(** *** Reading a table page by page *)

Module PassingLeaders.

Definition page_size : nat := 1000.

(** The [while True] loop of [scripts/test_passing_leaders.py]:
    [fetch a b] is the answer to the request for the rows [a] to [b],
    both included.  [None] stands for a loop that has not stopped after
    [fuel] requests. *)
Fixpoint paginate (fetch : nat -> nat -> result (list Record))
    (fuel offset : nat) (all_data : list Record)
    : option (result (list Record)) :=
  match fuel with
  | 0 => None
  | S fuel' =>
      match fetch offset (offset + page_size - 1) with
      | Raise e => Some (Raise e)
      | Ok [] => Some (Ok all_data)
      | Ok data =>
          let all_data := all_data ++ data in
          let offset := offset + page_size in
          if Nat.ltb (length data) page_size then Some (Ok all_data)
          else paginate fetch fuel' offset all_data
      end
  end.

End PassingLeaders.

Module PassingLeadersSpec.

(** A store that holds [rows] and answers a range request with exactly
    the rows asked for. *)
Definition exact_pages (rows : list Record) (a b : nat)
    : result (list Record) :=
  Ok (py_slice rows a (b + 1)).

(** A table of 2,500 rows. *)
Definition many_rows : list Record :=
  map (fun n => [("passing_yards", PyInt (Z.of_nat n))]) (seq 0 2500).

End PassingLeadersSpec.

(** Specification-side vocabulary for reading back what was uploaded. *)

Module RoundTripSpec.
Import Polars.

(** The dtype of the column shows within the rows from which a frame
    built from dictionaries infers it: the column is all null, or has a
    value among its first [infer_schema_length] cells. *)
Definition dtype_visible (s : Series) : bool :=
  dtype_eqb (first_dtype (firstn infer_schema_length (to_list s)))
            (first_dtype (to_list s)).

(** Every column holds values of its dtype and shows its dtype. *)
Definition readable (df : DataFrame) : bool :=
  forallb (fun c => MapperSpec.well_typed (snd c) && dtype_visible (snd c)) df.

(** The rows of the writes [after] holds beyond those of [before]. *)
Definition rows_sent {World : Type}
    (before after : SupabaseClient.Remote World) : list Record :=
  concat (map SupabaseClient.w_rows
              (skipn (length (SupabaseClient.calls before))
                     (SupabaseClient.calls after))).

End RoundTripSpec.

(** Tables for concrete runs of the mappers. *)

Module MapperDemo.
Import Polars.

(** Five plays, one id twice and two ids missing. *)
Definition raw_plays : DataFrame :=
  [("play_id", Int64 [Some 1%Z; Some 2%Z; Some 1%Z; None; None]);
   ("desc", Utf8 [Some "kickoff"; Some "pass"; Some "kickoff"; None; None]);
   ("down", Float64 [None; Some (S754_finite false 1 0); None; None; None])].

(** Two players with their dates of birth, one without an id. *)
Definition dated_players : DataFrame :=
  [("gsis_id", Utf8 [Some "00-0033873"; None]);
   ("player_id", Utf8 [Some "stale"; Some "stale"]);
   ("display_name", Utf8 [Some "Patrick Mahomes"; Some "Unknown"]);
   ("birth_date", Utf8 [Some "1995-09-17"; Some "1989-10-05"])].

End MapperDemo.

(* ================================================================= *)
(** * Properties *)

(** Comparisons of column names are decided by rewriting or by
    evaluation, not unfolded character by character. *)
#[local] Arguments String.eqb : simpl never.

(** ** Facts about slices and ranges *)

Section Slices.
Context {A : Type}.

Lemma py_slice_length (l : list A) (i k : nat) :
  length (py_slice l i (i + k)) = Nat.min k (length l - i).
Proof.
  unfold py_slice. replace (i + k - i) with k by lia.
  rewrite length_firstn, length_skipn. reflexivity.
Qed.

Lemma skipn_add (l : list A) (i k : nat) :
  skipn (i + k) l = skipn k (skipn i l).
Proof.
  revert l. induction i as [|i IH]; intros l; simpl; [reflexivity|].
  destruct l as [|x l]; simpl; [now rewrite skipn_nil | apply IH].
Qed.

(** The first [m] chunks of size [k] put end to end are the first
    [m * k] elements. *)
Lemma chunks_concat (l : list A) (k m : nat) :
  concat (map (fun n => py_slice l (n * k) (n * k + k)) (seq 0 m))
  = firstn (m * k) l.
Proof.
  induction m as [|m IH]; [reflexivity|].
  rewrite seq_S, map_app, concat_app, IH. simpl.
  rewrite app_nil_r. unfold py_slice.
  replace (m * k + k - m * k) with k by lia.
  replace (k + m * k) with (m * k + k) by lia.
  rewrite <- (firstn_skipn (m * k) (firstn (m * k + k) l)).
  f_equal.
  - rewrite firstn_firstn. f_equal. lia.
  - rewrite skipn_firstn_comm. f_equal. lia.
Qed.

End Slices.

Lemma range_chunks_cover (stop k : nat) :
  1 <= k -> stop <= ((stop + k - 1) / k) * k.
Proof.
  intros Hk.
  pose proof (Nat.div_mod_eq (stop + k - 1) k) as E.
  pose proof (Nat.mod_upper_bound (stop + k - 1) k ltac:(lia)) as B.
  nia.
Qed.

Lemma range_offsets_below (stop k n : nat) :
  1 <= k -> n < (stop + k - 1) / k -> n * k < stop.
Proof.
  intros Hk Hn.
  pose proof (Nat.div_mod_eq (stop + k - 1) k) as E.
  pose proof (Nat.mod_upper_bound (stop + k - 1) k ltac:(lia)) as B.
  nia.
Qed.

(** ** The batch uploader *)

Section UploaderFacts.
Import SupabaseClient UploadSpec.

Variable World : Type.
Variable respond : World -> WriteRequest -> World * option string.

Lemma answers_length (qs : list WriteRequest) (w : World) :
  length (answers respond w qs) = length qs.
Proof.
  revert w. induction qs as [|q qs IH]; intros w; simpl; [reflexivity|].
  destruct (respond w q) as [w' a]. simpl. now rewrite IH.
Qed.

(** What the loop leaves behind, for any list of offsets. *)
Lemma upload_loop (records : list Record) (t : string) (k : nat)
    (upsert : bool) (offs : list nat) (st : UploadState World) :
  let qs := map (fun i => mkWrite upsert t (chunk records k i)) offs in
  let ans := answers respond (world (remote st)) qs in
  let st' := fold_left (upload_batch respond records t k upsert) offs st in
  calls (remote st') = calls (remote st) ++ qs
  /\ up_uploaded st'
     = up_uploaded st
       + accepted_rows (map (fun i => length (chunk records k i)) offs) ans
  /\ up_errors st' = up_errors st ++ failures offs ans.
Proof.
  revert st. induction offs as [|i offs IH]; intros st; simpl.
  - now rewrite !app_nil_r, Nat.add_0_r.
  - unfold upload_batch at 2 4 6. unfold execute. fold (chunk records k i).
    destruct (respond (world (remote st))
                      (mkWrite upsert t (chunk records k i))) as [w' a] eqn:E.
    destruct a as [msg|]; simpl;
      match goal with
      | |- context [fold_left _ offs ?s] => specialize (IH s)
      end; simpl in IH; destruct IH as (Hc & Hu & He);
      rewrite Hc, Hu, He, <- !app_assoc; simpl; repeat split; lia.
Qed.

Lemma accepted_plus_failed (f : nat -> nat) (offs : list nat)
    (ans : list (option string)) :
  length ans = length offs ->
  accepted_rows (map f offs) ans
  + list_sum (map (fun e => f (batch e)) (failures offs ans))
  = list_sum (map f offs).
Proof.
  revert ans. induction offs as [|i offs IH]; intros [|a ans] H;
    simpl in *; try discriminate; [reflexivity|].
  injection H as H. specialize (IH _ H).
  destruct a; simpl; lia.
Qed.

Lemma failures_length (offs : list nat) (ans : list (option string)) :
  length ans = length offs ->
  length (failures offs ans)
  = length (filter (fun a => match a with Some _ => true | None => false end) ans).
Proof.
  revert ans. induction offs as [|i offs IH]; intros [|a ans] H;
    simpl in *; try discriminate; [reflexivity|].
  injection H as H. destruct a; simpl; now rewrite IH.
Qed.

End UploaderFacts.

Lemma failures_in_offsets (offs : list nat) (ans : list (option string)) :
  Forall (fun e => In (SupabaseClient.batch e) offs)
         (UploadSpec.failures offs ans).
Proof.
  revert ans. induction offs as [|i offs IH]; intros [|a ans]; simpl;
    try constructor.
  assert (IH' : Forall (fun e => i = SupabaseClient.batch e
                                 \/ In (SupabaseClient.batch e) offs)
                       (UploadSpec.failures offs ans)).
  { eapply Forall_impl; [|exact (IH ans)]. intros e He. now right. }
  destruct a; [constructor; [now left | exact IH'] | exact IH'].
Qed.

Lemma list_sum_lengths {A : Type} (ls : list (list A)) :
  list_sum (map (@length A) ls) = length (concat ls).
Proof.
  induction ls as [|l ls IH]; simpl; [reflexivity|].
  now rewrite length_app, IH.
Qed.

Lemma to_dicts_length (df : Polars.DataFrame) :
  length (Polars.to_dicts df) = Polars.height df.
Proof. unfold Polars.to_dicts. now rewrite length_map, length_seq. Qed.

Section UploaderTheorems.
Import SupabaseClient UploadSpec.

Lemma py_range0_positive (stop : nat) (step : Z) :
  (1 <= step)%Z ->
  py_range0 stop step = Ok (chunk_offsets stop (Z.to_nat step)).
Proof.
  intros H. unfold py_range0.
  destruct (Z.eqb_spec step 0) as [->|_]; [lia|].
  destruct (Z.ltb_spec step 0); [lia | reflexivity].
Qed.

Lemma chunks_partition {A : Type} (l : list A) (k : nat) :
  1 <= k ->
  concat (map (fun i => py_slice l i (i + k)) (chunk_offsets (length l) k)) = l.
Proof.
  intros Hk. unfold chunk_offsets. rewrite map_map, chunks_concat.
  apply firstn_all2. now apply range_chunks_cover.
Qed.

Lemma upload_dataframe_runs (World : Type)
    (respond : World -> WriteRequest -> World * option string)
    (r : Remote World) (df : Polars.DataFrame) (t : string)
    (batch_size : Z) (upsert : bool) :
  (1 <= batch_size)%Z ->
  let k := Z.to_nat batch_size in
  let records := Polars.to_dicts df in
  let offs := chunk_offsets (Polars.height df) k in
  let ans := answers respond (world r) (chunk_writes records t k upsert offs) in
  exists r',
    upload_dataframe respond r df t batch_size upsert
    = Ok (r', mkSummary (Polars.height df)
                (accepted_rows (map (fun i => length (chunk records k i)) offs) ans)
                (length (failures offs ans)) (failures offs ans))
    /\ calls r' = calls r ++ chunk_writes records t k upsert offs.
Proof.
  intros H k records offs ans. unfold upload_dataframe.
  rewrite (py_range0_positive _ _ H). simpl.
  destruct (upload_loop World respond records t k upsert offs (mkUpload r 0 []))
    as (Hc & Hu & He).
  simpl in Hc, Hu, He. fold k records offs.
  eexists. split; [|exact Hc].
  rewrite Hu, He. reflexivity.
Qed.

(** C1. With a batch size of at least one, [upload_dataframe] returns a
    summary in which the uploaded rows and the rows of the failed chunks
    add up to [total_rows], the height of the input, whatever the store
    answers; the chunks are the consecutive runs of at most [batch_size]
    rows that start at the multiples of [batch_size] and together they
    are the rows in their original order.  For 2,500 rows in chunks of
    1,000 of which the store rejects exactly the second, the summary
    has [uploaded = 1500] and [errors = 1]. *)
Theorem upload_accounting (World : Type)
    (respond : World -> WriteRequest -> World * option string)
    (r : Remote World) (df : Polars.DataFrame) (t : string)
    (batch_size : Z) (upsert : bool) :
  (1 <= batch_size)%Z ->
  let k := Z.to_nat batch_size in
  let records := Polars.to_dicts df in
  let offs := chunk_offsets (Polars.height df) k in
  exists r' s,
    upload_dataframe respond r df t batch_size upsert = Ok (r', s)
    /\ total_rows s = Polars.height df
    /\ concat (map (chunk records k) offs) = records
    /\ Forall (fun i => 1 <= length (chunk records k i) <= k) offs
    /\ Forall (fun e => In (batch e) offs) (error_details s)
    /\ uploaded s
       + list_sum (map (fun e => length (chunk records k (batch e)))
                       (error_details s))
       = total_rows s
    /\ (Polars.height df = 2500 -> batch_size = 1000%Z ->
        forall msg,
          answers respond (world r) (chunk_writes records t k upsert offs)
          = [None; Some msg; None] ->
          uploaded s = 1500 /\ errors s = 1).
Proof.
  intros H k records offs.
  assert (Hk : 1 <= k) by (unfold k; lia).
  destruct (upload_dataframe_runs World respond r df t batch_size upsert H)
    as (r' & Hrun & _).
  fold k records offs in Hrun.
  set (ans := answers respond (world r) (chunk_writes records t k upsert offs))
    in *.
  assert (Hlen : length ans = length offs).
  { unfold ans. rewrite answers_length. unfold chunk_writes.
    now rewrite length_map. }
  assert (Hpart : concat (map (chunk records k) offs) = records).
  { unfold offs. rewrite <- to_dicts_length. now apply chunks_partition. }
  eexists _, _. split; [exact Hrun|]. simpl.
  split; [reflexivity|]. split; [exact Hpart|]. split; [|split; [|split]].
  - apply Forall_forall. intros i Hi. unfold offs, chunk_offsets in Hi.
    apply in_map_iff in Hi. destruct Hi as (n & <- & Hn).
    apply in_seq in Hn.
    pose proof (range_offsets_below (Polars.height df) k n Hk ltac:(lia)) as B.
    unfold chunk. rewrite py_slice_length. fold records.
    unfold records at 1 2. rewrite to_dicts_length. lia.
  - apply failures_in_offsets.
  - rewrite (accepted_plus_failed (fun i => length (chunk records k i))
               offs ans Hlen).
    rewrite <- map_map, list_sum_lengths, Hpart.
    apply to_dicts_length.
  - intros Hh Hb msg Hans.
    assert (Ek : k = 1000) by (unfold k; rewrite Hb; reflexivity).
    assert (Eo : offs = [0; 1000; 2000]).
    { unfold offs. rewrite Hh, Ek. reflexivity. }
    rewrite Hans, Eo. simpl. unfold chunk.
    rewrite !py_slice_length. fold records. unfold records.
    rewrite to_dicts_length, Hh, Ek. split; reflexivity.
Qed.

Lemma failures_spec (offs : list nat) (ans : list (option string))
    (i : nat) (msg : string) :
  In (mkErrorDetail i msg) (failures offs ans)
  <-> In (i, Some msg) (combine offs ans).
Proof.
  revert ans. induction offs as [|j offs IH]; intros [|a ans]; simpl;
    try tauto.
  destruct a as [m|]; simpl; rewrite IH.
  - split; intros [E|E]; auto; left; now injection E as -> ->.
  - split; [now right | intros [E|E]; [discriminate | exact E]].
Qed.

(** C2. A chunk whose write raises does not stop the run: with a batch
    size of at least one, the store receives one write per chunk, in the
    order of the offsets and nothing else, whatever it answers;
    [error_details] holds, in order, the start offset and the message of
    each chunk whose write raised, and [errors] is the number of those
    chunks. *)
Theorem upload_attempts_every_chunk (World : Type)
    (respond : World -> WriteRequest -> World * option string)
    (r : Remote World) (df : Polars.DataFrame) (t : string)
    (batch_size : Z) (upsert : bool) :
  (1 <= batch_size)%Z ->
  let k := Z.to_nat batch_size in
  let records := Polars.to_dicts df in
  let offs := chunk_offsets (Polars.height df) k in
  let writes := chunk_writes records t k upsert offs in
  let ans := answers respond (world r) writes in
  exists r' s,
    upload_dataframe respond r df t batch_size upsert = Ok (r', s)
    /\ calls r' = calls r ++ writes
    /\ length writes = length offs
    /\ length ans = length offs
    /\ error_details s = failures offs ans
    /\ (forall i msg,
          In (mkErrorDetail i msg) (error_details s)
          <-> In (i, Some msg) (combine offs ans))
    /\ errors s = length (filter is_failure ans).
Proof.
  intros H k records offs writes ans.
  destruct (upload_dataframe_runs World respond r df t batch_size upsert H)
    as (r' & Hrun & Hcalls).
  fold k records offs writes ans in Hrun, Hcalls.
  assert (Hw : length writes = length offs)
    by (unfold writes, chunk_writes; now rewrite length_map).
  assert (Ha : length ans = length offs)
    by (unfold ans; now rewrite answers_length).
  eexists _, _. split; [exact Hrun|]. simpl.
  repeat split; auto.
  - now apply failures_spec.
  - now apply failures_spec.
  - now apply failures_length.
Qed.

End UploaderTheorems.

Lemma upload_accounting_witness :
  (1 <= 1000)%Z
  /\ exists r' s,
       SupabaseClient.upload_dataframe UploadDemo.demo_respond
         UploadDemo.demo_remote UploadDemo.demo_df "play_by_play" 1000 true
       = Ok (r', s)
       /\ SupabaseClient.total_rows s = 2500
       /\ SupabaseClient.uploaded s = 1500
       /\ SupabaseClient.errors s = 1.
Proof.
  assert (H : (1 <= 1000)%Z) by lia.
  split; [exact H|].
  destruct (upload_accounting nat UploadDemo.demo_respond
              UploadDemo.demo_remote UploadDemo.demo_df "play_by_play"
              1000 true H)
    as (r' & s & Hrun & Htot & _ & _ & _ & _ & Hscen).
  exists r', s. split; [exact Hrun|]. split; [exact Htot|].
  apply (Hscen eq_refl eq_refl "timeout"). vm_compute. reflexivity.
Defined.

Lemma upload_attempts_every_chunk_witness :
  (1 <= 1000)%Z
  /\ exists r' s,
       SupabaseClient.upload_dataframe UploadDemo.demo_respond
         UploadDemo.demo_remote UploadDemo.demo_df "play_by_play" 1000 true
       = Ok (r', s)
       /\ length (SupabaseClient.calls r') = 3
       /\ SupabaseClient.error_details s
          = [SupabaseClient.mkErrorDetail 1000 "timeout"]
       /\ SupabaseClient.errors s = 1.
Proof.
  assert (H : (1 <= 1000)%Z) by lia.
  split; [exact H|].
  destruct (upload_attempts_every_chunk nat UploadDemo.demo_respond
              UploadDemo.demo_remote UploadDemo.demo_df "play_by_play"
              1000 true H)
    as (r' & s & Hrun & Hcalls & _ & _ & Hdet & _ & Herr).
  exists r', s. split; [exact Hrun|].
  rewrite Hcalls, Hdet, Herr. vm_compute. repeat split.
Defined.

(** ** Frames: columns, lookups and names *)

Lemma Ok_inj {A : Type} (a b : A) : Ok a = Ok b -> a = b.
Proof. intros H. now injection H. Qed.

Lemma Some_inj {A : Type} (a b : A) : Some a = Some b -> a = b.
Proof. intros H. now injection H. Qed.

Lemma bind_ok {A B : Type} (r : result A) (k : A -> result B) (b : B) :
  bind r k = Ok b -> exists a, r = Ok a /\ k a = Ok b.
Proof. destruct r as [a|e]; [eauto | discriminate]. Qed.

Section FrameFacts.
Import Polars MapperSpec.

Lemma has_column_mem (df : DataFrame) (c : string) :
  has_column df c = mem c (columns df).
Proof. reflexivity. Qed.

Lemma mem_In (c : string) (names : list string) :
  mem c names = true <-> In c names.
Proof.
  unfold mem. rewrite existsb_exists. split.
  - intros (x & Hx & E). apply String.eqb_eq in E. now subst.
  - intros H. exists c. split; [exact H | apply String.eqb_refl].
Qed.

Lemma mem_false (c : string) (names : list string) :
  mem c names = false <-> ~ In c names.
Proof.
  rewrite <- mem_In. destruct (mem c names); split; congruence.
Qed.

Lemma lookup_some_mem (df : DataFrame) (c : string) :
  has_column df c = true <-> exists s, lookup c df = Some s.
Proof.
  unfold has_column, columns.
  induction df as [|[n s] df IH]; simpl.
  - split; [discriminate | intros (s & H); discriminate].
  - destruct (String.eqb c n); simpl; [|exact IH].
    split; [eauto | reflexivity].
Qed.

Lemma lookup_none_mem (df : DataFrame) (c : string) :
  has_column df c = false <-> lookup c df = None.
Proof.
  pose proof (lookup_some_mem df c) as H.
  destruct (has_column df c), (lookup c df) as [s|]; split; try congruence.
  - intros _. destruct H as [H _]. destruct (H eq_refl); discriminate.
  - intros _. destruct H as [_ H]. enough (false = true) by discriminate.
    apply H. eauto.
Qed.

Lemma select_columns (df : DataFrame) (names : list string) :
  (forall c, In c names -> has_column df c = true) ->
  columns (select df names) = names.
Proof.
  unfold select, columns.
  induction names as [|c names IH]; intros H; simpl; [reflexivity|].
  destruct (proj1 (lookup_some_mem df c) (H c (or_introl eq_refl))) as (s & ->).
  simpl. f_equal. apply IH. intros c' Hc'. apply H. now right.
Qed.

Lemma select_available_columns (df : DataFrame) (schema : list string) :
  columns (select df (available schema df)) = intersection (columns df) schema.
Proof.
  rewrite select_columns; [reflexivity|].
  intros c Hc. unfold available in Hc. now apply filter_In in Hc.
Qed.

Lemma with_column_columns (df : DataFrame) (c : string) (s : Series) :
  columns (with_column df c s) = with_name (columns df) c.
Proof.
  unfold with_column, with_name. rewrite <- has_column_mem.
  destruct (has_column df c).
  - unfold columns. rewrite map_map. apply map_ext_in.
    intros [n x] _. simpl. destruct (String.eqb_spec c n); simpl; congruence.
  - unfold columns. now rewrite map_app.
Qed.

Lemma with_column_same_columns (df : DataFrame) (c : string) (s : Series) :
  has_column df c = true -> columns (with_column df c s) = columns df.
Proof.
  intros H. rewrite with_column_columns. unfold with_name.
  now rewrite <- has_column_mem, H.
Qed.

Lemma cast_int_columns_columns (E : Engine) (cols : list string)
    (df : DataFrame) :
  columns (cast_int_columns E cols df) = columns df.
Proof.
  unfold cast_int_columns. revert df.
  induction cols as [|c cols IH]; intros df; simpl; [reflexivity|].
  rewrite IH. destruct (has_column df c) eqn:H; [|reflexivity].
  destruct (lookup c df); [|reflexivity].
  now apply with_column_same_columns.
Qed.

Lemma filter_columns (df : DataFrame) (mask : list bool) :
  columns (Polars.filter df mask) = columns df.
Proof. unfold Polars.filter, columns. rewrite map_map. reflexivity. Qed.

Lemma filter_not_null_columns (df : DataFrame) (c : string) :
  columns (filter_not_null df c) = columns df.
Proof.
  unfold filter_not_null. destruct (lookup c df); [|reflexivity].
  apply filter_columns.
Qed.

Lemma take_rows_columns (idx : list nat) (df : DataFrame) :
  columns (take_rows idx df) = columns df.
Proof. unfold take_rows, columns. rewrite map_map. reflexivity. Qed.

Lemma unique_keep_first_columns (E : Engine) (df : DataFrame) (c : string) :
  columns (unique_keep_first E df c) = columns df.
Proof.
  unfold unique_keep_first. destruct (lookup c df); [|reflexivity].
  apply take_rows_columns.
Qed.

Lemma renamed_frame_columns (df : DataFrame) (mapping : list (string * string)) :
  columns (map (fun col => (rename_name mapping (fst col), snd col)) df)
  = renamed mapping (columns df).
Proof. unfold columns, renamed. now rewrite !map_map. Qed.

Lemma rename_columns (df df' : DataFrame) (mapping : list (string * string)) :
  rename df mapping = Ok df' ->
  columns df' = renamed mapping (columns df).
Proof.
  unfold rename. destruct (first_duplicate _); [discriminate|].
  intros H. injection H as <-. unfold columns, renamed.
  now rewrite !map_map.
Qed.

Lemma rename_name_other (src dst c : string) :
  c <> src -> rename_name [(src, dst)] c = c.
Proof.
  intros H. unfold rename_name. cbn [find fst snd].
  destruct (String.eqb_spec src c); [congruence | reflexivity].
Qed.

Lemma renamed_nil (names : list string) : renamed [] names = names.
Proof. unfold renamed. apply map_id. Qed.

Lemma rename_name_skip (m1 m2 : list (string * string)) (src dst n : string) :
  n <> src ->
  rename_name (m1 ++ (src, dst) :: m2) n = rename_name (m1 ++ m2) n.
Proof.
  intros H. unfold rename_name.
  induction m1 as [|[a b] m1 IH]; simpl.
  - destruct (String.eqb_spec src n); [congruence | reflexivity].
  - destruct (String.eqb a n); [reflexivity | exact IH].
Qed.

(** A mapping entry whose source is not a column changes nothing. *)
Lemma renamed_skip (m1 m2 : list (string * string)) (src dst : string)
    (names : list string) :
  mem src names = false ->
  renamed (m1 ++ (src, dst) :: m2) names = renamed (m1 ++ m2) names.
Proof.
  intros H. unfold renamed. apply map_ext_in. intros n Hn.
  apply rename_name_skip. intros ->. apply mem_In in Hn. congruence.
Qed.

End FrameFacts.

(** ** The schema mapper: which columns come out *)

Section MapperColumns.
Import Polars MapperSpec.

Variable E : Engine.

Lemma pbp_columns (df : DataFrame) :
  columns (PlayByPlayLoader.prepare_for_upload E df)
  = intersection (columns df) PlayByPlayLoader.key_columns.
Proof.
  unfold PlayByPlayLoader.prepare_for_upload.
  destruct (has_column _ "play_id");
    rewrite ?unique_keep_first_columns, cast_int_columns_columns;
    apply select_available_columns.
Qed.

Lemma filter_if_columns (df : DataFrame) (c : string) :
  columns (if has_column df c then filter_not_null df c else df) = columns df.
Proof.
  destruct (has_column df c); [apply filter_not_null_columns | reflexivity].
Qed.

Lemma player_stats_columns_ok (df out : DataFrame) :
  PlayerStatsLoader.prepare_for_upload E df = Ok out ->
  columns out
  = intersection (player_stats_columns (columns df))
                 PlayerStatsLoader.schema_columns.
Proof.
  unfold PlayerStatsLoader.prepare_for_upload, player_stats_columns.
  set (df1 := if has_column df "player_id" then _ else df).
  assert (E1 : columns df1 = columns df) by apply filter_if_columns.
  rewrite !has_column_mem, E1.
  destruct (mem "passing_interceptions" (columns df)
            && negb (mem "interceptions" (columns df))); cbn [bind].
  - destruct (rename df1 _) as [df2|] eqn:R; cbn [bind]; [|discriminate].
    intros H. apply Ok_inj in H. subst out.
    rewrite cast_int_columns_columns, select_available_columns.
    now rewrite (rename_columns _ _ _ R), E1.
  - intros H. apply Ok_inj in H. subst out.
    now rewrite cast_int_columns_columns, select_available_columns, E1.
Qed.

Lemma rename_if_columns (df df' : DataFrame) (src dst : string) :
  (if has_column df src then rename df [(src, dst)] else Ok df) = Ok df' ->
  columns df' = renamed [(src, dst)] (columns df).
Proof.
  destruct (has_column df src) eqn:H.
  - apply rename_columns.
  - intros H'. apply Ok_inj in H'. subst df'.
    rewrite has_column_mem in H.
    etransitivity; [|symmetry; exact (renamed_skip [] [] _ _ _ H)].
    symmetry. apply renamed_nil.
Qed.

Lemma with_column_if_columns (df : DataFrame) (c : string)
    (f : Series -> Series) :
  columns (match lookup c df with
           | Some s => with_column df c (f s)
           | None => df
           end) = columns df.
Proof.
  destruct (lookup c df) eqn:L; [|reflexivity].
  apply with_column_same_columns. apply lookup_some_mem. eauto.
Qed.

Lemma player_info_columns_ok (df out : DataFrame) :
  PlayerStatsLoader.prepare_player_info_for_upload E df = Ok out ->
  columns out
  = intersection (player_info_columns (columns df))
                 PlayerStatsLoader.info_schema_columns.
Proof.
  unfold PlayerStatsLoader.prepare_player_info_for_upload, player_info_columns.
  set (df1 := if has_column df "gsis_id" then _ else df).
  assert (E1 : columns df1 = columns df) by apply filter_if_columns.
  set (df2 := match lookup "gsis_id" df1 with Some s => _ | None => df1 end).
  assert (E2 : columns df2
               = if mem "gsis_id" (columns df)
                 then with_name (columns df) "player_id" else columns df).
  { unfold df2. rewrite <- E1, <- has_column_mem.
    destruct (lookup "gsis_id" df1) eqn:L.
    - rewrite (proj2 (lookup_some_mem df1 "gsis_id")) by eauto.
      apply with_column_columns.
    - now rewrite (proj2 (lookup_none_mem df1 "gsis_id")). }
  destruct (if has_column df2 "display_name" then _ else Ok df2)
    as [df3|] eqn:R; cbn [bind]; [|discriminate].
  intros H. apply Ok_inj in H. subst out.
  rewrite with_column_if_columns, cast_int_columns_columns,
    select_available_columns.
  now rewrite (rename_if_columns _ _ _ _ R), E2.
Qed.

Lemma rosters_columns_ok (df out : DataFrame) :
  TeamDataLoader.prepare_rosters E df = Ok out ->
  columns out
  = intersection (rosters_columns (columns df))
                 TeamDataLoader.rosters_schema_columns.
Proof.
  unfold TeamDataLoader.prepare_rosters, rosters_columns.
  set (df1 := if has_column df "gsis_id" then _ else df).
  assert (E1 : columns df1 = columns df) by apply filter_if_columns.
  set (df2 := match lookup "birth_date" df1 with Some s => _ | None => df1 end).
  assert (E2 : columns df2 = columns df).
  { unfold df2. now rewrite with_column_if_columns. }
  set (m := _ ++ _).
  assert (Em : renamed m (columns df)
               = renamed [("gsis_id", "player_id"); ("full_name", "player_name")]
                         (columns df)).
  { unfold m. rewrite !has_column_mem, E2.
    destruct (mem "gsis_id" (columns df)) eqn:G,
             (mem "full_name" (columns df)) eqn:F; cbn [app].
    - reflexivity.
    - symmetry. exact (renamed_skip [_] [] _ _ _ F).
    - symmetry. exact (renamed_skip [] [_] _ _ _ G).
    - symmetry. etransitivity; [exact (renamed_skip [] [_] _ _ _ G)|].
      exact (renamed_skip [] [] _ _ _ F). }
  destruct m as [|x m'] eqn:M.
  - cbn [bind]. intros H. apply Ok_inj in H. subst out.
    rewrite cast_int_columns_columns, select_available_columns, E2.
    rewrite renamed_nil in Em. now rewrite <- Em.
  - destruct (rename df2 (x :: m')) as [df3|] eqn:R; cbn [bind]; [|discriminate].
    intros H. apply Ok_inj in H. subst out.
    rewrite cast_int_columns_columns, select_available_columns.
    now rewrite (rename_columns _ _ _ R), E2, Em.
Qed.

Lemma info_columns_ok (df out : DataFrame) :
  TeamDataLoader.prepare_info df = Ok out ->
  columns out = intersection (columns df) TeamDataLoader.info_schema_columns.
Proof.
  unfold TeamDataLoader.prepare_info. intros H. apply Ok_inj in H. subst out.
  apply select_available_columns.
Qed.

Lemma total_yards_step_columns (df df1 : DataFrame) :
  match lookup "passing_yards" df, lookup "rushing_yards" df with
  | Some p, Some r =>
      p0 <- fill_null_zero E p ;;
      r0 <- fill_null_zero E r ;;
      total <- add E p0 r0 ;;
      Ok (with_column df "total_yards" total)
  | _, _ => Ok df
  end = Ok df1 ->
  columns df1
  = if mem "passing_yards" (columns df) && mem "rushing_yards" (columns df)
    then with_name (columns df) "total_yards" else columns df.
Proof.
  rewrite <- !has_column_mem.
  destruct (lookup "passing_yards" df) as [p|] eqn:LP.
  - rewrite (proj2 (lookup_some_mem df "passing_yards")) by eauto.
    destruct (lookup "rushing_yards" df) as [r|] eqn:LR.
    + rewrite (proj2 (lookup_some_mem df "rushing_yards")) by eauto.
      intros H.
      apply bind_ok in H as (p0 & _ & H).
      apply bind_ok in H as (r0 & _ & H).
      apply bind_ok in H as (total & _ & H).
      apply Ok_inj in H. subst df1. apply with_column_columns.
    + rewrite (proj2 (lookup_none_mem df "rushing_yards")) by assumption.
      intros H. apply Ok_inj in H. now subst df1.
  - rewrite (proj2 (lookup_none_mem df "passing_yards")) by assumption.
    intros H. apply Ok_inj in H. now subst df1.
Qed.

Lemma turnover_cols_nil (df : DataFrame) (sources : list string)
    (cols : list Series) :
  TeamDataLoader.turnover_cols E df sources = Ok cols ->
  (cols = [] <-> existsb (fun c => mem c (columns df)) sources = false).
Proof.
  revert cols. induction sources as [|c sources IH]; intros cols; simpl.
  - intros H. apply Ok_inj in H. subst cols. tauto.
  - rewrite <- has_column_mem.
    destruct (lookup c df) as [s|] eqn:L.
    + rewrite (proj2 (lookup_some_mem df c)) by eauto.
      intros H.
      apply bind_ok in H as (s0 & _ & H).
      apply bind_ok in H as (rest & _ & H).
      apply Ok_inj in H. subst cols. split; discriminate.
    + rewrite (proj2 (lookup_none_mem df c)) by assumption.
      apply IH.
Qed.

Lemma turnovers_step_columns (df df2 : DataFrame) (cols : list Series) :
  TeamDataLoader.turnover_cols E df TeamDataLoader.turnover_sources = Ok cols ->
  match cols with
  | [] => Ok df
  | _ =>
      turnovers <- sum_horizontal E cols ;;
      Ok (with_column df "turnovers" turnovers)
  end = Ok df2 ->
  columns df2
  = if existsb (fun c => mem c (columns df)) TeamDataLoader.turnover_sources
    then with_name (columns df) "turnovers" else columns df.
Proof.
  intros Hc. apply turnover_cols_nil in Hc.
  destruct cols as [|c cols].
  - rewrite (proj1 Hc eq_refl). intros H. apply Ok_inj in H. now subst.
  - destruct (existsb _ _).
    + intros H. apply bind_ok in H as (t & _ & H).
      apply Ok_inj in H. subst df2. apply with_column_columns.
    + destruct Hc as [_ Hc]. discriminate (Hc eq_refl).
Qed.

Lemma stats_columns_ok (df out : DataFrame) :
  TeamDataLoader.prepare_stats E df = Ok out ->
  columns out
  = intersection (stats_columns (columns df))
                 TeamDataLoader.stats_schema_columns.
Proof.
  unfold TeamDataLoader.prepare_stats. intros H.
  apply bind_ok in H as (df1 & H1 & H).
  apply bind_ok in H as (cols & Hc & H).
  apply bind_ok in H as (df2 & H2 & H).
  apply bind_ok in H as (df3 & H3 & H).
  apply bind_ok in H as (df4 & H4 & H).
  apply Ok_inj in H. subst out.
  rewrite cast_int_columns_columns, select_available_columns.
  rewrite (rename_if_columns _ _ _ _ H4), (rename_if_columns _ _ _ _ H3).
  rewrite (turnovers_step_columns _ _ _ Hc H2).
  rewrite (total_yards_step_columns _ _ H1).
  reflexivity.
Qed.

Lemma first_repeated_none (seen names : list string) :
  first_repeated seen names = None
  <-> NoDup names /\ (forall n, In n names -> ~ In n seen).
Proof.
  revert seen. induction names as [|n names IH]; intros seen; simpl.
  - split; [split; [constructor | tauto] | reflexivity].
  - fold (mem n seen). destruct (mem n seen) eqn:M.
    + split; [discriminate|]. intros [_ H]. apply mem_In in M.
      exfalso. apply (H n); auto.
    + rewrite IH. apply mem_false in M. split.
      * intros [N H]. split.
        -- constructor; [|exact N]. intros Hin. apply (H n Hin). now left.
        -- intros x [<-|Hx]; [exact M|]. intros Hs. apply (H x Hx). now right.
      * intros [N H]. inversion N as [|? ? Hn N']; subst. split; [exact N'|].
        intros x Hx [<-|Hs]; [contradiction|]. apply (H x); auto.
Qed.

Lemma first_duplicate_none (names : list string) :
  first_duplicate names = None <-> NoDup names.
Proof.
  unfold first_duplicate. rewrite first_repeated_none. split.
  - tauto.
  - intros N. split; [exact N|]. intros n _ [].
Qed.

Lemma intersection_NoDup (names schema : list string) :
  NoDup schema -> NoDup (intersection names schema).
Proof. apply NoDup_filter. Qed.

Lemma intersection_In (names schema : list string) (c : string) :
  In c (intersection names schema) <-> In c names /\ In c schema.
Proof.
  unfold intersection. rewrite filter_In, mem_In. tauto.
Qed.

Lemma schedules_schema_NoDup : NoDup TeamDataLoader.schedules_schema_columns.
Proof. apply first_duplicate_none. vm_compute. reflexivity. Qed.

(** The schedules branch never raises, and it renames after it has
    selected. *)
Lemma schedules_columns_ok (df : DataFrame) :
  exists out,
    TeamDataLoader.prepare_schedules E df = Ok out
    /\ columns out
       = renamed [("gameday", "game_date")]
                 (intersection (columns df)
                               TeamDataLoader.schedules_schema_columns).
Proof.
  unfold TeamDataLoader.prepare_schedules.
  set (df1 := select df _).
  assert (E1 : columns df1
               = intersection (columns df)
                              TeamDataLoader.schedules_schema_columns)
    by apply select_available_columns.
  destruct (has_column df1 "gameday") eqn:G.
  - unfold rename.
    destruct (first_duplicate _) as [d|] eqn:D.
    + exfalso.
      assert (N : ~ NoDup (columns (map (fun col =>
                    (rename_name [("gameday", "game_date")] (fst col), snd col))
                    df1))).
      { intros N. apply first_duplicate_none in N. congruence. }
      apply N. rewrite renamed_frame_columns, E1. unfold renamed.
      apply Finite.Injective_map_NoDup_in;
        [|apply intersection_NoDup, schedules_schema_NoDup].
      intros a b Ha Hb. apply intersection_In in Ha, Hb.
      destruct Ha as [_ Ha], Hb as [_ Hb].
      clear - Ha Hb. unfold TeamDataLoader.schedules_schema_columns in Ha, Hb.
      cbn [In] in Ha, Hb.
      repeat (destruct Ha as [<-|Ha]; [|]); try contradiction;
        repeat (destruct Hb as [<-|Hb]; [|]); try contradiction;
        vm_compute; intros X; try reflexivity; discriminate X.
    + cbn [bind]. eexists. split; [reflexivity|].
      now rewrite cast_int_columns_columns, renamed_frame_columns, E1.
  - cbn [bind]. eexists. split; [reflexivity|].
    rewrite cast_int_columns_columns, E1.
    rewrite has_column_mem, E1 in G.
    etransitivity; [|symmetry; exact (renamed_skip [] [] _ _ _ G)].
    symmetry. apply renamed_nil.
Qed.

End MapperColumns.

Section Dispatch.
Import Polars.
Variable E : Engine.
Variable df : DataFrame.

Lemma dispatch_schedules :
  TeamDataLoader.prepare_for_upload E df "schedules"
  = TeamDataLoader.prepare_schedules E df.
Proof. reflexivity. Qed.

Lemma dispatch_rosters :
  TeamDataLoader.prepare_for_upload E df "rosters"
  = TeamDataLoader.prepare_rosters E df.
Proof. reflexivity. Qed.

Lemma dispatch_info :
  TeamDataLoader.prepare_for_upload E df "info"
  = TeamDataLoader.prepare_info df.
Proof. reflexivity. Qed.

Lemma dispatch_stats :
  TeamDataLoader.prepare_for_upload E df "stats"
  = TeamDataLoader.prepare_stats E df.
Proof. reflexivity. Qed.

End Dispatch.

Section MapperTheorems.
Import Polars MapperSpec.

(** C10. With a [data_type] other than "stats", "rosters", "schedules"
    and "info", [TeamDataLoader.prepare_for_upload] returns the table it
    was given, unchanged. *)
Theorem unknown_data_type_is_identity (E : Engine) (df : DataFrame)
    (data_type : string) :
  data_type <> "stats" -> data_type <> "rosters" ->
  data_type <> "schedules" -> data_type <> "info" ->
  TeamDataLoader.prepare_for_upload E df data_type = Ok df.
Proof.
  intros H1 H2 H3 H4. unfold TeamDataLoader.prepare_for_upload.
  destruct (String.eqb_spec data_type "schedules"); [contradiction|].
  destruct (String.eqb_spec data_type "rosters"); [contradiction|].
  destruct (String.eqb_spec data_type "info"); [contradiction|].
  destruct (String.eqb_spec data_type "stats"); [contradiction|].
  reflexivity.
Qed.

(** C3, as the code has it.  Whenever a mapper returns a table, its
    columns are the columns of the destination list that the table has
    just before the selection (the input columns after the loader's
    derived columns and renames), in the order of the list.  The
    schedules branch is the exception: it selects first and renames
    [gameday] to [game_date] afterwards, so its columns are the renamed
    intersection of the input with the list; it never raises. *)
Theorem mapper_output_columns (E : Engine) (df : DataFrame) :
  columns (PlayByPlayLoader.prepare_for_upload E df)
  = intersection (columns df) PlayByPlayLoader.key_columns
  /\ (forall out,
       PlayerStatsLoader.prepare_for_upload E df = Ok out ->
       columns out = intersection (player_stats_columns (columns df))
                                  PlayerStatsLoader.schema_columns)
  /\ (forall out,
       PlayerStatsLoader.prepare_player_info_for_upload E df = Ok out ->
       columns out = intersection (player_info_columns (columns df))
                                  PlayerStatsLoader.info_schema_columns)
  /\ (forall out,
       TeamDataLoader.prepare_for_upload E df "rosters" = Ok out ->
       columns out = intersection (rosters_columns (columns df))
                                  TeamDataLoader.rosters_schema_columns)
  /\ (forall out,
       TeamDataLoader.prepare_for_upload E df "info" = Ok out ->
       columns out = intersection (columns df)
                                  TeamDataLoader.info_schema_columns)
  /\ (forall out,
       TeamDataLoader.prepare_for_upload E df "stats" = Ok out ->
       columns out = intersection (stats_columns (columns df))
                                  TeamDataLoader.stats_schema_columns)
  /\ (exists out,
       TeamDataLoader.prepare_for_upload E df "schedules" = Ok out
       /\ columns out
          = renamed [("gameday", "game_date")]
                    (intersection (columns df)
                                  TeamDataLoader.schedules_schema_columns)).
Proof.
  split; [apply pbp_columns|].
  split; [apply player_stats_columns_ok|].
  split; [apply player_info_columns_ok|].
  split; [intros out; rewrite dispatch_rosters; apply rosters_columns_ok|].
  split; [intros out; rewrite dispatch_info; apply info_columns_ok|].
  split; [intros out; rewrite dispatch_stats; apply stats_columns_ok|].
  rewrite dispatch_schedules. apply schedules_columns_ok.
Qed.

(** C5, the team statistics path.  A table that has both [opponent_team]
    and [opponent], or both [passing_interceptions] and [interceptions],
    makes the rename of the statistics branch raise; the player
    statistics loader, which checks for the destination first, returns
    the table with its [interceptions] column as it was. *)
Theorem team_stats_rename_collides (E : Engine) :
  TeamDataLoader.prepare_for_upload E stats_with_both_opponents "stats"
  = Raise (DuplicateError "opponent")
  /\ TeamDataLoader.prepare_for_upload E stats_with_both_interceptions "stats"
     = Raise (DuplicateError "interceptions")
  /\ PlayerStatsLoader.prepare_for_upload E stats_with_both_interceptions
     = Ok [("team", Utf8 [Some "KC"]);
           ("interceptions", Int32 [Some 1%Z])].
Proof. repeat split; vm_compute; reflexivity. Qed.

End MapperTheorems.

Lemma unknown_data_type_is_identity_witness :
  "standings" <> "stats" /\ "standings" <> "rosters"
  /\ "standings" <> "schedules" /\ "standings" <> "info"
  /\ TeamDataLoader.prepare_for_upload MapperSpec.reference_engine
       MapperSpec.raw_schedule "standings"
     = Ok MapperSpec.raw_schedule.
Proof.
  assert (H1 : "standings" <> "stats") by discriminate.
  assert (H2 : "standings" <> "rosters") by discriminate.
  assert (H3 : "standings" <> "schedules") by discriminate.
  assert (H4 : "standings" <> "info") by discriminate.
  repeat (split; [assumption|]).
  exact (unknown_data_type_is_identity MapperSpec.reference_engine
           MapperSpec.raw_schedule "standings" H1 H2 H3 H4).
Defined.

(** The schedules branch returns a column that is not in its list, and
    drops a date column that already has the store's name. *)
Lemma schedules_columns_escape_schema :
  exists out out',
    TeamDataLoader.prepare_for_upload MapperSpec.reference_engine
      MapperSpec.raw_schedule "schedules" = Ok out
    /\ Polars.columns out = ["game_id"; "game_date"; "home_team"]
    /\ ~ In "game_date" TeamDataLoader.schedules_schema_columns
    /\ ~ incl (Polars.columns out) TeamDataLoader.schedules_schema_columns
    /\ TeamDataLoader.prepare_for_upload MapperSpec.reference_engine
         MapperSpec.dated_schedule "schedules" = Ok out'
    /\ Polars.columns MapperSpec.dated_schedule = ["game_id"; "game_date"]
    /\ Polars.columns out' = ["game_id"].
Proof.
  eexists _, _. split; [vm_compute; reflexivity|].
  assert (N : ~ In "game_date" TeamDataLoader.schedules_schema_columns).
  { intros H. apply mem_In in H. vm_compute in H. discriminate. }
  split; [reflexivity|]. split; [exact N|]. split.
  - intros H. apply N. apply H. cbn. auto.
  - split; [vm_compute; reflexivity|]. split; reflexivity.
Defined.

(** ** Frames: reading a column back *)

Section FrameLookups.
Import Polars MapperSpec.

Lemma lookup_In (df : DataFrame) (c : string) (s : Series) :
  lookup c df = Some s -> In (c, s) df.
Proof.
  induction df as [|[n x] df IH]; simpl; [discriminate|].
  destruct (String.eqb_spec c n) as [->|_].
  - intros H. apply (f_equal (fun o => match o with Some y => y | None => x end)) in H.
    left. now subst.
  - intros H. right. now apply IH.
Qed.

Lemma In_lookup_NoDup (df : DataFrame) (c : string) (s : Series) :
  NoDup (columns df) -> In (c, s) df -> lookup c df = Some s.
Proof.
  induction df as [|[n x] df IH]; simpl; [contradiction|].
  intros N [H|H].
  - apply (f_equal fst) in H as H1. apply (f_equal snd) in H as H2.
    simpl in H1, H2. subst. now rewrite String.eqb_refl.
  - inversion N as [|? ? Hn N']; subst.
    destruct (String.eqb_spec c n) as [->|_]; [|now apply IH].
    exfalso. apply Hn. unfold columns.
    change n with (fst (n, s)). now apply in_map.
Qed.

Lemma lookup_map_snd (f : Series -> Series) (df : DataFrame) (c : string) :
  lookup c (map (fun col => (fst col, f (snd col))) df)
  = option_map f (lookup c df).
Proof.
  induction df as [|[n x] df IH]; simpl; [reflexivity|].
  destruct (String.eqb c n); [reflexivity | exact IH].
Qed.

Lemma lookup_with_column_same (df : DataFrame) (c : string) (s : Series) :
  lookup c (with_column df c s) = Some s.
Proof.
  unfold with_column. destruct (has_column df c) eqn:H.
  - apply lookup_some_mem in H. destruct H as (x & H).
    induction df as [|[n y] df IH]; simpl in *; [discriminate|].
    destruct (String.eqb c n) eqn:Ec; simpl.
    + now rewrite String.eqb_refl.
    + rewrite Ec. now apply IH.
  - apply lookup_none_mem in H.
    induction df as [|[n y] df IH]; simpl in *.
    + now rewrite String.eqb_refl.
    + destruct (String.eqb c n); [discriminate | now apply IH].
Qed.

Lemma lookup_with_column_other (df : DataFrame) (c c' : string) (s : Series) :
  c' <> c -> lookup c' (with_column df c s) = lookup c' df.
Proof.
  intros Hne. unfold with_column. destruct (has_column df c).
  - induction df as [|[n y] df IH]; simpl; [reflexivity|].
    destruct (String.eqb_spec c n) as [->|_]; simpl.
    + destruct (String.eqb_spec c' n); [contradiction | exact IH].
    + destruct (String.eqb c' n); [reflexivity | exact IH].
  - induction df as [|[n y] df IH]; simpl.
    + destruct (String.eqb_spec c' c); [contradiction | reflexivity].
    + destruct (String.eqb c' n); [reflexivity | exact IH].
Qed.

Lemma lookup_select (df : DataFrame) (names : list string) (c : string) :
  lookup c (select df names) = if mem c names then lookup c df else None.
Proof.
  unfold select, mem.
  induction names as [|n names IH]; simpl; [reflexivity|].
  destruct (lookup n df) as [s|] eqn:L; simpl.
  - destruct (String.eqb_spec c n) as [->|_]; simpl; [now rewrite L|exact IH].
  - destruct (String.eqb_spec c n) as [->|_]; simpl; [|exact IH].
    rewrite IH, L. now destruct (existsb _ _).
Qed.

Lemma select_columns_filter (df : DataFrame) (names : list string) :
  columns (select df names) = List.filter (has_column df) names.
Proof.
  unfold select, columns.
  induction names as [|c names IH]; simpl; [reflexivity|].
  destruct (lookup c df) as [s|] eqn:L.
  - rewrite (proj2 (lookup_some_mem df c)) by eauto. simpl. now f_equal.
  - now rewrite (proj2 (lookup_none_mem df c)).
Qed.

Lemma select_NoDup (df : DataFrame) (names : list string) :
  NoDup names -> NoDup (columns (select df names)).
Proof. intros H. rewrite select_columns_filter. now apply NoDup_filter. Qed.

Lemma lookup_rename (df df' : DataFrame) (mapping : list (string * string))
    (c : string) (s : Series) :
  rename df mapping = Ok df' ->
  lookup c df = Some s ->
  lookup (rename_name mapping c) df' = Some s.
Proof.
  unfold rename. destruct (first_duplicate _) eqn:D; [discriminate|].
  intros H L. apply Ok_inj in H. subst df'.
  apply first_duplicate_none in D.
  apply In_lookup_NoDup; [exact D|].
  apply lookup_In in L.
  change (rename_name mapping c, s)
    with ((fun col : string * Series =>
             (rename_name mapping (fst col), snd col)) (c, s)).
  now apply in_map.
Qed.

Lemma rename_NoDup (df df' : DataFrame) (mapping : list (string * string)) :
  rename df mapping = Ok df' -> NoDup (columns df').
Proof.
  unfold rename. destruct (first_duplicate _) eqn:D; [discriminate|].
  intros H. apply Ok_inj in H. subst df'. now apply first_duplicate_none.
Qed.

Lemma height_by_first_column (df : DataFrame) (c : string) (s : Series)
    (rest : list string) :
  columns df = c :: rest -> lookup c df = Some s -> height df = series_len s.
Proof.
  destruct df as [|[n x] df]; simpl; [discriminate|].
  intros H. apply (f_equal (hd "")) in H. simpl in H. subst n.
  rewrite String.eqb_refl. intros L.
  apply (f_equal (fun o => match o with Some y => y | None => x end)) in L.
  now subst.
Qed.

End FrameLookups.

(** ** Casts and row masks *)

Section CastFacts.
Import Polars MapperSpec.
Variable E : Engine.

Lemma cast_int32_len (s : Series) :
  series_len (cast_int32 E s) = series_len s.
Proof.
  destruct s; simpl; rewrite ?length_map, ?repeat_length; reflexivity.
Qed.

Lemma cast_int32_idem (s : Series) :
  cast_int32 E (cast_int32 E s) = cast_int32 E s.
Proof. destruct s; reflexivity. Qed.


Lemma cast_if_fst (cols : list string) (col : string * Series) :
  fst (cast_if E cols col) = fst col.
Proof. unfold cast_if. now destruct (mem (fst col) cols). Qed.

Lemma cast_if_columns (cols : list string) (df : DataFrame) :
  columns (map (cast_if E cols) df) = columns df.
Proof.
  unfold columns. rewrite map_map. apply map_ext. apply cast_if_fst.
Qed.

(** With distinct column names, one step of the cast loop casts the
    column of that name and nothing else. *)
Lemma cast_step_map (df : DataFrame) (c : string) :
  NoDup (columns df) ->
  (if has_column df c
   then match lookup c df with
        | Some s => with_column df c (cast_int32 E s)
        | None => df
        end
   else df) = map (cast_if E [c]) df.
Proof.
  intros N. destruct (has_column df c) eqn:H.
  - destruct (proj1 (lookup_some_mem df c) H) as (s & L). rewrite L.
    unfold with_column. rewrite H. apply map_ext_in. intros [n x] Hin.
    unfold cast_if, mem. simpl.
    rewrite (String.eqb_sym n c).
    destruct (String.eqb_spec c n) as [->|_]; simpl; [|reflexivity].
    apply (In_lookup_NoDup _ _ _ N) in Hin. rewrite L in Hin.
    apply Some_inj in Hin. now subst.
  - rewrite <- (map_id df) at 1. apply map_ext_in. intros [n x] Hin.
    unfold cast_if, mem. simpl.
    destruct (String.eqb_spec n c) as [->|_]; simpl; [|reflexivity].
    apply (in_map fst) in Hin. simpl in Hin.
    apply mem_In in Hin. rewrite has_column_mem in H.
    unfold columns in H. congruence.
Qed.

Lemma cast_if_cons (c : string) (cols : list string) (col : string * Series) :
  cast_if E cols (cast_if E [c] col) = cast_if E (c :: cols) col.
Proof.
  destruct col as [n x]. unfold cast_if, mem. simpl.
  destruct (String.eqb n c); simpl.
  - destruct (existsb _ cols); simpl; [now rewrite cast_int32_idem | reflexivity].
  - reflexivity.
Qed.

Lemma cast_int_columns_map (cols : list string) (df : DataFrame) :
  NoDup (columns df) ->
  cast_int_columns E cols df = map (cast_if E cols) df.
Proof.
  unfold cast_int_columns. revert df.
  induction cols as [|c cols IH]; intros df N.
  - simpl. rewrite <- (map_id df) at 1. apply map_ext. now intros [n x].
  - cbn [fold_left]. rewrite (cast_step_map df c N).
    rewrite IH by (now rewrite cast_if_columns).
    rewrite map_map. apply map_ext. intros col. apply cast_if_cons.
Qed.


Lemma lookup_cast_if (cols : list string) (df : DataFrame) (c : string) :
  lookup c (map (cast_if E cols) df)
  = if mem c cols then option_map (cast_int32 E) (lookup c df)
    else lookup c df.
Proof.
  induction df as [|[n x] df IH]; simpl.
  - now destruct (mem c cols).
  - unfold cast_if at 1. simpl.
    destruct (mem n cols) eqn:M; simpl;
      destruct (String.eqb_spec c n) as [->|_]; try exact IH;
      now rewrite M.
Qed.

Lemma height_cast_if (cols : list string) (df : DataFrame) :
  height (map (cast_if E cols) df) = height df.
Proof.
  destruct df as [|[n x] df]; [reflexivity|]. simpl.
  unfold cast_if. simpl. destruct (mem n cols); simpl;
    [apply cast_int32_len | reflexivity].
Qed.

End CastFacts.

Section MaskFacts.
Import Polars MapperSpec.


Lemma keep_length {A : Type} (mask : list bool) (l : list A) :
  length l = length mask -> length (keep mask l) = count_true mask.
Proof.
  unfold count_true. revert l.
  induction mask as [|b mask IH]; intros [|x l]; simpl; try discriminate;
    [reflexivity|].
  intros H. injection H as H. specialize (IH l H).
  destruct b; simpl; lia.
Qed.








Lemma filtered_key_len (s : Series) :
  series_len (filter_series (is_not_null s) s) = count_not_null s.
Proof.
  unfold count_not_null. fold (count_true (is_not_null s)).
  destruct s; simpl; try (apply keep_length; now rewrite length_map).
  apply keep_length. now rewrite !repeat_length.
Qed.


(** Filtering a frame on the null mask of one of its columns a second
    time changes nothing. *)
Lemma lookup_filter (df : DataFrame) (mask : list bool) (c : string) :
  lookup c (Polars.filter df mask)
  = option_map (filter_series mask) (lookup c df).
Proof. unfold Polars.filter. apply lookup_map_snd. Qed.


Lemma lookup_filter_not_null (df : DataFrame) (c : string) (key : Series) :
  lookup c df = Some key ->
  lookup c (filter_not_null df c)
  = Some (filter_series (is_not_null key) key).
Proof.
  intros L. unfold filter_not_null. rewrite L.
  now rewrite lookup_filter, L.
Qed.

End MaskFacts.

(** ** The end of every mapper: select the schema columns, cast the
    integer ones *)

Section SelectCast.
Import Polars MapperSpec.
Variable E : Engine.

Lemma available_NoDup (schema : list string) (df : DataFrame) :
  NoDup schema -> NoDup (available schema df).
Proof. apply NoDup_filter. Qed.

Lemma mem_available (schema : list string) (df : DataFrame) (c : string) :
  mem c (available schema df) = mem c schema && has_column df c.
Proof.
  destruct (mem c (available schema df)) eqn:M.
  - apply mem_In in M. unfold available in M. apply filter_In in M.
    destruct M as [M1 M2]. apply mem_In in M1. now rewrite M1, M2.
  - apply mem_false in M. unfold available in M. rewrite filter_In in M.
    destruct (mem c schema) eqn:M1, (has_column df c) eqn:M2; try reflexivity.
    exfalso. apply M. split; [now apply mem_In | auto].
Qed.

Lemma lookup_select_available (schema : list string) (df : DataFrame)
    (c : string) :
  lookup c (select df (available schema df))
  = if mem c schema then lookup c df else None.
Proof.
  rewrite lookup_select, mem_available.
  destruct (mem c schema); [|reflexivity]. simpl.
  destruct (has_column df c) eqn:H; [reflexivity|].
  symmetry. now apply lookup_none_mem.
Qed.

Lemma select_cast_map (schema ints : list string) (df : DataFrame) :
  NoDup schema ->
  cast_int_columns E ints (select df (available schema df))
  = map (cast_if E ints) (select df (available schema df)).
Proof.
  intros N. apply cast_int_columns_map. apply select_NoDup.
  now apply available_NoDup.
Qed.

Lemma select_cast_lookup (schema ints : list string) (df : DataFrame)
    (c : string) :
  NoDup schema ->
  lookup c (cast_int_columns E ints (select df (available schema df)))
  = if mem c schema
    then if mem c ints then option_map (cast_int32 E) (lookup c df)
         else lookup c df
    else None.
Proof.
  intros N. rewrite (select_cast_map _ _ _ N), lookup_cast_if.
  rewrite lookup_select_available.
  destruct (mem c schema), (mem c ints); reflexivity.
Qed.

Lemma height_of_leading_column (out : DataFrame) (names rest : list string)
    (c : string) (s : Series) :
  columns out = intersection names (c :: rest) ->
  lookup c out = Some s ->
  height out = series_len s.
Proof.
  intros Hc L.
  assert (Hin : In c (columns out)).
  { apply mem_In. rewrite <- has_column_mem. apply lookup_some_mem. eauto. }
  rewrite Hc in Hin. apply intersection_In in Hin. destruct Hin as [Hin _].
  apply mem_In in Hin. unfold intersection in Hc. cbn [List.filter] in Hc.
  rewrite Hin in Hc. exact (height_by_first_column _ _ _ _ Hc L).
Qed.

Lemma NoDup_by_computation (names : list string) :
  first_duplicate names = None -> NoDup names.
Proof. apply first_duplicate_none. Qed.


End SelectCast.

(** ** Rows without a primary key *)

Section NullKeys.
Import Polars MapperSpec.
Variable E : Engine.

Lemma rosters_schema_NoDup : NoDup TeamDataLoader.rosters_schema_columns.
Proof. apply NoDup_by_computation. vm_compute. reflexivity. Qed.

Lemma player_schema_NoDup : NoDup PlayerStatsLoader.schema_columns.
Proof. apply NoDup_by_computation. vm_compute. reflexivity. Qed.

Lemma player_info_schema_NoDup : NoDup PlayerStatsLoader.info_schema_columns.
Proof. apply NoDup_by_computation. vm_compute. reflexivity. Qed.

Lemma rosters_drop_null_keys (df out : DataFrame) (key : Series) :
  lookup "gsis_id" df = Some key ->
  TeamDataLoader.prepare_rosters E df = Ok out ->
  lookup "player_id" out = Some (filter_series (is_not_null key) key)
  /\ height out = count_not_null key.
Proof.
  intros L H. pose proof (rosters_columns_ok E df out H) as Hcols.
  unfold TeamDataLoader.prepare_rosters in H.
  rewrite (proj2 (lookup_some_mem df "gsis_id")) in H by eauto.
  pose proof (lookup_filter_not_null df "gsis_id" key L) as L1.
  set (df1 := filter_not_null df "gsis_id") in *.
  set (df2 := match lookup "birth_date" df1 with
              | Some s => _ | None => df1 end) in *.
  assert (L2 : lookup "gsis_id" df2
               = Some (filter_series (is_not_null key) key)).
  { unfold df2. destruct (lookup "birth_date" df1); [|exact L1].
    rewrite lookup_with_column_other; [exact L1 | discriminate]. }
  rewrite (proj2 (lookup_some_mem df2 "gsis_id")) in H by eauto.
  cbn [app] in H.
  apply bind_ok in H as (df3 & R & H). apply Ok_inj in H.
  pose proof (lookup_rename _ _ _ _ _ R L2) as L3.
  change (rename_name _ "gsis_id") with "player_id" in L3.
  assert (Lout : lookup "player_id" out
                 = Some (filter_series (is_not_null key) key)).
  { subst out. rewrite (select_cast_lookup E _ _ _ _ rosters_schema_NoDup).
    change (mem "player_id" TeamDataLoader.rosters_schema_columns) with true.
    change (mem "player_id" TeamDataLoader.rosters_int_cols) with false.
    exact L3. }
  split; [exact Lout|].
  rewrite (height_of_leading_column out _
             (tl TeamDataLoader.rosters_schema_columns) _ _ Hcols Lout).
  apply filtered_key_len.
Qed.

Lemma player_info_drop_null_keys (df out : DataFrame) (key : Series) :
  lookup "gsis_id" df = Some key ->
  PlayerStatsLoader.prepare_player_info_for_upload E df = Ok out ->
  lookup "player_id" out = Some (filter_series (is_not_null key) key)
  /\ height out = count_not_null key.
Proof.
  intros L H. pose proof (player_info_columns_ok E df out H) as Hcols.
  unfold PlayerStatsLoader.prepare_player_info_for_upload in H.
  rewrite (proj2 (lookup_some_mem df "gsis_id")) in H by eauto.
  pose proof (lookup_filter_not_null df "gsis_id" key L) as L1.
  set (df1 := filter_not_null df "gsis_id") in *.
  rewrite L1 in H.
  set (key' := filter_series (is_not_null key) key) in *.
  pose proof (lookup_with_column_same df1 "player_id" key') as L2.
  set (df2 := with_column df1 "player_id" key') in *.
  apply bind_ok in H as (df3 & R & H). apply Ok_inj in H.
  assert (L3 : lookup "player_id" df3 = Some key').
  { destruct (has_column df2 "display_name").
    - pose proof (lookup_rename _ _ _ _ _ R L2) as L3. exact L3.
    - apply Ok_inj in R. now subst df3. }
  assert (Lout : lookup "player_id" out = Some key').
  { subst out.
    match goal with
    | |- lookup _ (match lookup "birth_date" ?r with _ => _ end) = _ =>
        destruct (lookup "birth_date" r)
    end;
    rewrite ?lookup_with_column_other by discriminate;
    rewrite (select_cast_lookup E _ _ _ _ player_info_schema_NoDup);
    exact L3. }
  split; [exact Lout|].
  rewrite (height_of_leading_column out _
             (tl PlayerStatsLoader.info_schema_columns) _ _ Hcols Lout).
  apply filtered_key_len.
Qed.

Lemma player_stats_drop_null_keys (df out : DataFrame) (key : Series) :
  lookup "player_id" df = Some key ->
  PlayerStatsLoader.prepare_for_upload E df = Ok out ->
  lookup "player_id" out = Some (filter_series (is_not_null key) key)
  /\ height out = count_not_null key.
Proof.
  intros L H. pose proof (player_stats_columns_ok E df out H) as Hcols.
  unfold PlayerStatsLoader.prepare_for_upload in H.
  rewrite (proj2 (lookup_some_mem df "player_id")) in H by eauto.
  pose proof (lookup_filter_not_null df "player_id" key L) as L1.
  set (df1 := filter_not_null df "player_id") in *.
  set (key' := filter_series (is_not_null key) key) in *.
  apply bind_ok in H as (df3 & R & H). apply Ok_inj in H.
  assert (L3 : lookup "player_id" df3 = Some key').
  { destruct (has_column df1 "passing_interceptions"
              && negb (has_column df1 "interceptions")).
    - pose proof (lookup_rename _ _ _ _ _ R L1) as L3. exact L3.
    - apply Ok_inj in R. now subst df3. }
  assert (Lout : lookup "player_id" out = Some key').
  { subst out. rewrite (select_cast_lookup E _ _ _ _ player_schema_NoDup).
    exact L3. }
  split; [exact Lout|].
  rewrite (height_of_leading_column out _
             (tl PlayerStatsLoader.schema_columns) _ _ Hcols Lout).
  apply filtered_key_len.
Qed.


End NullKeys.

(** ** The cast to 32-bit integers *)

Section CastCells.
Import Polars MapperSpec.
Variable E : Engine.

Lemma cast_int32_is_int32 (s : Series) :
  exists cells, cast_int32 E s = Int32 cells.
Proof. destruct s; simpl; eauto. Qed.


Lemma keep_map {A B : Type} (f : A -> B) (mask : list bool) (l : list A) :
  keep mask (map f l) = map f (keep mask l).
Proof.
  revert l. induction mask as [|b mask IH]; intros [|x l]; simpl; auto.
  destruct b; simpl; now rewrite IH.
Qed.

Lemma keep_repeat {A : Type} (x : A) (mask : list bool) (n : nat) :
  keep mask (repeat x n) = repeat x (length (keep mask (repeat tt n))).
Proof.
  revert n. induction mask as [|b mask IH]; intros [|n]; simpl; auto.
  destruct b; simpl; now rewrite IH.
Qed.

Lemma to_list_filter (mask : list bool) (s : Series) :
  to_list (filter_series mask s) = keep mask (to_list s).
Proof.
  destruct s; simpl; rewrite ?keep_map; try reflexivity.
  symmetry. apply keep_repeat.
Qed.

Lemma take_map {A B : Type} (f : A -> B) (idx : list nat) (l : list A) :
  take idx (map f l) = map f (take idx l).
Proof.
  unfold take. induction idx as [|i idx IH]; simpl; [reflexivity|].
  rewrite map_app, IH, nth_error_map.
  now destruct (nth_error l i).
Qed.

Lemma take_repeat {A : Type} (x : A) (idx : list nat) (n : nat) :
  take idx (repeat x n) = repeat x (length (take idx (repeat tt n))).
Proof.
  unfold take. induction idx as [|i idx IH]; simpl; [reflexivity|].
  rewrite length_app, repeat_app, IH. f_equal.
  destruct (nth_error (repeat tt n) i) as [u|] eqn:N1.
  - assert (Hi : i < n).
    { rewrite <- (repeat_length tt n). apply nth_error_Some. congruence. }
    destruct (nth_error (repeat x n) i) as [y|] eqn:N2.
    + apply nth_error_In, repeat_spec in N2. now subst.
    + apply nth_error_None in N2. rewrite repeat_length in N2. lia.
  - apply nth_error_None in N1. rewrite repeat_length in N1.
    destruct (nth_error (repeat x n) i) as [y|] eqn:N2; [|reflexivity].
    assert (Hi : i < n).
    { rewrite <- (repeat_length x n). apply nth_error_Some. congruence. }
    lia.
Qed.

Lemma to_list_take (idx : list nat) (s : Series) :
  to_list (take_series idx s) = take idx (to_list s).
Proof.
  destruct s; simpl; rewrite ?take_map; try reflexivity.
  symmetry. apply take_repeat.
Qed.




End CastCells.

Section IntColumns.
Import Polars MapperSpec.
Variable E : Engine.

Lemma lookup_rename_inv (df df' : DataFrame) (mapping : list (string * string))
    (c : string) (x : Series) :
  rename df mapping = Ok df' ->
  lookup c df' = Some x ->
  exists c0, rename_name mapping c0 = c /\ lookup c0 df = Some x.
Proof.
  unfold rename. destruct (first_duplicate _) eqn:D; [discriminate|].
  intros H L. apply Ok_inj in H. subst df'.
  apply first_duplicate_none in D. rewrite renamed_frame_columns in D.
  apply NoDup_map_inv in D.
  apply lookup_In, in_map_iff in L. destruct L as ([c0 x0] & Hg & Hin).
  cbn [fst snd] in Hg.
  apply (f_equal fst) in Hg as H1. apply (f_equal snd) in Hg as H2.
  cbn [fst snd] in H1, H2. subst.
  exists c0. split; [reflexivity|]. now apply In_lookup_NoDup.
Qed.



Lemma lookup_filter_step (k : string) (df : DataFrame) (c : string) :
  lookup c (if has_column df k then filter_not_null df k else df)
  = option_map (rows_kept k df) (lookup c df).
Proof.
  unfold rows_kept, filter_not_null.
  destruct (lookup k df) as [key|] eqn:L.
  - rewrite (proj2 (lookup_some_mem df k)) by eauto.
    apply lookup_filter.
  - rewrite (proj2 (lookup_none_mem df k)) by assumption.
    now destruct (lookup c df).
Qed.






Lemma pbp_schema_NoDup : NoDup PlayByPlayLoader.key_columns.
Proof. apply NoDup_by_computation. vm_compute. reflexivity. Qed.


Lemma pbp_cast_frame_lookup (df : DataFrame) (c : string) :
  lookup c (cast_int_columns E PlayByPlayLoader.int_columns
              (select df (available PlayByPlayLoader.key_columns df)))
  = if mem c PlayByPlayLoader.key_columns
    then if mem c PlayByPlayLoader.int_columns
         then option_map (cast_int32 E) (lookup c df)
         else lookup c df
    else None.
Proof. apply select_cast_lookup. exact pbp_schema_NoDup. Qed.

Lemma pbp_unfold (df : DataFrame) :
  PlayByPlayLoader.prepare_for_upload E df
  = (let R := cast_int_columns E PlayByPlayLoader.int_columns
                (select df (available PlayByPlayLoader.key_columns df)) in
     if has_column R "play_id" then unique_keep_first E R "play_id" else R).
Proof. reflexivity. Qed.


End IntColumns.

Section Numerals.
Import Polars MapperSpec.
Variable E : Engine.







End Numerals.

Section DesignatedColumns.
Import Polars MapperSpec.
Variable E : Engine.





End DesignatedColumns.

Section CastTheorem.
Import Polars MapperSpec.


End CastTheorem.


(** ** Derived columns of the team statistics *)

Section IntegerSums.
Import Polars MapperSpec.
Variable E : Engine.

Lemma in_int32_bounds (t : Z) :
  in_int32 t = true <-> (- 2 ^ 31 <= t < 2 ^ 31)%Z.
Proof.
  unfold in_int32, int32_min, int32_max.
  rewrite andb_true_iff, !Z.leb_le. lia.
Qed.

Lemma wrap32_small (t : Z) : in_int32 t = true -> wrap32 t = t.
Proof.
  intros H. apply in_int32_bounds in H. unfold wrap32.
  rewrite Z.mod_small; lia.
Qed.

Lemma wrap64_small (t : Z) : in_int32 t = true -> wrap64 t = t.
Proof.
  intros H. apply in_int32_bounds in H. unfold wrap64.
  rewrite Z.mod_small; lia.
Qed.

Lemma wrap32_add (x y : Z) : wrap32 (wrap32 x + y) = wrap32 (x + y).
Proof.
  unfold wrap32. f_equal.
  replace ((x + 2 ^ 31) mod 2 ^ 32 - 2 ^ 31 + y + 2 ^ 31)%Z
    with ((x + 2 ^ 31) mod 2 ^ 32 + y)%Z by lia.
  rewrite Z.add_mod_idemp_l by lia. f_equal. lia.
Qed.

Lemma wrap64_add (x y : Z) : wrap64 (wrap64 x + y) = wrap64 (x + y).
Proof.
  unfold wrap64. f_equal.
  replace ((x + 2 ^ 63) mod 2 ^ 64 - 2 ^ 63 + y + 2 ^ 63)%Z
    with ((x + 2 ^ 63) mod 2 ^ 64 + y)%Z by lia.
  rewrite Z.add_mod_idemp_l by lia. f_equal. lia.
Qed.

Lemma derived_cell_in_range (both32 : bool) (t : Z) :
  in_int32 t = true -> derived_cell both32 t = Some t.
Proof.
  intros H. unfold derived_cell, narrow. destruct both32.
  - now rewrite wrap32_small.
  - now rewrite wrap64_small, H.
Qed.

Lemma zip_add_length (w : Z -> Z) (a b : list (option Z)) :
  length (zip_add w a b) = Nat.min (length a) (length b).
Proof.
  revert b. induction a as [|x a IH]; intros [|y b]; simpl; auto.
Qed.

Lemma zip_add_nth (w : Z -> Z) (a b : list (option Z)) (i : nat) :
  i < length (zip_add w a b) ->
  nth i (zip_add w a b) None
  = match nth i a None, nth i b None with
    | Some u, Some v => Some (w (u + v)%Z)
    | _, _ => None
    end.
Proof.
  revert b i. induction a as [|x a IH]; intros [|y b] i; simpl; try lia.
  destruct i as [|i]; [reflexivity|]. intros H. apply IH. lia.
Qed.

Lemma filled_nth (l : list (option Z)) (i : nat) :
  i < length l ->
  nth i (map zero_if_null l) None = Some (cell_or_zero (nth i l None)).
Proof.
  revert i. induction l as [|c l IH]; intros i; simpl; [lia|].
  destruct i as [|i]; [now destruct c|]. intros H. apply IH. lia.
Qed.

(** The sum of two filled integer columns, cell by cell. *)
Lemma sum_of_filled (w : Z -> Z) (p r : list (option Z)) (i : nat) :
  i < Nat.min (length p) (length r) ->
  nth i (zip_add w (map zero_if_null p) (map zero_if_null r)) None
  = Some (w (cell_or_zero (nth i p None) + cell_or_zero (nth i r None))%Z).
Proof.
  intros H. rewrite zip_add_nth by (rewrite zip_add_length, !length_map; lia).
  now rewrite !filled_nth by lia.
Qed.

Lemma nth_map_bind_narrow (l : list (option Z)) (i : nat) :
  nth i (map (fun c => opt_bind c narrow) l) None
  = opt_bind (nth i l None) narrow.
Proof.
  revert i. induction l as [|c l IH]; intros [|i]; simpl; auto.
Qed.

End IntegerSums.

Section DerivedColumns.
Import Polars MapperSpec.
Variable E : Engine.

Lemma lookup_rename_if_other (df df' : DataFrame) (src dst c : string)
    (s : Series) :
  (if has_column df src then rename df [(src, dst)] else Ok df) = Ok df' ->
  c <> src ->
  lookup c df = Some s ->
  lookup c df' = Some s.
Proof.
  intros R Hne L. destruct (has_column df src).
  - pose proof (lookup_rename _ _ _ _ _ R L) as L'.
    now rewrite rename_name_other in L'.
  - apply Ok_inj in R. now subst.
Qed.

(** A column computed before the selection, under a name that the
    renames leave alone and that is both in the schema and among the
    integer columns, reaches the result through the cast. *)
Lemma stats_tail_lookup (df2 out : DataFrame) (c : string) (s : Series) :
  (df3 <- (if has_column df2 "opponent_team"
           then rename df2 [("opponent_team", "opponent")]
           else Ok df2) ;;
   df4 <- (if has_column df3 "passing_interceptions"
           then rename df3 [("passing_interceptions", "interceptions")]
           else Ok df3) ;;
   Ok (cast_int_columns E TeamDataLoader.stats_int_cols
         (select df4 (available TeamDataLoader.stats_schema_columns df4))))
  = Ok out ->
  c <> "opponent_team" -> c <> "passing_interceptions" ->
  mem c TeamDataLoader.stats_schema_columns = true ->
  mem c TeamDataLoader.stats_int_cols = true ->
  lookup c df2 = Some s ->
  lookup c out = Some (cast_int32 E s).
Proof.
  intros H N1 N2 M1 M2 L.
  apply bind_ok in H as (df3 & H3 & H).
  apply bind_ok in H as (df4 & H4 & H).
  apply Ok_inj in H. subst out.
  assert (Ns : NoDup TeamDataLoader.stats_schema_columns)
    by (apply NoDup_by_computation; vm_compute; reflexivity).
  rewrite (select_cast_lookup E _ _ _ _ Ns), M1, M2.
  pose proof (lookup_rename_if_other _ _ _ _ _ _ H3 N1 L) as L3.
  now rewrite (lookup_rename_if_other _ _ _ _ _ _ H4 N2 L3).
Qed.

Lemma turnovers_step_lookup_other (df1 df2 : DataFrame) (cols : list Series)
    (c : string) (s : Series) :
  match cols with
  | [] => Ok df1
  | _ =>
      turnovers <- sum_horizontal E cols ;;
      Ok (with_column df1 "turnovers" turnovers)
  end = Ok df2 ->
  c <> "turnovers" ->
  lookup c df1 = Some s -> lookup c df2 = Some s.
Proof.
  intros H Hne L. destruct cols.
  - apply Ok_inj in H. now subst.
  - apply bind_ok in H as (t & _ & H). apply Ok_inj in H. subst df2.
    now rewrite lookup_with_column_other.
Qed.

(** The total of two integer columns, as the result holds it. *)
Lemma total_yards_in_result (df out : DataFrame) (P R : Series)
    (p r : list (option Z)) :
  TeamDataLoader.prepare_stats E df = Ok out ->
  lookup "passing_yards" df = Some P ->
  lookup "rushing_yards" df = Some R ->
  int_cells P = Some p -> int_cells R = Some r ->
  exists cells,
    lookup "total_yards" out = Some (Int32 cells)
    /\ length cells = Nat.min (length p) (length r)
    /\ forall i, i < length cells ->
         nth i cells None
         = derived_cell (is_int32 P && is_int32 R)
             (cell_or_zero (nth i p None) + cell_or_zero (nth i r None)).
Proof.
  intros H LP LR IP IR. unfold TeamDataLoader.prepare_stats in H.
  apply bind_ok in H as (df1 & H1 & H).
  apply bind_ok in H as (cols & Hc & H).
  apply bind_ok in H as (df2 & H2 & H).
  rewrite LP, LR in H1.
  assert (T : exists w total,
             lookup "total_yards" df1 = Some total
             /\ ((is_int32 P && is_int32 R = true /\ w = wrap32
                  /\ total = Int32 (zip_add w (map zero_if_null p)
                                              (map zero_if_null r)))
                 \/ (is_int32 P && is_int32 R = false /\ w = wrap64
                     /\ total = Int64 (zip_add w (map zero_if_null p)
                                                 (map zero_if_null r))))).
  { destruct P as [a|a| | |]; try discriminate;
      destruct R as [b|b| | |]; try discriminate;
      apply Some_inj in IP; apply Some_inj in IR; subst a b;
      cbn [fill_null_zero bind add] in H1; apply Ok_inj in H1; subst df1;
      rewrite lookup_with_column_same;
      [exists wrap32 | exists wrap64 | exists wrap64 | exists wrap64];
      eexists; (split; [reflexivity|]); cbn [is_int32 andb]; auto. }
  destruct T as (w & total & L1 & T).
  pose proof (turnovers_step_lookup_other df1 df2 cols "total_yards" total
                H2 ltac:(discriminate) L1) as L2.
  pose proof (stats_tail_lookup df2 out "total_yards" total H
                ltac:(discriminate) ltac:(discriminate)
                eq_refl eq_refl L2) as Lout.
  destruct T as [(B & -> & ->)|(B & -> & ->)]; rewrite B; cbn [cast_int32] in Lout.
  - eexists. split; [exact Lout|]. split.
    + now rewrite zip_add_length, !length_map.
    + intros i Hi. rewrite zip_add_length, !length_map in Hi.
      unfold derived_cell. now apply sum_of_filled.
  - eexists. split; [exact Lout|]. split.
    + now rewrite length_map, zip_add_length, !length_map.
    + intros i Hi.
      rewrite length_map, zip_add_length, !length_map in Hi.
      rewrite nth_map_bind_narrow, sum_of_filled by exact Hi.
      reflexivity.
Qed.

(** The total computed in the first pass, as the result holds it. *)
Lemma total_yards_series (df out : DataFrame) (P R : Series) :
  TeamDataLoader.prepare_stats E df = Ok out ->
  lookup "passing_yards" df = Some P ->
  lookup "rushing_yards" df = Some R ->
  exists total,
    (p0 <- fill_null_zero E P ;; r0 <- fill_null_zero E R ;; add E p0 r0)
    = Ok total
    /\ lookup "total_yards" out = Some (cast_int32 E total).
Proof.
  intros H LP LR. unfold TeamDataLoader.prepare_stats in H.
  apply bind_ok in H as (df1 & H1 & H).
  apply bind_ok in H as (cols & Hc & H).
  apply bind_ok in H as (df2 & H2 & H).
  rewrite LP, LR in H1.
  apply bind_ok in H1 as (p0 & Hp & H1).
  apply bind_ok in H1 as (r0 & Hr & H1).
  apply bind_ok in H1 as (total & Ht & H1).
  apply Ok_inj in H1.
  exists total. split; [now rewrite Hp, Hr|].
  assert (L1 : lookup "total_yards" df1 = Some total)
    by (subst df1; apply lookup_with_column_same).
  pose proof (turnovers_step_lookup_other df1 df2 cols "total_yards" total
                H2 ltac:(discriminate) L1) as L2.
  exact (stats_tail_lookup df2 out "total_yards" total H
           ltac:(discriminate) ltac:(discriminate) eq_refl eq_refl L2).
Qed.

End DerivedColumns.

Section Turnovers.
Import Polars MapperSpec.
Variable E : Engine.

Lemma fill_null_zero_int (s : Series) :
  is_int32 s || is_int64 s = true -> fill_null_zero E s = Ok (filled s).
Proof. destruct s; simpl; try discriminate; reflexivity. Qed.

Lemma turnover_cols_ints (df : DataFrame) (names : list string)
    (cols : list Series) :
  TeamDataLoader.turnover_cols E df names = Ok cols ->
  forallb (fun s => is_int32 s || is_int64 s) (present df names) = true ->
  cols = map filled (present df names).
Proof.
  unfold present. revert cols.
  induction names as [|c names IH]; intros cols H W; simpl in *.
  - apply Ok_inj in H. now subst.
  - destruct (lookup c df) as [s|].
    + simpl in W. apply andb_prop in W. destruct W as [Ws W].
      rewrite (fill_null_zero_int s Ws) in H. cbn [bind] in H.
      apply bind_ok in H as (rest & Hr & H). apply Ok_inj in H. subst cols.
      simpl. f_equal. now apply IH.
    + simpl in W. now apply IH.
Qed.

Lemma bind_ret {A : Type} (r : result A) : bind r (fun a => Ok a) = r.
Proof. now destruct r. Qed.

Lemma sum_horizontal_uniform (a : Series) (rest : list Series) :
  forallb is_int32 (a :: rest) || forallb is_int64 (a :: rest) = true ->
  sum_horizontal E (a :: rest) = add_all E a rest.
Proof.
  intros H. destruct rest as [|b [|c rest]].
  - reflexivity.
  - cbn [sum_horizontal add_all]. now rewrite bind_ret.
  - unfold sum_horizontal. now rewrite H.
Qed.

Lemma add_all_int32 (a : list (option Z)) (ls : list (list (option Z))) :
  add_all E (Int32 a) (map Int32 ls)
  = Ok (Int32 (fold_left (zip_add wrap32) ls a)).
Proof.
  revert a. induction ls as [|l ls IH]; intros a; simpl; [reflexivity|].
  apply IH.
Qed.

Lemma add_all_int64 (a : list (option Z)) (ls : list (list (option Z))) :
  add_all E (Int64 a) (map Int64 ls)
  = Ok (Int64 (fold_left (zip_add wrap64) ls a)).
Proof.
  revert a. induction ls as [|l ls IH]; intros a; simpl; [reflexivity|].
  apply IH.
Qed.

Lemma all_int32_shape (ss : list Series) :
  forallb is_int32 ss = true -> ss = map Int32 (map cells_of ss).
Proof.
  induction ss as [|s ss IH]; simpl; [reflexivity|].
  intros H. apply andb_prop in H. destruct H as [Hs H].
  destruct s; try discriminate. simpl. f_equal. now apply IH.
Qed.

Lemma all_int64_shape (ss : list Series) :
  forallb is_int64 ss = true -> ss = map Int64 (map cells_of ss).
Proof.
  induction ss as [|s ss IH]; simpl; [reflexivity|].
  intros H. apply andb_prop in H. destruct H as [Hs H].
  destruct s; try discriminate. simpl. f_equal. now apply IH.
Qed.

Lemma fold_zip_length_le (w : Z -> Z) (ls : list (list (option Z)))
    (acc : list (option Z)) :
  length (fold_left (zip_add w) ls acc) <= length acc
  /\ Forall (fun l => length (fold_left (zip_add w) ls acc) <= length l) ls.
Proof.
  revert acc. induction ls as [|l ls IH]; intros acc; simpl.
  - split; [lia | constructor].
  - destruct (IH (zip_add w acc l)) as [H1 H2].
    rewrite zip_add_length in H1. split; [lia|].
    constructor; [lia | exact H2].
Qed.

(** A cell of the pairwise sum of filled columns. *)
Lemma fold_zip_nth (w : Z -> Z) (ls : list (list (option Z)))
    (acc : list (option Z)) (i : nat) (x : Z) :
  i < length (fold_left (zip_add w) (map (map zero_if_null) ls) acc) ->
  nth i acc None = Some x ->
  nth i (fold_left (zip_add w) (map (map zero_if_null) ls) acc) None
  = Some (fold_left (fun t l => w (t + cell_or_zero (nth i l None))%Z) ls x).
Proof.
  revert acc x. induction ls as [|l ls IH]; intros acc x Hi Hx; simpl in *.
  - exact Hx.
  - apply IH; [exact Hi|].
    destruct (fold_zip_length_le w (map (map zero_if_null) ls)
                (zip_add w acc (map zero_if_null l))) as [Hl _].
    rewrite zip_add_nth by lia.
    rewrite zip_add_length, length_map in Hl.
    rewrite Hx, filled_nth by lia. reflexivity.
Qed.

Lemma fold_plus_shift (c : list (option Z) -> Z)
    (ls : list (list (option Z))) (x : Z) :
  fold_left (fun t l => (t + c l)%Z) ls x
  = (x + fold_left (fun t l => (t + c l)%Z) ls 0)%Z.
Proof.
  revert x. induction ls as [|l ls IH]; intros x; simpl; [lia|].
  rewrite (IH (x + c l)%Z), (IH (c l)). lia.
Qed.

Lemma nested_wrap (w : Z -> Z) (c : list (option Z) -> Z)
    (ls : list (list (option Z))) (x : Z) :
  (forall u v, w (w u + v) = w (u + v))%Z ->
  w (fold_left (fun t l => w (t + c l)%Z) ls x)
  = w (fold_left (fun t l => (t + c l)%Z) ls x).
Proof.
  intros Hw. revert x. induction ls as [|l ls IH]; intros x; simpl;
    [reflexivity|].
  rewrite IH, (fold_plus_shift c ls (w (x + c l)%Z)),
    (fold_plus_shift c ls (x + c l)%Z).
  apply Hw.
Qed.

Lemma nested_is_wrapped (w : Z -> Z) (c : list (option Z) -> Z)
    (ls : list (list (option Z))) (x : Z) :
  ls <> [] ->
  exists z, fold_left (fun t l => w (t + c l)%Z) ls x = w z.
Proof.
  revert x. induction ls as [|l ls IH]; intros x H; [congruence|]. simpl.
  destruct ls as [|l' ls']; [simpl; eauto|].
  apply IH. discriminate.
Qed.

(** When the true sum fits 32 bits, the pairwise wrapped sum is the true
    sum. *)
Lemma nested_sum_exact (w : Z -> Z) (c : list (option Z) -> Z)
    (ls : list (list (option Z))) (x : Z) :
  (forall u v, w (w u + v) = w (u + v))%Z ->
  (forall t, in_int32 t = true -> w t = t) ->
  ls <> [] ->
  in_int32 (fold_left (fun t l => (t + c l)%Z) ls x) = true ->
  fold_left (fun t l => w (t + c l)%Z) ls x
  = fold_left (fun t l => (t + c l)%Z) ls x.
Proof.
  intros Hw Hs Hne Hin.
  destruct (nested_is_wrapped w c ls x Hne) as (z & Hz).
  assert (Hidem : w (w z) = w z).
  { pose proof (Hw z 0%Z) as H0. now rewrite !Z.add_0_r in H0. }
  rewrite <- (Hs _ Hin), <- (nested_wrap w c ls x Hw), Hz.
  now rewrite Hidem.
Qed.

End Turnovers.

Section TurnoversInResult.
Import Polars MapperSpec.
Variable E : Engine.

Lemma uniform_sum_cell (w : Z -> Z) (la : list (option Z))
    (lrest : list (list (option Z))) (i : nat) :
  (forall u v, w (w u + v) = w (u + v))%Z ->
  (forall t, in_int32 t = true -> w t = t) ->
  i < length (fold_left (zip_add w) (map (map zero_if_null) lrest)
                        (map zero_if_null la)) ->
  in_int32 (row_total (la :: lrest) i) = true ->
  nth i (fold_left (zip_add w) (map (map zero_if_null) lrest)
                   (map zero_if_null la)) None
  = Some (row_total (la :: lrest) i).
Proof.
  intros Hw Hs Hi Hin.
  destruct (fold_zip_length_le w (map (map zero_if_null) lrest)
              (map zero_if_null la)) as [Hl _].
  rewrite length_map in Hl.
  rewrite (fold_zip_nth w lrest _ i (cell_or_zero (nth i la None)) Hi)
    by (apply filled_nth; lia).
  unfold row_total in *. cbn [fold_left] in *.
  change (0 + cell_or_zero (nth i la None))%Z
    with (cell_or_zero (nth i la None)) in *.
  destruct lrest as [|l lrest]; [reflexivity|].
  f_equal.
  apply (nested_sum_exact w (fun l => cell_or_zero (nth i l None))
           (l :: lrest) _ Hw Hs); [discriminate | exact Hin].
Qed.

Lemma total_step_lookup_other (df df1 : DataFrame) (c : string) :
  match lookup "passing_yards" df, lookup "rushing_yards" df with
  | Some p, Some r =>
      p0 <- fill_null_zero E p ;;
      r0 <- fill_null_zero E r ;;
      total <- add E p0 r0 ;;
      Ok (with_column df "total_yards" total)
  | _, _ => Ok df
  end = Ok df1 ->
  c <> "total_yards" ->
  lookup c df1 = lookup c df.
Proof.
  intros H Hne.
  destruct (lookup "passing_yards" df) as [p|];
    [destruct (lookup "rushing_yards" df) as [r|]|];
    try (apply Ok_inj in H; now subst).
  apply bind_ok in H as (p0 & _ & H).
  apply bind_ok in H as (r0 & _ & H).
  apply bind_ok in H as (total & _ & H).
  apply Ok_inj in H. subst df1. now apply lookup_with_column_other.
Qed.

Lemma uniform_ints (ss : list Series) :
  forallb is_int32 ss || forallb is_int64 ss = true ->
  forallb (fun s => is_int32 s || is_int64 s) ss = true.
Proof.
  intros H. apply forallb_forall. intros s Hs.
  apply orb_prop in H. destruct H as [H|H];
    rewrite forallb_forall in H; rewrite (H s Hs); auto using orb_true_r.
Qed.

Lemma turnovers_in_result (df out : DataFrame) :
  TeamDataLoader.prepare_stats E df = Ok out ->
  present_turnovers df <> [] ->
  forallb is_int32 (present_turnovers df)
  || forallb is_int64 (present_turnovers df) = true ->
  exists cells,
    lookup "turnovers" out = Some (Int32 cells)
    /\ Forall (fun l => length cells <= length l)
              (map cells_of (present_turnovers df))
    /\ forall i, i < length cells ->
         in_int32 (row_total (map cells_of (present_turnovers df)) i) = true ->
         nth i cells None
         = Some (row_total (map cells_of (present_turnovers df)) i).
Proof.
  intros H Hne U. unfold TeamDataLoader.prepare_stats in H.
  apply bind_ok in H as (df1 & H1 & H).
  apply bind_ok in H as (cols & Hc & H).
  apply bind_ok in H as (df2 & H2 & H).
  assert (P1 : present df1 TeamDataLoader.turnover_sources
               = present_turnovers df).
  { unfold present_turnovers, present, TeamDataLoader.turnover_sources.
    cbn [flat_map].
    now rewrite !(total_step_lookup_other df df1 _ H1) by discriminate. }
  remember (present_turnovers df) as srcs eqn:Hs. clear Hs.
  apply turnover_cols_ints in Hc; [|rewrite P1; now apply uniform_ints].
  rewrite P1 in Hc. clear P1. subst cols.
  destruct srcs as [|a rest]; [congruence|]. clear Hne.
  cbn [map] in H2.
  apply bind_ok in H2 as (tsum & Hsum & H2). apply Ok_inj in H2.
  assert (L2 : lookup "turnovers" df2 = Some tsum)
    by (subst df2; apply lookup_with_column_same).
  pose proof (stats_tail_lookup E df2 out "turnovers" tsum H
                ltac:(discriminate) ltac:(discriminate)
                eq_refl eq_refl L2) as Lout.
  clear H H1 H2 L2 df1 df2.
  change (filled a :: map filled rest) with (map filled (a :: rest)) in Hsum.
  apply orb_prop in U. destruct U as [U|U].
  - rewrite (all_int32_shape _ U) in Hsum.
    remember (map cells_of (a :: rest)) as ls eqn:Hls.
    destruct ls as [|la lrest]; [discriminate|]. clear Hls.
    cbn [map filled] in Hsum.
    rewrite sum_horizontal_uniform in Hsum.
    2:{ apply orb_true_intro. left. cbn [forallb is_int32 andb].
        rewrite map_map. clear. induction lrest; simpl; auto. }
    rewrite map_map in Hsum.
    rewrite <- (map_map (map zero_if_null) Int32) in Hsum.
    rewrite add_all_int32 in Hsum. apply Ok_inj in Hsum. subst tsum.
    cbn [cast_int32] in Lout.
    eexists. split; [exact Lout|]. split.
    + destruct (fold_zip_length_le wrap32 (map (map zero_if_null) lrest)
                  (map zero_if_null la)) as [H1 H2].
      rewrite length_map in H1. constructor; [exact H1|].
      rewrite Forall_map in H2. eapply Forall_impl; [|exact H2].
      intros l Hl. cbn beta in Hl. now rewrite length_map in Hl.
    + intros i Hi Hin.
      apply uniform_sum_cell; auto using wrap32_add, wrap32_small.
  - rewrite (all_int64_shape _ U) in Hsum.
    remember (map cells_of (a :: rest)) as ls eqn:Hls.
    destruct ls as [|la lrest]; [discriminate|]. clear Hls.
    cbn [map filled] in Hsum.
    rewrite sum_horizontal_uniform in Hsum.
    2:{ apply orb_true_intro. right. cbn [forallb is_int64 andb].
        rewrite map_map. clear. induction lrest; simpl; auto. }
    rewrite map_map in Hsum.
    rewrite <- (map_map (map zero_if_null) Int64) in Hsum.
    rewrite add_all_int64 in Hsum. apply Ok_inj in Hsum. subst tsum.
    cbn [cast_int32] in Lout.
    eexists. split; [exact Lout|]. split.
    + rewrite length_map.
      destruct (fold_zip_length_le wrap64 (map (map zero_if_null) lrest)
                  (map zero_if_null la)) as [H1 H2].
      rewrite length_map in H1. constructor; [exact H1|].
      rewrite Forall_map in H2. eapply Forall_impl; [|exact H2].
      intros l Hl. cbn beta in Hl. now rewrite length_map in Hl.
    + intros i Hi Hin. rewrite length_map in Hi.
      rewrite nth_map_bind_narrow.
      rewrite uniform_sum_cell; auto using wrap64_add, wrap64_small.
      unfold opt_bind, narrow. now rewrite Hin.
Qed.

End TurnoversInResult.

Section MixedWidths.
Import Polars MapperSpec.
Variable E : Engine.
Variable i : nat.

Lemma zabs_nonneg (vs : list Z) : (0 <= zabs vs)%Z.
Proof. induction vs; simpl; lia. Qed.

Lemma zsum_le_zabs (vs : list Z) : (Z.abs (zsum vs) <= zabs vs)%Z.
Proof. induction vs; simpl; lia. Qed.

Lemma nth_some_lt {A : Type} (l : list (option A)) (x : A) :
  nth i l None = Some x -> i < length l.
Proof.
  intros H. destruct (Nat.lt_ge_cases i (length l)) as [|Hge]; [assumption|].
  rewrite nth_overflow in H by exact Hge. discriminate.
Qed.

Lemma small_in_int32 (t b : Z) :
  (Z.abs t <= b)%Z -> in_int32 b = true -> in_int32 t = true.
Proof.
  intros H Hb. apply in_int32_bounds in Hb. apply in_int32_bounds. lia.
Qed.

Lemma add_int_cell (a b : Series) (x y : Z) :
  int_cell i a x -> int_cell i b y -> in_int32 (x + y) = true ->
  exists s, add E a b = Ok s /\ int_cell i s (x + y).
Proof.
  intros [Ia Ha] [Ib Hb] Hin.
  destruct a as [la|la| | |]; try discriminate;
    destruct b as [lb|lb| | |]; try discriminate;
    cbn [cells_of] in Ha, Hb; cbn [add];
    eexists; (split; [reflexivity|]); (split; [reflexivity|]);
    cbn [cells_of];
    (rewrite zip_add_nth
       by (rewrite zip_add_length;
           pose proof (nth_some_lt _ _ Ha); pose proof (nth_some_lt _ _ Hb);
           lia));
    rewrite Ha, Hb; f_equal;
    auto using wrap32_small, wrap64_small.
Qed.

Lemma add_all_int_cell (rest : list Series) (ys : list Z) (acc : Series)
    (x b : Z) :
  int_cell i acc x -> Forall2 (int_cell i) rest ys ->
  (Z.abs x + zabs ys <= b)%Z -> in_int32 b = true ->
  exists s, add_all E acc rest = Ok s /\ int_cell i s (x + zsum ys).
Proof.
  intros Hacc F. revert acc x Hacc.
  induction F as [|c y rest ys Hc F IH]; intros acc x Hacc Hb Hin.
  - cbn [add_all zsum fold_right]. exists acc. split; [reflexivity|].
    now rewrite Z.add_0_r.
  - cbn [zabs fold_right] in Hb. fold (zabs ys) in Hb.
    pose proof (zabs_nonneg ys).
    destruct (add_int_cell acc c x y Hacc Hc) as (s & Hs & Hcell).
    { apply (small_in_int32 _ b); [lia | exact Hin]. }
    cbn [add_all]. rewrite Hs. cbn [bind].
    destruct (IH s (x + y)%Z Hcell) as (s' & Hs' & Hcell'); [lia | exact Hin|].
    exists s'. split; [exact Hs'|].
    cbn [zsum fold_right]. fold (zsum ys).
    now rewrite Z.add_assoc.
Qed.

Lemma add_at_int_cell (cs : list Series) (vs : list Z) (j : nat) (b : Z) :
  Forall2 (int_cell i) cs vs ->
  (zabs vs <= b)%Z -> in_int32 b = true ->
  j + 1 < length cs ->
  exists cs' vs',
    add_at E j cs = Ok cs'
    /\ Forall2 (int_cell i) cs' vs'
    /\ zsum vs' = zsum vs /\ (zabs vs' <= zabs vs)%Z
    /\ S (length cs') = length cs.
Proof.
  intros F. revert j.
  induction F as [|a x cs vs Ha F IH]; intros j Hb Hin Hj;
    [simpl in Hj; lia|].
  destruct F as [|c y cs vs Hc F]; [simpl in Hj; lia|].
  cbn [zabs fold_right] in Hb. fold (zabs vs) in Hb.
  pose proof (zabs_nonneg vs).
  destruct j as [|j].
  - destruct (add_int_cell a c x y Ha Hc) as (s & Hs & Hcell).
    { apply (small_in_int32 _ b); [lia | exact Hin]. }
    cbn [add_at]. rewrite Hs. cbn [bind].
    exists (s :: cs), ((x + y)%Z :: vs). split; [reflexivity|].
    split; [now constructor|].
    unfold zsum, zabs in *. cbn [fold_right length] in *. repeat split; lia.
  - destruct (IH j) as (cs' & vs' & H1 & F' & S1 & A1 & L1).
    + cbn [zabs fold_right]. fold (zabs vs). lia.
    + exact Hin.
    + cbn [length] in *. lia.
    + cbn [add_at]. cbn [add_at] in H1. rewrite H1. cbn [bind].
      exists (a :: cs'), (x :: vs'). split; [reflexivity|].
      split; [now constructor|].
      unfold zsum, zabs in *. cbn [fold_right length] in *.
      repeat split; lia.
Qed.

Lemma add_neighbours_int_cell (steps : nat) (cs : list Series) (vs : list Z)
    (b : Z) :
  Forall2 (int_cell i) cs vs ->
  (zabs vs <= b)%Z -> in_int32 b = true ->
  length cs = S steps ->
  exists s, add_neighbours E steps cs = Ok [s] /\ int_cell i s (zsum vs).
Proof.
  revert cs vs. induction steps as [|steps IH]; intros cs vs F Hb Hin Hl.
  - destruct F as [|a x cs vs Ha F]; [discriminate|].
    destruct F; [|discriminate].
    exists a. split; [reflexivity|].
    cbn [zsum fold_right]. now rewrite Z.add_0_r.
  - cbn [add_neighbours].
    destruct (add_at_int_cell cs vs
                (sum_pick E (S (S steps)) mod S steps) b F Hb Hin)
      as (cs' & vs' & H1 & F' & S1 & A1 & L1).
    { pose proof (Nat.mod_upper_bound (sum_pick E (S (S steps))) (S steps)
                    ltac:(discriminate)). lia. }
    rewrite H1. cbn [bind].
    destruct (IH cs' vs' F') as (s & Hs & Hcell); [lia | exact Hin | lia|].
    exists s. split; [exact Hs|]. now rewrite <- S1.
Qed.

Lemma sum_horizontal_int_cell (cs : list Series) (vs : list Z) :
  Forall2 (int_cell i) cs vs -> cs <> [] ->
  in_int32 (zabs vs) = true ->
  exists s, sum_horizontal E cs = Ok s /\ int_cell i s (zsum vs).
Proof.
  intros F Hne Hin.
  destruct F as [|a x cs vs Ha F]; [congruence|]. clear Hne.
  destruct F as [|c y cs vs Hc F].
  - exists a. split; [reflexivity|].
    cbn [zsum fold_right]. now rewrite Z.add_0_r.
  - destruct F as [|d z cs vs Hd F].
    + cbn [sum_horizontal zsum fold_right]. rewrite Z.add_0_r.
      apply add_int_cell; [exact Ha | exact Hc|].
      cbn [zabs fold_right] in Hin.
      apply (small_in_int32 _ (Z.abs x + (Z.abs y + 0))%Z); [lia | exact Hin].
    + pose proof (Forall2_cons _ _ Hc (Forall2_cons _ _ Hd F)) as Fr.
      set (rest := c :: d :: cs) in *. set (ys := y :: z :: vs) in *.
      change (sum_horizontal E (a :: rest))
        with (if forallb is_int32 (a :: rest) || forallb is_int64 (a :: rest)
              then add_all E a rest
              else sums <- add_neighbours E (length rest) (a :: rest) ;;
                   match sums with
                   | [s] => Ok s
                   | _ => Raise (InvalidOperationError "no columns")
                   end).
      clearbody rest ys.
      destruct (forallb is_int32 (a :: rest) || forallb is_int64 (a :: rest)).
      * apply (add_all_int_cell rest ys a x (zabs (x :: ys))); auto.
        change (zabs (x :: ys)) with (Z.abs x + zabs ys)%Z. lia.
      * destruct (add_neighbours_int_cell (length rest) (a :: rest) (x :: ys)
                    (zabs (x :: ys)) (Forall2_cons _ _ Ha Fr)
                    (Z.le_refl _) Hin eq_refl)
          as (s & Hs & Hcell).
        rewrite Hs. cbn [bind]. eauto.
Qed.

End MixedWidths.

Section DerivedAnyType.
Import Polars MapperSpec.
Variable E : Engine.

Lemma turnover_cols_filled (df : DataFrame) (names : list string)
    (cols : list Series) :
  TeamDataLoader.turnover_cols E df names = Ok cols ->
  Forall2 (fun s s0 => fill_null_zero E s = Ok s0) (present df names) cols.
Proof.
  unfold present. revert cols.
  induction names as [|c names IH]; intros cols H; simpl in *.
  - apply Ok_inj in H. subst. constructor.
  - destruct (lookup c df) as [s|]; [|now apply IH].
    apply bind_ok in H as (s0 & Hs & H).
    apply bind_ok in H as (rest & Hr & H). apply Ok_inj in H. subst cols.
    simpl. constructor; [exact Hs | now apply IH].
Qed.

(** The turnovers computed from the raw columns, as the result holds
    them. *)
Lemma turnovers_series (df out : DataFrame) :
  TeamDataLoader.prepare_stats E df = Ok out ->
  present_turnovers df <> [] ->
  exists cols tsum,
    Forall2 (fun s s0 => fill_null_zero E s = Ok s0) (present_turnovers df) cols
    /\ sum_horizontal E cols = Ok tsum
    /\ lookup "turnovers" out = Some (cast_int32 E tsum).
Proof.
  intros H Hne. unfold TeamDataLoader.prepare_stats in H.
  apply bind_ok in H as (df1 & H1 & H).
  apply bind_ok in H as (cols & Hc & H).
  apply bind_ok in H as (df2 & H2 & H).
  assert (P1 : present df1 TeamDataLoader.turnover_sources
               = present_turnovers df).
  { unfold present_turnovers, present, TeamDataLoader.turnover_sources.
    cbn [flat_map].
    now rewrite !(total_step_lookup_other E df df1 _ H1) by discriminate. }
  apply turnover_cols_filled in Hc. rewrite P1 in Hc.
  exists cols.
  destruct cols as [|a rest].
  { inversion Hc as [E0|]. congruence. }
  apply bind_ok in H2 as (tsum & Hsum & H2). apply Ok_inj in H2.
  exists tsum. split; [exact Hc|]. split; [exact Hsum|].
  assert (L2 : lookup "turnovers" df2 = Some tsum)
    by (subst df2; apply lookup_with_column_same).
  exact (stats_tail_lookup E df2 out "turnovers" tsum H
           ltac:(discriminate) ltac:(discriminate) eq_refl eq_refl L2).
Qed.

Lemma fold_left_plus (c : list (option Z) -> Z)
    (ls : list (list (option Z))) (x : Z) :
  fold_left (fun t l => (t + c l)%Z) ls x
  = (x + fold_right Z.add 0 (map c ls))%Z.
Proof.
  revert x. induction ls as [|l ls IH]; intros x; simpl; [lia|].
  rewrite IH. lia.
Qed.

Lemma row_total_zsum (ls : list (list (option Z))) (i : nat) :
  row_total ls i = zsum (map (fun l => cell_or_zero (nth i l None)) ls).
Proof. unfold row_total, zsum. now rewrite fold_left_plus. Qed.

Lemma row_abs_total_zabs (ls : list (list (option Z))) (i : nat) :
  row_abs_total ls i = zabs (map (fun l => cell_or_zero (nth i l None)) ls).
Proof.
  unfold row_abs_total, zabs.
  rewrite (fold_left_plus (fun l => Z.abs (cell_or_zero (nth i l None)))).
  induction ls as [|l ls IH]; simpl in *; lia.
Qed.

Lemma filled_int_cells (i : nat) (srcs : list Series) :
  forallb (fun s => is_int32 s || is_int64 s) srcs = true ->
  Forall (fun l => i < length l) (map cells_of srcs) ->
  Forall2 (int_cell i) (map filled srcs)
          (map (fun l => cell_or_zero (nth i l None)) (map cells_of srcs)).
Proof.
  induction srcs as [|s srcs IH]; simpl; intros W F; [constructor|].
  apply andb_prop in W. destruct W as [Ws W].
  inversion F as [|? ? Hi F']; subst.
  constructor; [|now apply IH].
  destruct s as [l|l| | |]; try discriminate; cbn [cells_of] in *;
    (split; [reflexivity|]); cbn [filled cells_of]; now apply filled_nth.
Qed.

Lemma filled_all (srcs cols : list Series) :
  forallb (fun s => is_int32 s || is_int64 s) srcs = true ->
  Forall2 (fun s s0 => fill_null_zero E s = Ok s0) srcs cols ->
  cols = map filled srcs.
Proof.
  intros W F. induction F as [|s s0 srcs cols Hs F IH]; [reflexivity|].
  simpl in W. apply andb_prop in W. destruct W as [Ws W].
  rewrite (fill_null_zero_int E s Ws) in Hs. apply Ok_inj in Hs.
  simpl. f_equal; [now symmetry | now apply IH].
Qed.

(** Integer turnover columns of any widths. *)
Lemma turnovers_any_width (df out : DataFrame) :
  TeamDataLoader.prepare_stats E df = Ok out ->
  present_turnovers df <> [] ->
  forallb (fun s => is_int32 s || is_int64 s) (present_turnovers df) = true ->
  exists cells,
    lookup "turnovers" out = Some (Int32 cells)
    /\ forall i,
         Forall (fun l => i < length l) (map cells_of (present_turnovers df)) ->
         in_int32 (row_abs_total (map cells_of (present_turnovers df)) i)
         = true ->
         nth i cells None
         = Some (row_total (map cells_of (present_turnovers df)) i).
Proof.
  intros H Hne W.
  destruct (turnovers_series df out H Hne) as (cols & tsum & Hc & Hsum & L).
  apply (filled_all _ _ W) in Hc. subst cols.
  destruct (cast_int32_is_int32 E tsum) as (cells & Hcells).
  exists cells. split; [now rewrite L, Hcells|].
  intros i Hi Hin.
  rewrite row_abs_total_zabs in Hin. rewrite row_total_zsum.
  remember (map (fun l => cell_or_zero (nth i l None))
                (map cells_of (present_turnovers df))) as vs eqn:Hvs.
  destruct (sum_horizontal_int_cell E i (map filled (present_turnovers df)) vs)
    as (s & Hs & Is & Cs).
  - subst vs. now apply filled_int_cells.
  - destruct (present_turnovers df); [congruence | discriminate].
  - exact Hin.
  - rewrite Hsum in Hs. apply Ok_inj in Hs. subst s.
    assert (Hz : in_int32 (zsum vs) = true)
      by (apply (small_in_int32 _ (zabs vs)); [apply zsum_le_zabs | exact Hin]).
    destruct tsum as [l|l| | |]; try discriminate; cbn [cast_int32] in Hcells;
      injection Hcells as <-; cbn [cells_of] in Cs.
    + exact Cs.
    + rewrite nth_map_bind_narrow, Cs. cbn [opt_bind]. unfold narrow.
      now rewrite Hz.
Qed.

Lemma zip_float_add_length (a b : list (option spec_float)) :
  length (zip_float_add a b) = Nat.min (length a) (length b).
Proof.
  revert b. induction a as [|x a IH]; intros [|y b]; simpl; auto.
Qed.

Lemma zip_float_add_nth (a b : list (option spec_float)) (i : nat) :
  i < length (zip_float_add a b) ->
  nth i (zip_float_add a b) None
  = match nth i a None, nth i b None with
    | Some u, Some v => Some (float_add u v)
    | _, _ => None
    end.
Proof.
  revert b i. induction a as [|x a IH]; intros [|y b] i; simpl; try lia.
  destruct i as [|i]; [reflexivity|]. intros H. apply IH. lia.
Qed.

Lemma float_filled_nth (l : list (option spec_float)) (i : nat) :
  i < length l ->
  nth i (map float_zero_if_null l) None = Some (float_or_zero (nth i l None)).
Proof.
  revert i. induction l as [|c l IH]; intros i; simpl; [lia|].
  destruct i as [|i]; [now destruct c|]. intros H. apply IH. lia.
Qed.

Lemma nth_map_cast_float (l : list (option spec_float)) (i : nat) :
  nth i (map (fun c => opt_bind (opt_bind c int_of_float) narrow) l) None
  = opt_bind (opt_bind (nth i l None) int_of_float) narrow.
Proof.
  revert i. induction l as [|c l IH]; intros [|i]; simpl; auto.
Qed.

(** The total of two float columns, as the result holds it. *)
Lemma total_yards_of_floats (df out : DataFrame)
    (p r : list (option spec_float)) :
  TeamDataLoader.prepare_stats E df = Ok out ->
  lookup "passing_yards" df = Some (Float64 p) ->
  lookup "rushing_yards" df = Some (Float64 r) ->
  exists cells,
    lookup "total_yards" out = Some (Int32 cells)
    /\ length cells = Nat.min (length p) (length r)
    /\ forall i, i < length cells ->
         nth i cells None
         = opt_bind (float_trunc (float_add (float_or_zero (nth i p None))
                                             (float_or_zero (nth i r None))))
                    narrow.
Proof.
  intros H LP LR.
  destruct (total_yards_series E df out _ _ H LP LR) as (total & Ht & L).
  cbn [fill_null_zero bind add] in Ht. apply Ok_inj in Ht. subst total.
  cbn [cast_int32] in L.
  eexists. split; [exact L|]. split.
  - now rewrite length_map, zip_float_add_length, !length_map.
  - intros i Hi.
    rewrite length_map, zip_float_add_length, !length_map in Hi.
    rewrite nth_map_cast_float.
    rewrite zip_float_add_nth
      by (rewrite zip_float_add_length, !length_map; exact Hi).
    rewrite !float_filled_nth by lia.
    reflexivity.
Qed.

End DerivedAnyType.

Section DerivedTheorem.
Import Polars MapperSpec.

(** C9, as the code has it.  Whenever the statistics branch returns a
    table, [total_yards] is the cast to 32-bit integers of
    [passing_yards.fill_null(0) + rushing_yards.fill_null(0)], computed
    from the raw columns before the selection, whatever their types.
    With integer columns it holds, row by row, the sum of the two with
    nulls read as zero whenever that sum is a 32-bit integer (250 and 80
    give 330); a sum that is not becomes null when it was computed in 64
    bits and wraps around when both columns are 32-bit.  With float
    columns it holds the integer part of the float sum.  [turnovers] is
    the cast of [sum_horizontal] over the turnover columns the raw table
    has, nulls filled with zero; with integer columns it holds their sum
    whenever the absolute values add up to a 32-bit integer, and with
    columns of one integer type whenever the sum itself is one. *)
Theorem stats_derived_columns (E : Engine) (df out : DataFrame) :
  TeamDataLoader.prepare_for_upload E df "stats" = Ok out ->
  (forall P R,
     lookup "passing_yards" df = Some P ->
     lookup "rushing_yards" df = Some R ->
     (exists total,
        (p0 <- fill_null_zero E P ;; r0 <- fill_null_zero E R ;; add E p0 r0)
        = Ok total
        /\ lookup "total_yards" out = Some (cast_int32 E total))
     /\ (forall p r,
           int_cells P = Some p -> int_cells R = Some r ->
           exists cells,
             lookup "total_yards" out = Some (Int32 cells)
             /\ length cells = Nat.min (length p) (length r)
             /\ (forall i, i < length cells ->
                   nth i cells None
                   = derived_cell (is_int32 P && is_int32 R)
                       (cell_or_zero (nth i p None)
                        + cell_or_zero (nth i r None)))
             /\ (forall i, i < length cells ->
                   in_int32 (cell_or_zero (nth i p None)
                             + cell_or_zero (nth i r None)) = true ->
                   nth i cells None
                   = Some (cell_or_zero (nth i p None)
                           + cell_or_zero (nth i r None))%Z)
             /\ (forall i, i < length cells ->
                   nth i p None = Some 250%Z -> nth i r None = Some 80%Z ->
                   nth i cells None = Some 330%Z))
     /\ (forall p r,
           P = Float64 p -> R = Float64 r ->
           exists cells,
             lookup "total_yards" out = Some (Int32 cells)
             /\ length cells = Nat.min (length p) (length r)
             /\ forall i, i < length cells ->
                  nth i cells None
                  = opt_bind
                      (float_trunc
                         (float_add (float_or_zero (nth i p None))
                                    (float_or_zero (nth i r None))))
                      narrow))
  /\ (present_turnovers df <> [] ->
      (exists cols tsum,
         Forall2 (fun s s0 => fill_null_zero E s = Ok s0)
                 (present_turnovers df) cols
         /\ sum_horizontal E cols = Ok tsum
         /\ lookup "turnovers" out = Some (cast_int32 E tsum))
      /\ (forallb (fun s => is_int32 s || is_int64 s) (present_turnovers df)
          = true ->
          exists cells,
            lookup "turnovers" out = Some (Int32 cells)
            /\ forall i,
                 Forall (fun l => i < length l)
                        (map cells_of (present_turnovers df)) ->
                 in_int32 (row_abs_total (map cells_of (present_turnovers df)) i)
                 = true ->
                 nth i cells None
                 = Some (row_total (map cells_of (present_turnovers df)) i))
      /\ (forallb is_int32 (present_turnovers df)
          || forallb is_int64 (present_turnovers df) = true ->
          exists cells,
            lookup "turnovers" out = Some (Int32 cells)
            /\ Forall (fun l => length cells <= length l)
                      (map cells_of (present_turnovers df))
            /\ forall i, i < length cells ->
                 in_int32 (row_total (map cells_of (present_turnovers df)) i)
                 = true ->
                 nth i cells None
                 = Some (row_total (map cells_of (present_turnovers df)) i))).
Proof.
  rewrite dispatch_stats. intros H. split.
  - intros P R LP LR. split; [now apply (total_yards_series E df out)|]. split.
    + intros p r IP IR.
      destruct (total_yards_in_result E df out P R p r H LP LR IP IR)
        as (cells & L & Hlen & Hcells).
      exists cells. split; [exact L|]. split; [exact Hlen|].
      split; [exact Hcells|]. split.
      * intros i Hi Hin. rewrite (Hcells i Hi).
        now apply derived_cell_in_range.
      * intros i Hi Hp Hr. rewrite (Hcells i Hi), Hp, Hr.
        now apply derived_cell_in_range.
    + intros p r -> ->. now apply (total_yards_of_floats E df out).
  - intros Hne. split; [now apply (turnovers_series E df out)|]. split.
    + now apply (turnovers_any_width E df out).
    + now apply (turnovers_in_result E).
Qed.

End DerivedTheorem.

Lemma stats_derived_columns_witness :
  (exists out,
     TeamDataLoader.prepare_for_upload MapperSpec.reference_engine
       MapperSpec.raw_team_stats "stats" = Ok out
     /\ (exists cells,
           Polars.lookup "total_yards" out = Some (Polars.Int32 cells)
           /\ nth 0 cells None = Some 330%Z)
     /\ Polars.lookup "turnovers" out
        = Some (Polars.Int32 [Some 2%Z; Some 2%Z]))
  /\ (exists out,
        TeamDataLoader.prepare_for_upload MapperSpec.reference_engine
          MapperSpec.raw_team_week "stats" = Ok out
        /\ Polars.lookup "total_yards" out
           = Some (Polars.Int32 [Some 330%Z; Some 331%Z])
        /\ (exists cells,
              Polars.lookup "turnovers" out = Some (Polars.Int32 cells)
              /\ nth 0 cells None = Some 2%Z /\ nth 1 cells None = Some 3%Z)).
Proof.
  split.
  - eexists. split; [vm_compute; reflexivity|]. split; [|reflexivity].
    destruct (proj1 (proj2 (proj1
                (stats_derived_columns MapperSpec.reference_engine
                   MapperSpec.raw_team_stats _ eq_refl)
                _ _ eq_refl eq_refl)) _ _ eq_refl eq_refl)
      as (cells & L & Hlen & _ & _ & H330).
    exists cells. split; [exact L|].
    apply H330; [rewrite Hlen; cbn; lia | reflexivity | reflexivity].
  - eexists. split; [vm_compute; reflexivity|]. split; [reflexivity|].
    destruct (proj1 (proj2 (proj2
                (stats_derived_columns MapperSpec.reference_engine
                   MapperSpec.raw_team_week _ eq_refl) ltac:(discriminate))) eq_refl)
      as (cells & L & Hcells).
    exists cells. split; [exact L|].
    split; apply Hcells; try reflexivity; repeat constructor.
Defined.

(** With columns of two widths a sum within 32 bits can still be lost:
    when the two 32-bit columns are added first, their sum wraps around.
    Whether they are added first depends on where they stand and on the
    order in which the engine adds. *)
Lemma turnovers_partial_sum_wraps :
  (exists out,
     TeamDataLoader.prepare_for_upload MapperSpec.reference_engine
       MapperSpec.wrapping_turnovers "stats" = Ok out
     /\ Polars.lookup "turnovers" out = Some (Polars.Int32 [None]))
  /\ MapperSpec.row_total
       (map MapperSpec.cells_of
            (MapperSpec.present_turnovers MapperSpec.wrapping_turnovers)) 0
     = 2147483647%Z
  /\ (exists out,
        TeamDataLoader.prepare_for_upload
          (MapperSpec.right_first MapperSpec.reference_engine)
          MapperSpec.wrapping_turnovers_right "stats" = Ok out
        /\ Polars.lookup "turnovers" out = Some (Polars.Int32 [None]))
  /\ MapperSpec.row_total
       (map MapperSpec.cells_of
            (MapperSpec.present_turnovers MapperSpec.wrapping_turnovers_right))
       0
     = 2147483647%Z.
Proof.
  split; [eexists; split; [vm_compute; reflexivity | reflexivity]|].
  split; [reflexivity|].
  split; [eexists; split; [vm_compute; reflexivity | reflexivity]|].
  reflexivity.
Qed.

(** A total that does not fit 32 bits is null in the result, not the
    sum. *)
Lemma total_yards_out_of_range_is_null :
  exists out,
    TeamDataLoader.prepare_for_upload MapperSpec.reference_engine
      MapperSpec.raw_team_stats "stats" = Ok out
    /\ Polars.lookup "passing_yards" out
       = Some (Polars.Int32 [Some 250%Z; Some 2000000000%Z])
    /\ Polars.lookup "rushing_yards" out
       = Some (Polars.Int32 [Some 80%Z; Some 2000000000%Z])
    /\ Polars.lookup "total_yards" out = Some (Polars.Int32 [Some 330%Z; None])
    /\ @None Z <> Some (2000000000 + 2000000000)%Z.
Proof.
  eexists. split; [vm_compute; reflexivity|].
  repeat split. discriminate.
Defined.

(** ** The filtered reader *)

Section ReaderFacts.
Import SupabaseClient ReaderSpec.

Lemma query_eq_fold (items : list (string * PyValue)) (q : SelectQuery) :
  fold_left (fun q item => query_eq q (fst item) (snd item)) items q
  = mkSelect (s_table q) (s_columns q) (s_filters q ++ items).
Proof.
  revert q. induction items as [|[c v] items IH]; intros q; simpl.
  - rewrite app_nil_r. now destruct q.
  - rewrite IH. simpl. now rewrite <- app_assoc.
Qed.

(** The request that [query] sends carries the filters of the mapping,
    in its order, and nothing else. *)
Lemma query_request (E : Polars.Engine)
    (fetch : SelectQuery -> result (list Record)) (table_name : string)
    (filters : option (list (string * PyValue))) :
  query E fetch table_name filters
  = (data <- fetch (mkSelect table_name "*" (items filters)) ;;
     Polars.from_dicts E data).
Proof.
  unfold query. destruct filters as [[|item l]|]; try reflexivity.
  now rewrite query_eq_fold.
Qed.

Lemma filter_all {A : Type} (f : A -> bool) (l : list A) :
  (forall x, In x l -> f x = true) -> List.filter f l = l.
Proof.
  induction l as [|x l IH]; intros H; simpl; [reflexivity|].
  rewrite (H x (or_introl eq_refl)). f_equal. apply IH.
  intros y Hy. apply H. now right.
Qed.

Lemma filter_none {A : Type} (f : A -> bool) (l : list A) :
  (forall x, In x l -> f x = false) -> List.filter f l = [].
Proof.
  induction l as [|x l IH]; intros H; simpl; [reflexivity|].
  rewrite (H x (or_introl eq_refl)). apply IH.
  intros y Hy. apply H. now right.
Qed.

Lemma capped_nil (cap : option nat) : capped cap [] = [].
Proof. destruct cap as [n|]; [apply firstn_nil | reflexivity]. Qed.

Lemma capped_within (cap : option nat) (rows : list Record) :
  match cap with Some n => length rows <= n | None => True end ->
  capped cap rows = rows.
Proof.
  destruct cap as [n|]; simpl; [apply firstn_all2 | reflexivity].
Qed.

(** C8, as the code and the store have it.  [query] sends one select
    request that carries exactly the filters of the mapping; an absent
    or empty mapping sends none.  Against a store that answers with the
    rows satisfying every filter, up to its cap on the rows of one
    request, the result is the frame built from those rows: all rows of
    the table for an absent or empty mapping, and exactly the matching
    rows otherwise, provided they are within the cap; when no row
    matches, the result is the empty frame and no error. *)
Theorem reader_returns_matching_rows (E : Polars.Engine) (db : Store)
    (table_name : string) (filters : option (list (string * PyValue))) :
  query E (store_select db) table_name filters
  = Polars.from_dicts E
      (capped (max_rows db) (matching db table_name (items filters)))
  /\ (items filters = [] ->
      matching db table_name (items filters) = tables db table_name)
  /\ (forall r, In r (matching db table_name (items filters)) <->
                In r (tables db table_name)
                /\ forall c v, In (c, v) (items filters) ->
                               matches r (c, v) = true)
  /\ (match max_rows db with
      | Some n => length (matching db table_name (items filters)) <= n
      | None => True
      end ->
      query E (store_select db) table_name filters
      = Polars.from_dicts E (matching db table_name (items filters)))
  /\ ((forall r, In r (tables db table_name) ->
                 matches_all (items filters) r = false) ->
      query E (store_select db) table_name filters = Ok []).
Proof.
  assert (Q : query E (store_select db) table_name filters
              = Polars.from_dicts E
                  (capped (max_rows db)
                          (matching db table_name (items filters)))).
  { rewrite query_request. reflexivity. }
  split; [exact Q|]. split; [|split; [|split]].
  - intros ->. unfold matching. now apply filter_all.
  - intros r. unfold matching. rewrite filter_In. unfold matches_all.
    rewrite forallb_forall. split; intros [H1 H2]; (split; [exact H1|]).
    + intros c v Hcv. now apply H2.
    + intros [c v] Hcv. now apply H2.
  - intros H. now rewrite Q, capped_within.
  - intros H. rewrite Q. unfold matching.
    now rewrite (filter_none _ _ H), capped_nil.
Qed.

End ReaderFacts.

Lemma reader_returns_matching_rows_witness :
  (forall r, In r (SupabaseClient.tables ReaderSpec.capped_store "play_by_play") ->
             SupabaseClient.matches_all
               (ReaderSpec.items (Some [("season", PyInt 2024)])) r = false)
  /\ SupabaseClient.query MapperSpec.reference_engine
       (SupabaseClient.store_select ReaderSpec.capped_store)
       "play_by_play" (Some [("season", PyInt 2024)]) = Ok [].
Proof.
  assert (H : forall r,
             In r (SupabaseClient.tables ReaderSpec.capped_store "play_by_play") ->
             SupabaseClient.matches_all
               (ReaderSpec.items (Some [("season", PyInt 2024)])) r = false).
  { intros r Hr. apply in_map_iff in Hr. destruct Hr as (n & <- & _).
    reflexivity. }
  split; [exact H|].
  exact (proj2 (proj2 (proj2 (proj2
           (reader_returns_matching_rows MapperSpec.reference_engine
              ReaderSpec.capped_store "play_by_play"
              (Some [("season", PyInt 2024)]))))) H).
Defined.

(** One request to a capped store does not return all rows. *)
Lemma query_is_capped :
  exists out,
    SupabaseClient.query MapperSpec.reference_engine
      (SupabaseClient.store_select ReaderSpec.capped_store)
      "play_by_play" None = Ok out
    /\ Polars.height out = 1000
    /\ length (SupabaseClient.tables ReaderSpec.capped_store "play_by_play")
       = 1001.
Proof.
  eexists. split; [vm_compute; reflexivity|]. split; reflexivity.
Defined.

(** ** Mapping a mapped table again *)

Section SecondPass.
Import Polars MapperSpec.
Variable E : Engine.












(** *** Rows: a frame without null keys is not filtered *)









End SecondPass.

Section SecondPassSteps.
Import Polars MapperSpec.
Variable E : Engine.

Lemma rename_name_cases (mapping : list (string * string)) (c0 : string) :
  rename_name mapping c0 = c0
  \/ exists p, In p mapping /\ rename_name mapping c0 = snd p.
Proof.
  unfold rename_name.
  destruct (find _ mapping) as [p|] eqn:F; [|now left].
  right. exists p. split; [|reflexivity]. now apply find_some in F.
Qed.

Lemma lookup_rename_stable (df df' : DataFrame)
    (mapping : list (string * string)) (c : string) :
  rename df mapping = Ok df' ->
  (forall p, In p mapping -> fst p <> c /\ snd p <> c) ->
  lookup c df' = lookup c df.
Proof.
  intros R H.
  assert (Hc : rename_name mapping c = c).
  { unfold rename_name. destruct (find _ mapping) as [p|] eqn:F; [|reflexivity].
    apply find_some in F. destruct F as [Hp Heq].
    apply String.eqb_eq in Heq. destruct (H p Hp). contradiction. }
  destruct (lookup c df) as [s|] eqn:L.
  - rewrite <- Hc. exact (lookup_rename _ _ _ _ _ R L).
  - destruct (lookup c df') as [x|] eqn:L'; [|reflexivity].
    destruct (lookup_rename_inv _ _ _ _ _ R L') as (c0 & Hn & L0).
    destruct (rename_name_cases mapping c0) as [Hsame|(p & Hp & Hto)].
    + rewrite Hsame in Hn. subst c0. congruence.
    + rewrite Hto in Hn. destruct (H p Hp). contradiction.
Qed.

Lemma lookup_rename_if_stable (df df' : DataFrame) (src dst c : string) :
  (if has_column df src then rename df [(src, dst)] else Ok df) = Ok df' ->
  c <> src -> c <> dst ->
  lookup c df' = lookup c df.
Proof.
  intros R H1 H2. destruct (has_column df src).
  - apply (lookup_rename_stable _ _ _ _ R).
    intros p [<-|[]]. cbn [fst snd]. split; congruence.
  - apply Ok_inj in R. now subst.
Qed.



(** *** Team information *)



(** *** Schedules *)

Lemma schedules_unfold (df : DataFrame) :
  TeamDataLoader.prepare_schedules E df
  = (df1 <- (if has_column (select df (available
                  TeamDataLoader.schedules_schema_columns df)) "gameday"
             then rename (select df (available
                  TeamDataLoader.schedules_schema_columns df))
                         [("gameday", "game_date")]
             else Ok (select df (available
                  TeamDataLoader.schedules_schema_columns df))) ;;
     Ok (cast_int_columns E TeamDataLoader.schedules_int_cols df1)).
Proof. reflexivity. Qed.



End SecondPassSteps.

Section PlayerSecondPass.
Import Polars MapperSpec.
Variable E : Engine.





End PlayerSecondPass.

Section RostersSecondPass.
Import Polars MapperSpec.
Variable E : Engine.





End RostersSecondPass.

Section PlayerInfoSecondPass.
Import Polars MapperSpec.
Variable E : Engine.

Lemma player_info_unfold (df : DataFrame) :
  PlayerStatsLoader.prepare_player_info_for_upload E df
  = (let df1 := if has_column df "gsis_id"
                then filter_not_null df "gsis_id" else df in
     let df2 := match lookup "gsis_id" df1 with
                | Some s => with_column df1 "player_id" s
                | None => df1
                end in
     df3 <- (if has_column df2 "display_name"
             then rename df2 [("display_name", "player_name")]
             else Ok df2) ;;
     let result :=
       cast_int_columns E PlayerStatsLoader.info_int_cols
         (select df3 (available PlayerStatsLoader.info_schema_columns df3)) in
     Ok match lookup "birth_date" result with
        | Some s => with_column result "birth_date" (cast_utf8 E s)
        | None => result
        end).
Proof. reflexivity. Qed.



Lemma lookup_date_cast_other (df : DataFrame) (c : string) :
  c <> "birth_date" ->
  lookup c match lookup "birth_date" df with
           | Some s => with_column df "birth_date" (cast_utf8 E s)
           | None => df
           end = lookup c df.
Proof.
  intros H. destruct (lookup "birth_date" df); [|reflexivity].
  now apply lookup_with_column_other.
Qed.


End PlayerInfoSecondPass.

Section StatsSecondPass.
Import Polars MapperSpec.
Variable E : Engine.








End StatsSecondPass.

Section StatsIdempotence.
Import Polars MapperSpec.
Variable E : Engine.


End StatsIdempotence.

(** ** Deduplicated plays *)

Section Dedup.
Import Polars MapperSpec.

Lemma take_cons {A : Type} (i : nat) (idx : list nat) (l : list A) :
  take (i :: idx) l
  = match nth_error l i with Some x => [x] | None => [] end ++ take idx l.
Proof. reflexivity. Qed.

Lemma take_first_occurrences (seen pre ks : list PyValue) :
  take (first_occurrences seen (length pre) ks) (pre ++ ks) = dedup seen ks.
Proof.
  revert seen pre. induction ks as [|k ks IH]; intros seen pre; simpl;
    [reflexivity|].
  assert (Hs : pre ++ k :: ks = (pre ++ [k]) ++ ks)
    by (now rewrite <- app_assoc).
  assert (Hl : S (length pre) = length (pre ++ [k]))
    by (rewrite length_app; simpl; lia).
  destruct (in_dec PyValue_eq_dec k seen).
  - rewrite Hs, Hl. apply IH.
  - rewrite take_cons. rewrite nth_error_app2 by lia.
    rewrite Nat.sub_diag. simpl. f_equal.
    rewrite Hs, Hl. apply IH.
Qed.

Lemma dedup_fresh (seen ks : list PyValue) (x : PyValue) :
  In x (dedup seen ks) -> ~ In x seen.
Proof.
  revert seen. induction ks as [|k ks IH]; intros seen; simpl; [tauto|].
  destruct (in_dec PyValue_eq_dec k seen) as [Hin|Hin].
  - apply IH.
  - intros [<-|H]; [exact Hin|].
    intros Hx. apply (IH (k :: seen) H). now right.
Qed.

Lemma dedup_NoDup (seen ks : list PyValue) : NoDup (dedup seen ks).
Proof.
  revert seen. induction ks as [|k ks IH]; intros seen; simpl;
    [constructor|].
  destruct (in_dec PyValue_eq_dec k seen); [apply IH|].
  constructor; [|apply IH].
  intros H. apply dedup_fresh in H. apply H. now left.
Qed.


Lemma Permutation_take {A : Type} (a b : list nat) (l : list A) :
  Permutation a b -> Permutation (take a l) (take b l).
Proof. intros H. unfold take. now apply Permutation_flat_map. Qed.

Lemma keys_take (idx : list nat) (s : Series) :
  keys (take_series idx s) = take idx (keys s).
Proof. unfold keys. now rewrite to_list_take, take_map. Qed.

Lemma to_list_length (s : Series) : length (to_list s) = series_len s.
Proof.
  destruct s; simpl; rewrite ?length_map, ?repeat_length; reflexivity.
Qed.

Lemma keys_length (s : Series) : length (keys s) = series_len s.
Proof. unfold keys. now rewrite length_map, to_list_length. Qed.



End Dedup.

Section PbpSecondPass.
Import Polars MapperSpec.
Variable E : Engine.
Hypothesis unique_order_permutes : forall l, Permutation (unique_order E l) l.




End PbpSecondPass.

Section IdempotenceTheorem.
Import Polars MapperSpec.


End IdempotenceTheorem.



(** Mapping mapped team statistics again replaces a null total by a
    wrapped one. *)
Lemma stats_second_pass_recomputes_total :
  exists out out2,
    TeamDataLoader.prepare_for_upload MapperSpec.reference_engine
      MapperSpec.raw_team_stats "stats" = Ok out
    /\ TeamDataLoader.prepare_for_upload MapperSpec.reference_engine
         out "stats" = Ok out2
    /\ Polars.lookup "total_yards" out
       = Some (Polars.Int32 [Some 330%Z; None])
    /\ Polars.lookup "total_yards" out2
       = Some (Polars.Int32 [Some 330%Z; Some (-294967296)%Z]).
Proof.
  eexists _, _. split; [vm_compute; reflexivity|].
  split; [vm_compute; reflexivity|]. split; reflexivity.
Qed.

Lemma mapper_output_columns_witness :
  exists out,
    TeamDataLoader.prepare_for_upload MapperSpec.reference_engine
      MapperSpec.raw_roster "rosters" = Ok out
    /\ Polars.columns out
       = MapperSpec.intersection
           (MapperSpec.rosters_columns (Polars.columns MapperSpec.raw_roster))
           TeamDataLoader.rosters_schema_columns
    /\ Polars.columns out
       = ["player_id"; "player_name"; "season"; "team"; "jersey_number";
          "weight"].
Proof.
  eexists. split; [vm_compute; reflexivity|]. split; [|reflexivity].
  apply (proj1 (proj2 (proj2 (proj2
           (mapper_output_columns MapperSpec.reference_engine
              MapperSpec.raw_roster))))).
  vm_compute. reflexivity.
Defined.

(** ** Rows of a filtered frame *)

Section FilteredRows.
Import Polars MapperSpec.

Lemma keep_filter {A : Type} (p : A -> bool) (l : list A) :
  keep (map p l) l = List.filter p l.
Proof.
  induction l as [|x l IH]; simpl; [reflexivity|].
  destruct (p x); now rewrite IH.
Qed.

Lemma keep_seq_ge (mask : list bool) (a n : nat) (i : nat) :
  In i (keep mask (seq a n)) -> a <= i.
Proof.
  revert a n. induction mask as [|b mask IH]; intros a [|n]; simpl;
    try contradiction.
  destruct b; simpl; [intros [<-|H]; [lia|]|intros H];
    apply IH in H; lia.
Qed.

Lemma keep_length_same {A B : Type} (mask : list bool) (l : list A)
    (l' : list B) :
  length l = length l' -> length (keep mask l) = length (keep mask l').
Proof.
  revert l l'. induction mask as [|b mask IH]; intros [|x l] [|y l'] H;
    simpl in *; try discriminate; try reflexivity.
  injection H as H. destruct b; simpl; now rewrite (IH l l' H).
Qed.

(** The [j]-th kept element is the element at the [j]-th kept
    position. *)
Lemma nth_keep (A : Type) (d : A) (mask : list bool) (l : list A)
    (a j : nat) :
  length l = length mask ->
  j < length (keep mask l) ->
  nth j (keep mask l) d
  = nth (nth j (keep mask (seq a (length l))) a - a) l d.
Proof.
  revert l a j. induction mask as [|b mask IH]; intros [|x l] a j Hl Hj;
    simpl in *; try lia; try discriminate.
  injection Hl as Hl. destruct b; simpl in *.
  - destruct j as [|j].
    + now rewrite Nat.sub_diag.
    + rewrite (IH l (S a) j Hl) by lia.
      assert (Hin : In (nth j (keep mask (seq (S a) (length l))) (S a))
                       (keep mask (seq (S a) (length l)))).
      { apply nth_In.
        rewrite (keep_length_same mask (seq (S a) (length l)) l)
          by (now rewrite length_seq). lia. }
      apply keep_seq_ge in Hin.
      replace (nth j (keep mask (seq (S a) (length l))) a)
        with (nth j (keep mask (seq (S a) (length l))) (S a)).
      2:{ apply nth_indep.
          rewrite (keep_length_same mask (seq (S a) (length l)) l)
            by (now rewrite length_seq). lia. }
      destruct (nth j (keep mask (seq (S a) (length l))) (S a) - a)
        as [|m] eqn:Em; [lia|].
      f_equal. lia.
  - rewrite (IH l (S a) j Hl) by lia.
    assert (Hin : In (nth j (keep mask (seq (S a) (length l))) (S a))
                     (keep mask (seq (S a) (length l)))).
    { apply nth_In.
      rewrite (keep_length_same mask (seq (S a) (length l)) l)
        by (now rewrite length_seq). lia. }
    apply keep_seq_ge in Hin.
    replace (nth j (keep mask (seq (S a) (length l))) a)
      with (nth j (keep mask (seq (S a) (length l))) (S a)).
    2:{ apply nth_indep.
        rewrite (keep_length_same mask (seq (S a) (length l)) l)
          by (now rewrite length_seq). lia. }
    destruct (nth j (keep mask (seq (S a) (length l))) (S a) - a)
      as [|m] eqn:Em; [lia|].
    f_equal. lia.
Qed.

Lemma list_as_nth {A : Type} (d : A) (l : list A) :
  l = map (fun j => nth j l d) (seq 0 (length l)).
Proof.
  induction l as [|x l IH]; simpl; [reflexivity|].
  f_equal. rewrite <- seq_shift, map_map. exact IH.
Qed.

Lemma to_dicts_filter (df : DataFrame) (mask : list bool) :
  rectangular df -> length mask = height df ->
  to_dicts (Polars.filter df mask) = keep mask (to_dicts df).
Proof.
  intros Rect Hm. unfold to_dicts. rewrite keep_map.
  remember (keep mask (seq 0 (height df))) as K eqn:HK.
  assert (Hh : height (Polars.filter df mask) = length K).
  { destruct df as [|[n s] df]; simpl in *.
    - destruct mask; [now subst | discriminate].
    - rewrite <- to_list_length, to_list_filter, HK.
      apply keep_length_same. now rewrite length_seq, to_list_length. }
  rewrite Hh. pose proof (list_as_nth 0 K) as EK.
  transitivity (map (row df) (map (fun j => nth j K 0) (seq 0 (length K))));
    [| now rewrite <- EK].
  rewrite map_map.
  apply map_ext_in. intros j Hj. apply in_seq in Hj.
  unfold row, Polars.filter. rewrite map_map. apply map_ext_in.
  intros [n s] Hin. cbn [fst snd]. f_equal.
  unfold rectangular in Rect. rewrite Forall_forall in Rect.
  specialize (Rect _ Hin). cbn [snd] in Rect.
  assert (Hl : length (to_list s) = length mask)
    by (now rewrite to_list_length, Rect).
  rewrite to_list_filter.
  rewrite (nth_keep PyValue PyNone mask (to_list s) 0 j Hl).
  - rewrite Nat.sub_0_r, to_list_length, Rect, <- HK. reflexivity.
  - rewrite (keep_length_same mask (to_list s) (seq 0 (height df)))
      by (now rewrite length_seq, to_list_length).
    rewrite <- HK. lia.
Qed.

Lemma is_not_null_to_list (s : Series) :
  is_not_null s
  = map (fun v => match v with PyNone => false | _ => true end) (to_list s).
Proof.
  destruct s as [l|l|l|l|n]; simpl; rewrite ?map_map;
    try (apply map_ext; now intros [x|]).
  induction n; simpl; [reflexivity | now f_equal].
Qed.

Lemma record_get_row (df : DataFrame) (c : string) (key : Series) (i : nat) :
  lookup c df = Some key ->
  record_get c (row df i) = nth i (to_list key) PyNone.
Proof.
  unfold record_get, row.
  induction df as [|[n s] df IH]; simpl; [discriminate|].
  rewrite (String.eqb_sym n c).
  destruct (String.eqb c n).
  - intros H. apply Some_inj in H. now subst.
  - exact IH.
Qed.


Lemma rectangular_lookup (df : DataFrame) (c : string) (s : Series) :
  rectangular df -> lookup c df = Some s -> series_len s = height df.
Proof.
  intros Rect L. unfold rectangular in Rect. rewrite Forall_forall in Rect.
  exact (Rect _ (lookup_In _ _ _ L)).
Qed.

Lemma filter_series_len (mask : list bool) (s : Series) :
  series_len s = length mask ->
  series_len (filter_series mask s) = count_true mask.
Proof.
  intros H. rewrite <- to_list_length, to_list_filter.
  apply keep_length. now rewrite to_list_length.
Qed.

End FilteredRows.

(** ** Rows without a primary key: what comes out *)

Section Provenance.
Import Polars MapperSpec.
Variable E : Engine.









End Provenance.

Section WholeRows.
Import Polars MapperSpec.
Variable E : Engine.













End WholeRows.

Section NullKeyRows.
Import Polars MapperSpec.


End NullKeyRows.




(* ================================================================= *)
(** * Further properties of the client, the loaders and the scripts *)

Section UploaderEdges.
Import SupabaseClient UploadSpec.

Variable World : Type.
Variable respond : World -> WriteRequest -> World * option string.

Lemma chunk_offsets_nil (k : nat) : 1 <= k -> chunk_offsets 0 k = [].
Proof.
  intros Hk. unfold chunk_offsets.
  replace ((0 + k - 1) / k) with 0; [reflexivity|].
  symmetry. apply Nat.div_small. lia.
Qed.

Lemma chunk_offsets_one (n k : nat) :
  1 <= n <= k -> chunk_offsets n k = [0].
Proof.
  intros H. unfold chunk_offsets.
  replace ((n + k - 1) / k) with 1; [reflexivity|].
  apply Nat.div_unique with (r := n - 1); lia.
Qed.

Lemma chunk_offsets_length (n k : nat) :
  length (chunk_offsets n k) = (n + k - 1) / k.
Proof. unfold chunk_offsets. now rewrite length_map, length_seq. Qed.

(** X1.  A batch size that is not positive: zero makes [range] raise before
    anything is sent, and a negative one makes the loop body never run,
    so the summary reports nothing uploaded and no error while the store
    has not been called. *)
Theorem upload_nonpositive_batch_size (r : Remote World)
    (df : Polars.DataFrame) (t : string) (batch_size : Z) (upsert : bool) :
  (batch_size = 0%Z ->
   upload_dataframe respond r df t batch_size upsert
   = Raise (ValueError "range() arg 3 must not be zero"))
  /\ ((batch_size < 0)%Z ->
      upload_dataframe respond r df t batch_size upsert
      = Ok (r, mkSummary (Polars.height df) 0 0 [])).
Proof.
  split; intros H; unfold upload_dataframe, py_range0.
  - subst. reflexivity.
  - destruct (Z.eqb_spec batch_size 0) as [->|_]; [lia|].
    destruct (Z.ltb_spec batch_size 0); [|lia].
    destruct r. reflexivity.
Qed.

Lemma failed_rows_zero (f : nat -> nat) (es : list ErrorDetail) :
  Forall (fun e => 1 <= f (batch e)) es ->
  list_sum (map (fun e => f (batch e)) es) = 0 -> es = [].
Proof.
  destruct es as [|e es]; [reflexivity|].
  intros F. inversion F; subst. simpl. lia.
Qed.

Lemma chunks_nonempty (records : list Record) (k : nat) :
  1 <= k ->
  Forall (fun i => 1 <= length (chunk records k i))
         (chunk_offsets (length records) k).
Proof.
  intros Hk. apply Forall_forall. intros i Hi.
  unfold chunk_offsets in Hi. apply in_map_iff in Hi.
  destruct Hi as (n & <- & Hn). apply in_seq in Hn.
  pose proof (range_offsets_below (length records) k n Hk ltac:(lia)) as B.
  unfold chunk. rewrite py_slice_length. lia.
Qed.

(** X2.  The summary tells whether everything went through: with a batch
    size of at least one, [uploaded] never exceeds [total_rows], and it
    equals [total_rows] exactly when [errors] is zero. *)
Theorem upload_complete_iff_no_errors (r : Remote World)
    (df : Polars.DataFrame) (t : string) (batch_size : Z) (upsert : bool) :
  (1 <= batch_size)%Z ->
  exists r' s,
    upload_dataframe respond r df t batch_size upsert = Ok (r', s)
    /\ uploaded s <= total_rows s
    /\ (uploaded s = total_rows s <-> errors s = 0)
    /\ (errors s = 0 <-> error_details s = []).
Proof.
  intros H.
  destruct (upload_dataframe_runs World respond r df t batch_size upsert H)
    as (r' & Hrun & _).
  set (k := Z.to_nat batch_size) in *.
  set (records := Polars.to_dicts df) in *.
  set (offs := chunk_offsets (Polars.height df) k) in *.
  set (ans := answers respond (world r) (chunk_writes records t k upsert offs))
    in *.
  assert (Hk : 1 <= k) by (unfold k; lia).
  assert (Hlen : length ans = length offs).
  { unfold ans. rewrite answers_length. unfold chunk_writes.
    now rewrite length_map. }
  pose proof (accepted_plus_failed (fun i => length (chunk records k i))
                offs ans Hlen) as Hsum.
  assert (Htot : list_sum (map (fun i => length (chunk records k i)) offs)
                 = Polars.height df).
  { assert (Hpart : concat (map (chunk records k) offs) = records).
    { unfold offs. rewrite <- to_dicts_length. now apply chunks_partition. }
    rewrite <- map_map, list_sum_lengths, Hpart. apply to_dicts_length. }
  rewrite Htot in Hsum.
  assert (Hne : Forall (fun e => 1 <= length (chunk records k (batch e)))
                       (failures offs ans)).
  { pose proof (failures_in_offsets offs ans) as Hin.
    pose proof (chunks_nonempty records k Hk) as Hpos.
    unfold records at 2 in Hpos. rewrite to_dicts_length in Hpos.
    fold offs in Hpos. rewrite Forall_forall in Hin, Hpos.
    apply Forall_forall. intros e He. apply Hpos, Hin, He. }
  eexists _, _. split; [exact Hrun|]. simpl.
  split; [lia|]. split; [split|split].
  - intros Hu.
    rewrite (failed_rows_zero (fun i => length (chunk records k i)) _ Hne);
      [reflexivity | lia].
  - intros He. apply length_zero_iff_nil in He. rewrite He in Hsum.
    simpl in Hsum. lia.
  - apply length_zero_iff_nil.
  - intros ->. reflexivity.
Qed.

(** X3.  A frame that fits in one batch: nothing is sent for an empty frame,
    and otherwise the store receives a single write that carries every
    row. *)
Theorem upload_within_one_batch (r : Remote World)
    (df : Polars.DataFrame) (t : string) (batch_size : Z) (upsert : bool) :
  (1 <= batch_size)%Z ->
  Polars.height df <= Z.to_nat batch_size ->
  exists r' s,
    upload_dataframe respond r df t batch_size upsert = Ok (r', s)
    /\ calls r'
       = calls r ++ (if Nat.eqb (Polars.height df) 0 then []
                     else [mkWrite upsert t (Polars.to_dicts df)])
    /\ (Polars.height df = 0 -> r' = r /\ s = mkSummary 0 0 0 []).
Proof.
  intros H Hfit.
  destruct (upload_dataframe_runs World respond r df t batch_size upsert H)
    as (r' & Hrun & Hcalls).
  set (k := Z.to_nat batch_size) in *.
  assert (Hk : 1 <= k) by (unfold k; lia).
  destruct (Nat.eqb_spec (Polars.height df) 0) as [E0|N0].
  - clear Hrun Hcalls. unfold upload_dataframe.
    rewrite (py_range0_positive _ _ H). fold k.
    rewrite E0, (chunk_offsets_nil k Hk). cbn [bind fold_left].
    destruct r as [w c]. eexists _, _. split; [reflexivity|].
    cbn. split; [now rewrite app_nil_r|]. intros _. split; reflexivity.
  - rewrite (chunk_offsets_one (Polars.height df) k ltac:(lia)) in Hrun, Hcalls.
    eexists _, _. split; [exact Hrun|]. split; [|intros; lia].
    rewrite Hcalls. unfold chunk_writes. simpl. unfold chunk, py_slice.
    simpl. rewrite Nat.sub_0_r, firstn_all2; [reflexivity|].
    now rewrite to_dicts_length.
Qed.

End UploaderEdges.

Lemma upload_nonpositive_batch_size_witness :
  (-5 < 0)%Z
  /\ SupabaseClient.upload_dataframe UploadDemo.demo_respond
       UploadDemo.demo_remote UploadDemo.demo_df "play_by_play" (-5) true
     = Ok (UploadDemo.demo_remote, SupabaseClient.mkSummary 2500 0 0 []).
Proof.
  assert (H : (-5 < 0)%Z) by lia.
  split; [exact H|].
  exact (proj2 (upload_nonpositive_batch_size nat UploadDemo.demo_respond
                  UploadDemo.demo_remote UploadDemo.demo_df "play_by_play"
                  (-5) true) H).
Defined.

Lemma upload_complete_iff_no_errors_witness :
  (1 <= 1000)%Z
  /\ exists r' s,
       SupabaseClient.upload_dataframe UploadDemo.demo_respond
         UploadDemo.demo_remote UploadDemo.demo_df "play_by_play" 1000 true
       = Ok (r', s)
       /\ (SupabaseClient.uploaded s = SupabaseClient.total_rows s
           <-> SupabaseClient.errors s = 0).
Proof.
  assert (H : (1 <= 1000)%Z) by lia.
  split; [exact H|].
  destruct (upload_complete_iff_no_errors nat UploadDemo.demo_respond
              UploadDemo.demo_remote UploadDemo.demo_df "play_by_play"
              1000 true H)
    as (r' & s & Hrun & _ & Hiff & _).
  exists r', s. split; [exact Hrun | exact Hiff].
Defined.

Lemma upload_within_one_batch_witness :
  (1 <= 5000)%Z
  /\ Polars.height UploadDemo.demo_df <= Z.to_nat 5000
  /\ exists r' s,
       SupabaseClient.upload_dataframe UploadDemo.demo_respond
         UploadDemo.demo_remote UploadDemo.demo_df "play_by_play" 5000 true
       = Ok (r', s)
       /\ length (SupabaseClient.calls r') = 1.
Proof.
  assert (H : (1 <= 5000)%Z) by lia.
  assert (F : Polars.height UploadDemo.demo_df <= Z.to_nat 5000)
    by (vm_compute; lia).
  split; [exact H|]. split; [exact F|].
  destruct (upload_within_one_batch nat UploadDemo.demo_respond
              UploadDemo.demo_remote UploadDemo.demo_df "play_by_play"
              5000 true H F)
    as (r' & s & Hrun & Hcalls & _).
  exists r', s. split; [exact Hrun|].
  rewrite Hcalls. reflexivity.
Defined.

(** ** What the mappers leave in the rows *)

Section MappedRows.
Import Polars MapperSpec.
Variable E : Engine.

(** Every dictionary of a frame whose key column is a filtered key has
    a key. *)
Lemma keyed_records (out : DataFrame) (c : string) (key : Series) :
  lookup c out = Some (filter_series (is_not_null key) key) ->
  height out = count_not_null key ->
  Forall (fun r => key_present c r = true) (to_dicts out).
Proof.
  intros L Hh. apply Forall_forall. intros r Hr.
  unfold to_dicts in Hr. apply in_map_iff in Hr.
  destruct Hr as (i & <- & Hi). apply in_seq in Hi.
  unfold key_present. rewrite (record_get_row out c _ i L).
  rewrite to_list_filter, is_not_null_to_list, keep_filter.
  assert (Hlen : i < length (List.filter
                   (fun v => match v with PyNone => false | _ => true end)
                   (to_list key))).
  { rewrite <- keep_filter, <- is_not_null_to_list, <- to_list_filter.
    rewrite to_list_length, filtered_key_len. lia. }
  pose proof (nth_In _ PyNone Hlen) as Hin.
  apply filter_In in Hin. exact (proj2 Hin).
Qed.

Lemma dedup_In (seen ks : list PyValue) (v : PyValue) :
  In v (dedup seen ks) <-> In v ks /\ ~ In v seen.
Proof.
  revert seen. induction ks as [|k ks IH]; intros seen; simpl; [tauto|].
  destruct (in_dec PyValue_eq_dec k seen) as [Hin|Hin].
  - rewrite IH. split; [tauto|].
    intros [[<-|H] Hs]; [contradiction | tauto].
  - simpl. rewrite IH. simpl. split.
    + intros [<-|[H Hs]]; [tauto|]. split; [tauto|]. tauto.
    + intros [[<-|H] Hs]; [tauto|].
      destruct (PyValue_eq_dec k v) as [->|Hne]; [tauto|].
      right. split; [exact H|]. intros [?|?]; [contradiction | tauto].
Qed.

Lemma play_id_in_schema :
  mem "play_id" PlayByPlayLoader.key_columns = true
  /\ mem "play_id" PlayByPlayLoader.int_columns = false.
Proof. split; reflexivity. Qed.

Lemma unique_ids (R : DataFrame) (ids : Series) :
  (forall l, Permutation (unique_order E l) l) ->
  lookup "play_id" R = Some ids ->
  exists out_ids,
    lookup "play_id" (if has_column R "play_id"
                      then unique_keep_first E R "play_id" else R)
    = Some out_ids
    /\ Permutation (keys out_ids) (dedup [] (keys ids)).
Proof.
  intros Law LR.
  rewrite (proj2 (lookup_some_mem R "play_id")) by eauto.
  unfold unique_keep_first. rewrite LR.
  eexists. split.
  - unfold take_rows. rewrite lookup_map_snd, LR. reflexivity.
  - rewrite keys_take.
    rewrite <- (take_first_occurrences [] [] (keys ids)).
    apply Permutation_take. apply Law.
Qed.

(** X4.  The play-by-play mapper leaves one row per [play_id]: when the
    engine's [unique] returns the first occurrences in some order, the
    ids of the result are pairwise distinct and are exactly the ids of
    the raw table, a null id included (this mapper does not filter
    nulls), and the result has as many rows as there are distinct
    ids. *)
Theorem pbp_play_ids_distinct (df : DataFrame) (ids : Series) :
  (forall l, Permutation (unique_order E l) l) ->
  lookup "play_id" df = Some ids ->
  exists out_ids,
    lookup "play_id" (PlayByPlayLoader.prepare_for_upload E df) = Some out_ids
    /\ NoDup (keys out_ids)
    /\ (forall v, In v (keys out_ids) <-> In v (keys ids))
    /\ height (PlayByPlayLoader.prepare_for_upload E df)
       = length (dedup [] (keys ids)).
Proof.
  intros Law L.
  pose proof (pbp_columns E df) as Hcols.
  assert (X : exists out_ids,
             lookup "play_id" (PlayByPlayLoader.prepare_for_upload E df)
             = Some out_ids
             /\ Permutation (keys out_ids) (dedup [] (keys ids))).
  { rewrite pbp_unfold. cbv zeta. apply unique_ids; [exact Law|].
    rewrite pbp_cast_frame_lookup.
    rewrite (proj1 play_id_in_schema), (proj2 play_id_in_schema).
    exact L. }
  destruct X as (out_ids & Lout & P).
  exists out_ids. split; [exact Lout|]. split; [|split].
  - apply (Permutation_NoDup (l := dedup [] (keys ids)));
      [apply Permutation_sym; exact P | apply dedup_NoDup].
  - intros v. split; intros H.
    + apply (Permutation_in _ P) in H. apply dedup_In in H. exact (proj1 H).
    + apply (Permutation_in _ (Permutation_sym P)).
      apply dedup_In. split; [exact H | intros []].
  - rewrite (height_of_leading_column _ _
               (tl PlayByPlayLoader.key_columns) _ _ Hcols Lout).
    rewrite <- keys_length. exact (Permutation_length P).
Qed.

(** X5.  The schedules mapper fills [game_date] from the provider's
    [gameday] and from nothing else: the result has a [game_date]
    column exactly when the raw table has [gameday], with the same
    cells, and never a column called [gameday]. *)
Theorem schedules_date_comes_from_gameday (df : DataFrame) :
  exists out,
    TeamDataLoader.prepare_for_upload E df "schedules" = Ok out
    /\ lookup "game_date" out = lookup "gameday" df
    /\ lookup "gameday" out = None.
Proof.
  rewrite dispatch_schedules.
  destruct (schedules_columns_ok E df) as (out & H & _).
  exists out. split; [exact H|].
  rewrite schedules_unfold in H.
  pose proof (lookup_select_available
                TeamDataLoader.schedules_schema_columns df "gameday") as L1.
  pose proof (lookup_select_available
                TeamDataLoader.schedules_schema_columns df "game_date") as L2.
  change (mem "gameday" TeamDataLoader.schedules_schema_columns)
    with true in L1.
  change (mem "game_date" TeamDataLoader.schedules_schema_columns)
    with false in L2.
  assert (N1 : NoDup (columns (select df (available
                        TeamDataLoader.schedules_schema_columns df)))).
  { apply select_NoDup, available_NoDup, schedules_schema_NoDup. }
  remember (select df (available TeamDataLoader.schedules_schema_columns df))
    as df1 eqn:Hdf1.
  apply bind_ok in H as (df2 & R & H). apply Ok_inj in H.
  destruct (has_column df1 "gameday") eqn:G.
  - pose proof (rename_NoDup _ _ _ R) as N2.
    subst out. rewrite (cast_int_columns_map E _ _ N2), !lookup_cast_if.
    change (mem "game_date" TeamDataLoader.schedules_int_cols) with false.
    change (mem "gameday" TeamDataLoader.schedules_int_cols) with false.
    apply lookup_some_mem in G. destruct G as (s & Ls).
    pose proof (lookup_rename _ _ _ _ _ R Ls) as L3.
    change (rename_name [("gameday", "game_date")] "gameday")
      with "game_date" in L3.
    split; [now rewrite L3, <- L1, Ls|].
    destruct (lookup "gameday" df2) as [x|] eqn:Lx; [|reflexivity].
    exfalso. destruct (lookup_rename_inv _ _ _ _ _ R Lx) as (c0 & Hc0 & _).
    unfold rename_name in Hc0. cbn [find fst snd] in Hc0.
    destruct (String.eqb_spec "gameday" c0) as [Heq|Hne];
      [discriminate | congruence].
  - apply Ok_inj in R. subst df2 out.
    rewrite (cast_int_columns_map E _ _ N1), !lookup_cast_if.
    change (mem "game_date" TeamDataLoader.schedules_int_cols) with false.
    change (mem "gameday" TeamDataLoader.schedules_int_cols) with false.
    apply lookup_none_mem in G. rewrite L2, <- L1, G. split; reflexivity.
Qed.

(** X7.  The player-information mapper keeps the provider's id under both
    names: [player_id] is a copy of [gsis_id], whatever [player_id]
    column the raw table had, and both hold the ids that are not
    null. *)
Theorem player_info_keeps_both_ids (df out : DataFrame) (key : Series) :
  lookup "gsis_id" df = Some key ->
  PlayerStatsLoader.prepare_player_info_for_upload E df = Ok out ->
  lookup "player_id" out = lookup "gsis_id" out
  /\ lookup "gsis_id" out = Some (filter_series (is_not_null key) key).
Proof.
  intros Lk H.
  destruct (player_info_drop_null_keys E df out key Lk H) as (Lp & _).
  rewrite Lp. enough (lookup "gsis_id" out
                      = Some (filter_series (is_not_null key) key))
    as X by (now rewrite X).
  rewrite player_info_unfold in H. cbv zeta in H.
  pose proof (lookup_filter_step "gsis_id" df "gsis_id") as L1.
  rewrite Lk in L1. cbn [option_map] in L1. unfold rows_kept in L1.
  rewrite Lk in L1.
  remember (if has_column df "gsis_id"
            then filter_not_null df "gsis_id" else df) as df1 eqn:Hdf1.
  rewrite L1 in H.
  remember (with_column df1 "player_id"
              (filter_series (is_not_null key) key)) as df2 eqn:Hdf2.
  assert (L2 : lookup "gsis_id" df2 = lookup "gsis_id" df1).
  { subst df2. apply lookup_with_column_other. discriminate. }
  apply bind_ok in H as (df3 & R & H). apply Ok_inj in H.
  pose proof (lookup_rename_if_stable _ _ "display_name" "player_name"
                "gsis_id" R ltac:(discriminate) ltac:(discriminate)) as L3.
  assert (L4 : lookup "gsis_id"
                 (cast_int_columns E PlayerStatsLoader.info_int_cols
                    (select df3 (available
                       PlayerStatsLoader.info_schema_columns df3)))
               = lookup "gsis_id" df3).
  { rewrite (select_cast_lookup E _ _ _ _ player_info_schema_NoDup).
    reflexivity. }
  remember (cast_int_columns E PlayerStatsLoader.info_int_cols
              (select df3 (available
                 PlayerStatsLoader.info_schema_columns df3)))
    as res eqn:Hres.
  subst out. rewrite lookup_date_cast_other by discriminate.
  now rewrite L4, L3, L2.
Qed.

End MappedRows.

(** ** Team statistics with points *)

Section ListFacts.

Lemma map_filter_flat {A B : Type} (P : A -> bool) (f : A -> B) (l : list A) :
  map f (List.filter P l) = flat_map (fun x => if P x then [f x] else []) l.
Proof.
  induction l as [|x l IH]; simpl; [reflexivity|].
  destruct (P x); simpl; now rewrite IH.
Qed.

Lemma flat_map_map {A B C : Type} (g : A -> B) (F : B -> list C) (l : list A) :
  flat_map F (map g l) = flat_map (fun x => F (g x)) l.
Proof. induction l as [|x l IH]; simpl; [reflexivity | now rewrite IH]. Qed.

Lemma map_flat_map {A B C : Type} (F : A -> list B) (f : B -> C) (l : list A) :
  map f (flat_map F l) = flat_map (fun x => map f (F x)) l.
Proof.
  induction l as [|x l IH]; simpl; [reflexivity|].
  now rewrite map_app, IH.
Qed.

Lemma flat_map_ext_in {A B : Type} (F G : A -> list B) (l : list A) :
  (forall x, In x l -> F x = G x) -> flat_map F l = flat_map G l.
Proof.
  induction l as [|x l IH]; simpl; intros H; [reflexivity|].
  rewrite (H x) by now left. f_equal. apply IH. intros y Hy. apply H. now right.
Qed.

Lemma seq_shifted (a k n : nat) :
  seq (a + k) n = map (fun j => j + k) (seq a n).
Proof.
  revert a. induction n as [|n IH]; intros a; simpl; [reflexivity|].
  f_equal. exact (IH (S a)).
Qed.

Lemma take_valid {A : Type} (d : A) (idx : list nat) (l : list A) :
  Forall (fun i => i < length l) idx ->
  Polars.take idx l = map (fun i => nth i l d) idx.
Proof.
  induction idx as [|i idx IH]; intros F; [reflexivity|].
  inversion F as [|? ? Hi F']; subst.
  rewrite take_cons, (IH F'). simpl.
  now rewrite (nth_error_nth' l d Hi).
Qed.

Lemma map_as_nth {A B : Type} (d : A) (F : A -> B) (l : list A) :
  map F l = map (fun k => F (nth k l d)) (seq 0 (length l)).
Proof.
  rewrite (list_as_nth d l) at 1. now rewrite map_map.
Qed.

End ListFacts.

Section FrameRows.
Import Polars MapperSpec Frames.

Lemma to_list_gather (idx : list (option nat)) (s : Series) :
  to_list (gather idx s)
  = map (fun o => match o with Some j => cell s j | None => PyNone end) idx.
Proof.
  unfold cell.
  destruct s as [l|l|l|l|n]; simpl; rewrite ?map_map;
    try (apply map_ext; intros [j|]; [|reflexivity]).
  - exact (eq_sym (map_nth py_of_int l None j)).
  - exact (eq_sym (map_nth py_of_int l None j)).
  - exact (eq_sym (map_nth py_of_float l None j)).
  - exact (eq_sym (map_nth py_of_str l None j)).
  - induction idx as [|o idx IH]; simpl; [reflexivity|].
    rewrite IH. f_equal. destruct o as [j|]; [|reflexivity].
    symmetry. apply nth_repeat.
Qed.

Lemma row_app (a b : DataFrame) (k : nat) :
  row (a ++ b) k = row a k ++ row b k.
Proof. unfold row. apply map_app. Qed.

Lemma height_app (a b : DataFrame) :
  a <> [] -> height (a ++ b) = height a.
Proof. destruct a as [|[n s] a]; [congruence | reflexivity]. Qed.

Lemma row_take_rows (df : DataFrame) (idx : list nat) (k : nat) :
  rectangular df ->
  Forall (fun i => i < height df) idx ->
  k < length idx ->
  row (take_rows idx df) k = row df (nth k idx 0).
Proof.
  intros Rect F Hk. unfold row, take_rows. rewrite map_map.
  apply map_ext_in. intros [n s] Hin. cbn [fst snd]. f_equal.
  unfold rectangular in Rect. rewrite Forall_forall in Rect.
  specialize (Rect _ Hin). cbn [snd] in Rect.
  rewrite to_list_take, (take_valid PyNone).
  - rewrite (nth_indep _ PyNone (nth 0 (to_list s) PyNone))
      by (now rewrite length_map).
    exact (map_nth (fun i => nth i (to_list s) PyNone) idx 0 k).
  - rewrite to_list_length, Rect. exact F.
Qed.

Lemma height_take_rows (df : DataFrame) (idx : list nat) :
  rectangular df -> df <> [] ->
  Forall (fun i => i < height df) idx ->
  height (take_rows idx df) = length idx.
Proof.
  intros Rect Hne F. destruct df as [|[n s] df]; [congruence|].
  simpl in *. rewrite <- to_list_length, to_list_take.
  rewrite (take_valid PyNone), length_map; [reflexivity|].
  now rewrite to_list_length.
Qed.

Lemma take_rows_nonempty (df : DataFrame) (idx : list nat) :
  df <> [] -> take_rows idx df <> [].
Proof. destruct df; [congruence | discriminate]. Qed.

(** The dictionaries of a joined frame: the left row, then the gathered
    cell. *)
Lemma to_dicts_joined (df : DataFrame) (pairs : list (nat * option nat))
    (name : string) (p : Series) :
  rectangular df -> df <> [] ->
  Forall (fun q => fst q < height df) pairs ->
  to_dicts (take_rows (map fst pairs) df
            ++ [(name, gather (map snd pairs) p)])
  = map (fun q => row df (fst q)
                  ++ [(name, match snd q with
                             | Some j => cell p j
                             | None => PyNone
                             end)])
        pairs.
Proof.
  intros Rect Hne F.
  assert (Fi : Forall (fun i => i < height df) (map fst pairs)).
  { apply Forall_forall. intros i Hi. apply in_map_iff in Hi.
    destruct Hi as (q & <- & Hq). rewrite Forall_forall in F. now apply F. }
  unfold to_dicts.
  rewrite (height_app _ _ (take_rows_nonempty df _ Hne)).
  rewrite (height_take_rows df _ Rect Hne Fi), length_map.
  etransitivity; [|symmetry; apply (map_as_nth (0, None))].
  apply map_ext_in. intros k Hk. apply in_seq in Hk.
  rewrite row_app. f_equal.
  - rewrite (row_take_rows df _ k Rect Fi) by (rewrite length_map; lia).
    f_equal. exact (map_nth fst pairs (0, None) k).
  - unfold row. cbn [map fst snd]. f_equal. f_equal.
    rewrite to_list_gather.
    rewrite (nth_indep _ PyNone
               ((fun o : option nat =>
                   match o with Some j => cell p j | None => PyNone end)
                  (snd (0, None : option nat))))
      by (rewrite !length_map; lia).
    rewrite map_map.
    exact (map_nth (fun q : nat * option nat =>
                      match snd q with
                      | Some j => cell p j
                      | None => PyNone
                      end) pairs (0, None) k).
Qed.

Lemma left_join_rows_valid (lk rk : list Series) (nl nr : nat) :
  Forall (fun q => fst q < nl) (left_join_rows lk rk nl nr).
Proof.
  apply Forall_forall. intros q Hq. unfold left_join_rows in Hq.
  apply in_flat_map in Hq. destruct Hq as (i & Hi & Hq).
  apply in_seq in Hi.
  destruct (List.filter (key_match lk rk i) (seq 0 nr)) as [|j js].
  - destruct Hq as [<-|[]]. simpl. lia.
  - apply in_map_iff in Hq. destruct Hq as (j' & <- & _). simpl. lia.
Qed.

End FrameRows.

Section TeamPointsFacts.
Import Polars MapperSpec Frames TeamPoints TeamPointsSpec.
Variable R : Runtime.

Lemma vstack_same (a b : Series) :
  same_dtype a b = true ->
  exists s,
    vstack R a b = Return s
    /\ to_list s = to_list a ++ to_list b
    /\ series_len s = series_len a + series_len b
    /\ forall c, joinable c a = true -> joinable c s = true.
Proof.
  destruct a, b; simpl; try discriminate; intros _; eexists;
    (split; [reflexivity|]); simpl;
    rewrite ?map_app, ?repeat_app, ?length_app; auto.
Qed.

Lemma same_dtype_refl (a : Series) : same_dtype a a = true.
Proof. now destruct a. Qed.

Lemma joinable_same_dtype (c a b : Series) :
  joinable c a = true -> joinable c b = true -> same_dtype a b = true.
Proof. destruct c, a, b; simpl; congruence. Qed.

Lemma select_points (df : DataFrame) (tcol scol : string)
    (s w t p : Series) :
  lookup "season" df = Some s -> lookup "week" df = Some w ->
  lookup tcol df = Some t -> lookup scol df = Some p ->
  select_as df [("season", "season"); ("week", "week");
                (tcol, "team"); (scol, "points")]
  = Return [("season", s); ("week", w); ("team", t); ("points", p)].
Proof.
  intros L1 L2 L3 L4. unfold select_as, aliased, col.
  rewrite L1, L2, L3, L4. reflexivity.
Qed.

Lemma points_frame_keys (S W T P : Series) :
  cols [("season", S); ("week", W); ("team", T); ("points", P)]
       ["season"; "week"; "team"]
  = Return [S; W; T].
Proof. reflexivity. Qed.

Lemma points_frame_added (S W T P : Series) :
  List.filter (fun c : string * Series =>
                 negb (existsb (String.eqb (fst c)) ["season"; "week"; "team"]))
              [("season", S); ("week", W); ("team", T); ("points", P)]
  = [("points", P)].
Proof. reflexivity. Qed.

Lemma points_suffix (stats : DataFrame) :
  (if has_column stats "points"
   then String.append "points" "_right" else "points")
  = points_name stats.
Proof. unfold points_name. now destruct (has_column stats "points"). Qed.

(** The loader, once the columns it reads are known. *)
Lemma load_team_stats_unfold (stats schedules : DataFrame)
    (s1 w1 t1 s2 w2 ht at_ hs as_ : Series) :
  lookup "season" stats = Some s1 -> lookup "week" stats = Some w1 ->
  lookup "team" stats = Some t1 ->
  lookup "season" schedules = Some s2 -> lookup "week" schedules = Some w2 ->
  lookup "home_team" schedules = Some ht ->
  lookup "away_team" schedules = Some at_ ->
  lookup "home_score" schedules = Some hs ->
  lookup "away_score" schedules = Some as_ ->
  joinable s1 s2 = true -> joinable w1 w2 = true ->
  joinable t1 ht = true -> joinable t1 at_ = true ->
  same_dtype hs as_ = true ->
  exists S W T P,
    to_list S = to_list s2 ++ to_list s2
    /\ to_list W = to_list w2 ++ to_list w2
    /\ to_list T = to_list ht ++ to_list at_
    /\ to_list P = to_list hs ++ to_list as_
    /\ series_len S = series_len s2 + series_len s2
    /\ load_team_stats R stats schedules
       = (let pairs :=
            join_order R (left_join_rows [s1; w1; t1] [S; W; T]
                            (height stats) (series_len S)) in
          let out :=
            take_rows (map fst pairs) stats
            ++ [(points_name stats, gather (map snd pairs) P)] in
          match first_duplicate (columns out) with
          | Some n => Throw (Exn (DuplicateError n))
          | None => Return out
          end).
Proof.
  intros L1 L2 L3 M1 M2 M3 M4 M5 M6 J1 J2 J3 J4 D.
  destruct (vstack_same s2 s2 (same_dtype_refl s2)) as (S & VS & HS & LS & JS).
  destruct (vstack_same w2 w2 (same_dtype_refl w2)) as (W & VW & HW & _ & JW).
  destruct (vstack_same ht at_ (joinable_same_dtype t1 ht at_ J3 J4))
    as (T & VT & HT & _ & JT).
  destruct (vstack_same hs as_ D) as (P & VP & HP & _ & _).
  exists S, W, T, P. repeat (split; [assumption|]).
  unfold load_team_stats.
  rewrite (select_points schedules "home_team" "home_score" s2 w2 ht hs)
    by assumption.
  rewrite (select_points schedules "away_team" "away_score" s2 w2 at_ as_)
    by assumption.
  cbn [and_then concat]. rewrite VS, VW, VT, VP. cbn [and_then].
  unfold join_left. rewrite points_frame_keys.
  unfold cols, col. rewrite L1, L2, L3. cbn [and_then].
  cbn [combine forallb fst snd].
  rewrite (JS _ J1), (JW _ J2), (JT _ J3). cbn [andb].
  rewrite points_frame_added. cbn [map fst snd].
  rewrite points_suffix. reflexivity.
Qed.

Lemma same_key_is_key_eqb (a b : PyValue) : same_key a b = key_eqb a b.
Proof. reflexivity. Qed.

(** The right rows that match a statistics row carry the scores the
    schedule holds for its team and week. *)
Lemma matched_scores (schedules : DataFrame)
    (s1 w1 t1 s2 w2 ht at_ hs as_ S W T P : Series) (i : nat) :
  rectangular schedules ->
  lookup "season" schedules = Some s2 -> lookup "week" schedules = Some w2 ->
  lookup "home_team" schedules = Some ht ->
  lookup "away_team" schedules = Some at_ ->
  lookup "home_score" schedules = Some hs ->
  lookup "away_score" schedules = Some as_ ->
  to_list S = to_list s2 ++ to_list s2 ->
  to_list W = to_list w2 ++ to_list w2 ->
  to_list T = to_list ht ++ to_list at_ ->
  to_list P = to_list hs ++ to_list as_ ->
  map (cell P)
      (List.filter (key_match [s1; w1; t1] [S; W; T] i)
                   (seq 0 (height schedules + height schedules)))
  = scores_for (to_dicts schedules) (cell s1 i) (cell w1 i) (cell t1 i).
Proof.
  intros Rect M1 M2 M3 M4 M5 M6 HS HW HT HP.
  assert (Len : forall c s, lookup c schedules = Some s ->
                            length (to_list s) = height schedules).
  { intros c s L. rewrite to_list_length.
    exact (rectangular_lookup _ _ _ Rect L). }
  rewrite map_filter_flat, seq_app, flat_map_app.
  unfold scores_for, to_dicts. rewrite !flat_map_map. f_equal.
  - apply flat_map_ext_in. intros j Hj. apply in_seq in Hj.
    unfold key_match. cbn [combine forallb fst snd].
    rewrite andb_true_r, andb_assoc. unfold cell.
    rewrite HS, HW, HT, HP.
    rewrite !app_nth1
      by (first [rewrite (Len _ _ M1) | rewrite (Len _ _ M2)
                | rewrite (Len _ _ M3) | rewrite (Len _ _ M5)]; lia).
    rewrite (record_get_row _ _ _ j M1), (record_get_row _ _ _ j M2),
            (record_get_row _ _ _ j M3), (record_get_row _ _ _ j M5).
    reflexivity.
  - rewrite (seq_shifted 0 (height schedules)), flat_map_map.
    apply flat_map_ext_in. intros j Hj. apply in_seq in Hj.
    unfold key_match. cbn [combine forallb fst snd].
    rewrite andb_true_r, andb_assoc. unfold cell.
    rewrite HS, HW, HT, HP.
    rewrite !app_nth2
      by (first [rewrite (Len _ _ M1) | rewrite (Len _ _ M2)
                | rewrite (Len _ _ M3) | rewrite (Len _ _ M5)]; lia).
    rewrite (Len _ _ M1), (Len _ _ M2), (Len _ _ M3), (Len _ _ M5).
    replace (j + height schedules - height schedules) with j by lia.
    rewrite (record_get_row _ _ _ j M1), (record_get_row _ _ _ j M2),
            (record_get_row _ _ _ j M4), (record_get_row _ _ _ j M6).
    reflexivity.
Qed.

End TeamPointsFacts.

Section TeamPointsTheorems.
Import Polars MapperSpec Frames TeamPoints TeamPointsSpec.
Variable R : Runtime.

Lemma plain_tables_columns (stats schedules : DataFrame) :
  plain_tables stats schedules = true ->
  exists s1 w1 t1 s2 w2 ht at_ hs as_,
    lookup "season" stats = Some s1 /\ lookup "week" stats = Some w1
    /\ lookup "team" stats = Some t1
    /\ lookup "season" schedules = Some s2
    /\ lookup "week" schedules = Some w2
    /\ lookup "home_team" schedules = Some ht
    /\ lookup "away_team" schedules = Some at_
    /\ lookup "home_score" schedules = Some hs
    /\ lookup "away_score" schedules = Some as_
    /\ joinable s1 s2 = true /\ joinable w1 w2 = true
    /\ joinable t1 ht = true /\ joinable t1 at_ = true
    /\ same_dtype hs as_ = true.
Proof.
  unfold plain_tables. intros H.
  destruct (lookup "season" stats) as [s1|]; [|discriminate].
  destruct (lookup "week" stats) as [w1|]; [|discriminate].
  destruct (lookup "team" stats) as [t1|]; [|discriminate].
  destruct (lookup "season" schedules) as [s2|]; [|discriminate].
  destruct (lookup "week" schedules) as [w2|]; [|discriminate].
  destruct (lookup "home_team" schedules) as [ht|]; [|discriminate].
  destruct (lookup "away_team" schedules) as [at_|]; [|discriminate].
  destruct (lookup "home_score" schedules) as [hs|]; [|discriminate].
  destruct (lookup "away_score" schedules) as [as_|]; [|discriminate].
  apply andb_prop in H as [H H5]. apply andb_prop in H as [H H4].
  apply andb_prop in H as [H H3]. apply andb_prop in H as [H1 H2].
  exists s1, w1, t1, s2, w2, ht, at_, hs, as_. repeat split; assumption.
Qed.

(** The rows of the joined table, in the order the engine chose. *)
Lemma team_points_rows (stats schedules out : DataFrame) :
  (forall l, Permutation (join_order R l) l) ->
  rectangular stats -> rectangular schedules ->
  plain_tables stats schedules = true ->
  load_team_stats R stats schedules = Return out ->
  exists pairs,
    Permutation pairs
      (flat_map (fun i =>
                   match scores_for (to_dicts schedules)
                           (record_get "season" (row stats i))
                           (record_get "week" (row stats i))
                           (record_get "team" (row stats i)) with
                   | [] => [(i, PyNone)]
                   | ps => map (fun p => (i, p)) ps
                   end)
                (seq 0 (height stats)))
    /\ to_dicts out
       = map (fun q => row stats (fst q) ++ [(points_name stats, snd q)]) pairs
    /\ columns out = columns stats ++ [points_name stats].
Proof.
  intros Law Rs Rg Plain H.
  destruct (plain_tables_columns _ _ Plain)
    as (s1 & w1 & t1 & s2 & w2 & ht & at_ & hs & as_ & L1 & L2 & L3
        & M1 & M2 & M3 & M4 & M5 & M6 & J1 & J2 & J3 & J4 & D).
  destruct (load_team_stats_unfold R stats schedules _ _ _ _ _ _ _ _ _
              L1 L2 L3 M1 M2 M3 M4 M5 M6 J1 J2 J3 J4 D)
    as (S & W & T & P & HS & HW & HT & HP & LS & U).
  rewrite U in H. clear U. cbv zeta in H.
  rewrite (rectangular_lookup _ _ _ Rg M1) in LS. rewrite LS in H.
  remember (left_join_rows [s1; w1; t1] [S; W; T] (height stats)
              (height schedules + height schedules)) as rows eqn:Hrows.
  remember (join_order R rows) as pairs eqn:Hpairs.
  destruct (first_duplicate _) as [n|]; [discriminate|].
  assert (Hout : out = take_rows (map fst pairs) stats
                       ++ [(points_name stats, gather (map snd pairs) P)]).
  { injection H as H. now symmetry. }
  clear H.
  assert (Hne : stats <> []).
  { intros ->. discriminate L1. }
  assert (Perm : Permutation pairs rows) by (subst pairs; apply Law).
  assert (Valid : Forall (fun q => fst q < height stats) pairs).
  { apply Forall_forall. intros q Hq.
    apply (Permutation_in _ Perm) in Hq.
    pose proof (left_join_rows_valid [s1; w1; t1] [S; W; T] (height stats)
                  (height schedules + height schedules)) as V.
    rewrite <- Hrows in V. rewrite Forall_forall in V. now apply V. }
  exists (map (fun q => (fst q, match snd q with
                                | Some j => cell P j
                                | None => PyNone
                                end)) pairs).
  split; [|split].
  - etransitivity; [apply Permutation_map; exact Perm|].
    rewrite Hrows. unfold left_join_rows. rewrite map_flat_map.
    apply Permutation_refl'. apply flat_map_ext_in.
    intros i Hi.
    rewrite (record_get_row _ _ _ i L1), (record_get_row _ _ _ i L2),
            (record_get_row _ _ _ i L3).
    fold (cell s1 i) (cell w1 i) (cell t1 i).
    rewrite <- (matched_scores schedules s1 w1 t1 s2 w2 ht at_ hs as_
                  S W T P i Rg M1 M2 M3 M4 M5 M6 HS HW HT HP).
    destruct (List.filter _ _) as [|j js]; [reflexivity|].
    cbn [map fst snd]. now rewrite !map_map.
  - rewrite Hout, (to_dicts_joined stats pairs _ P Rs Hne Valid).
    rewrite map_map. reflexivity.
  - rewrite Hout. unfold columns. rewrite map_app.
    fold (columns (take_rows (map fst pairs) stats)).
    now rewrite take_rows_columns.
Qed.

Lemma flat_map_length_sum {A B : Type} (F : A -> list B) (l : list A) :
  length (flat_map F l) = list_sum (map (fun x => length (F x)) l).
Proof.
  induction l as [|x l IH]; simpl; [reflexivity|].
  now rewrite length_app, IH.
Qed.

Lemma list_sum_ge_length {A : Type} (f : A -> nat) (l : list A) :
  (forall x, In x l -> 1 <= f x) -> length l <= list_sum (map f l).
Proof.
  induction l as [|x l IH]; simpl; intros H; [lia|].
  pose proof (H x (or_introl eq_refl)).
  assert (length l <= list_sum (map f l)) by (apply IH; intros; apply H; now right).
  lia.
Qed.

Lemma list_sum_ones {A : Type} (f : A -> nat) (l : list A) :
  (forall x, In x l -> f x = 1) -> list_sum (map f l) = length l.
Proof.
  induction l as [|x l IH]; simpl; intros H; [reflexivity|].
  rewrite (H x (or_introl eq_refl)), IH; [reflexivity|].
  intros; apply H; now right.
Qed.

(** X8.  [load_team_stats] attaches to every statistics row the score its
    team made that week: when the keys are integers or strings and the
    engine returns the joined rows in some order, the rows of the result
    are, up to that order, the statistics rows each followed by one
    [points] entry, once per score the schedule holds for the row's
    season, week and team (the team as host or as visitor) and once
    with [None] when it holds none.  The entry is called [points_right]
    when the statistics already have a [points] column. *)
Theorem team_stats_points (stats schedules out : DataFrame) :
  (forall l, Permutation (join_order R l) l) ->
  rectangular stats -> rectangular schedules ->
  plain_tables stats schedules = true ->
  load_team_stats R stats schedules = Return out ->
  columns out = columns stats ++ [points_name stats]
  /\ Permutation (to_dicts out)
       (flat_map (with_points (points_name stats) (to_dicts schedules))
                 (to_dicts stats)).
Proof.
  intros Law Rs Rg Plain H.
  destruct (team_points_rows stats schedules out Law Rs Rg Plain H)
    as (pairs & Perm & Hd & Hc).
  split; [exact Hc|].
  rewrite Hd.
  match type of Perm with
  | Permutation _ ?X =>
      assert (Eq : map (fun q : nat * PyValue =>
                          row stats (fst q) ++ [(points_name stats, snd q)]) X
                   = flat_map (with_points (points_name stats)
                                 (to_dicts schedules))
                              (to_dicts stats))
  end.
  { rewrite map_flat_map.
    change (to_dicts stats) with (map (row stats) (seq 0 (height stats))).
    rewrite flat_map_map.
    apply flat_map_ext_in. intros i _. unfold with_points.
    destruct (scores_for _ _ _ _) as [|p ps]; [reflexivity|].
    cbn [map fst snd]. now rewrite map_map. }
  rewrite <- Eq. apply Permutation_map. exact Perm.
Qed.

(** X9.  The join never loses a statistics row and can multiply one: the
    result has one row per statistics row and score found (one row
    where none is found), so at least as many rows as the statistics,
    and exactly as many when the schedule holds at most one score for
    each row's team and week. *)
Theorem team_stats_row_count (stats schedules out : DataFrame) :
  (forall l, Permutation (join_order R l) l) ->
  rectangular stats -> rectangular schedules ->
  plain_tables stats schedules = true ->
  load_team_stats R stats schedules = Return out ->
  let found (r : Record) :=
    length (scores_for (to_dicts schedules) (record_get "season" r)
                       (record_get "week" r) (record_get "team" r)) in
  height out = list_sum (map (fun r => Nat.max 1 (found r)) (to_dicts stats))
  /\ height stats <= height out
  /\ ((forall r, In r (to_dicts stats) -> found r <= 1) ->
      height out = height stats).
Proof.
  intros Law Rs Rg Plain H found.
  destruct (team_points_rows stats schedules out Law Rs Rg Plain H)
    as (pairs & Perm & Hd & _).
  assert (Hh : height out
               = list_sum (map (fun r => Nat.max 1 (found r))
                               (to_dicts stats))).
  { rewrite <- (to_dicts_length out), Hd, length_map.
    rewrite (Permutation_length Perm), flat_map_length_sum.
    change (to_dicts stats) with (map (row stats) (seq 0 (height stats))).
    rewrite map_map. f_equal.
    apply map_ext. intros i. unfold found.
    destruct (scores_for _ _ _ _) as [|p ps]; [reflexivity|].
    rewrite length_map. simpl. lia. }
  split; [exact Hh|]. rewrite Hh. rewrite <- (to_dicts_length stats).
  split.
  - apply list_sum_ge_length. intros; lia.
  - intros Hone. apply list_sum_ones. intros r Hr.
    specialize (Hone r Hr). lia.
Qed.

End TeamPointsTheorems.

Lemma week_tables_rectangular :
  MapperSpec.rectangular TeamPointsSpec.week_stats
  /\ MapperSpec.rectangular TeamPointsSpec.week_schedule.
Proof. split; repeat constructor. Qed.

Lemma team_stats_points_witness :
  exists out,
    TeamPoints.load_team_stats TeamPointsSpec.reference_runtime
      TeamPointsSpec.week_stats TeamPointsSpec.week_schedule = Return out
    /\ Polars.columns out
       = ["team"; "season"; "week"; "passing_yards"; "points"]
    /\ Permutation (Polars.to_dicts out)
         (flat_map (TeamPointsSpec.with_points "points"
                      (Polars.to_dicts TeamPointsSpec.week_schedule))
                   (Polars.to_dicts TeamPointsSpec.week_stats)).
Proof.
  eexists. split; [vm_compute; reflexivity|].
  exact (team_stats_points TeamPointsSpec.reference_runtime
           TeamPointsSpec.week_stats TeamPointsSpec.week_schedule _
           (fun l => Permutation_refl l)
           (proj1 week_tables_rectangular) (proj2 week_tables_rectangular)
           eq_refl eq_refl).
Defined.

Lemma team_stats_row_count_witness :
  exists out,
    TeamPoints.load_team_stats TeamPointsSpec.reference_runtime
      TeamPointsSpec.week_stats TeamPointsSpec.week_schedule = Return out
    /\ Polars.height out = 3.
Proof.
  eexists. split; [vm_compute; reflexivity|].
  exact (proj1 (team_stats_row_count TeamPointsSpec.reference_runtime
           TeamPointsSpec.week_stats TeamPointsSpec.week_schedule _
           (fun l => Permutation_refl l)
           (proj1 week_tables_rectangular) (proj2 week_tables_rectangular)
           eq_refl eq_refl)).
Defined.

(** ** Team statistics without a schedule column *)

Section MissingColumns.
Import Polars MapperSpec Frames TeamPoints TeamPointsSpec.
Variable R : Runtime.

(** X10.  [load_team_stats] needs the six schedule columns it reads: when the
    schedule lacks one of them the loader raises
    [ColumnNotFoundError] for a column the schedule lacks, whatever the
    statistics are, and returns no table. *)
Theorem load_team_stats_needs_schedule_columns
    (stats schedules : DataFrame) (c : string) :
  In c ["season"; "week"; "home_team"; "home_score"; "away_team";
        "away_score"] ->
  lookup c schedules = None ->
  exists c',
    lookup c' schedules = None
    /\ load_team_stats R stats schedules = Throw (ColumnNotFoundError c').
Proof.
  intros Hc L. unfold load_team_stats.
  destruct (lookup "season" schedules) as [s|] eqn:L1.
  2:{ exists "season". split; [exact L1|].
      unfold select_as, aliased, col. now rewrite L1. }
  destruct (lookup "week" schedules) as [w|] eqn:L2.
  2:{ exists "week". split; [exact L2|].
      unfold select_as, aliased, col. now rewrite L1, L2. }
  destruct (lookup "home_team" schedules) as [ht|] eqn:L3.
  2:{ exists "home_team". split; [exact L3|].
      unfold select_as, aliased, col. now rewrite L1, L2, L3. }
  destruct (lookup "home_score" schedules) as [hs|] eqn:L4.
  2:{ exists "home_score". split; [exact L4|].
      unfold select_as, aliased, col. now rewrite L1, L2, L3, L4. }
  rewrite (select_points schedules "home_team" "home_score" s w ht hs
             L1 L2 L3 L4). cbn [and_then].
  destruct (lookup "away_team" schedules) as [at_|] eqn:L5.
  2:{ exists "away_team". split; [exact L5|].
      unfold select_as, aliased, col. now rewrite L1, L2, L5. }
  destruct (lookup "away_score" schedules) as [as_|] eqn:L6.
  2:{ exists "away_score". split; [exact L6|].
      unfold select_as, aliased, col. now rewrite L1, L2, L5, L6. }
  exfalso. cbn [In] in Hc.
  repeat (destruct Hc as [<-|Hc]; [congruence|]). contradiction.
Qed.

End MissingColumns.

Lemma load_team_stats_needs_schedule_columns_witness :
  exists c',
    Polars.lookup c' MapperSpec.raw_schedule = None
    /\ TeamPoints.load_team_stats TeamPointsSpec.reference_runtime
         TeamPointsSpec.week_stats MapperSpec.raw_schedule
       = Throw (ColumnNotFoundError c').
Proof.
  exact (load_team_stats_needs_schedule_columns
           TeamPointsSpec.reference_runtime TeamPointsSpec.week_stats
           MapperSpec.raw_schedule "away_score"
           ltac:(cbn [In]; auto 10) eq_refl).
Defined.

(** ** Rushing touchdowns *)

Section FrameSteps.
Import Polars MapperSpec Frames.

Lemma select_cons (df : DataFrame) (c : string) (names : list string) :
  select df (c :: names)
  = match lookup c df with Some s => [(c, s)] | None => [] end
    ++ select df names.
Proof. reflexivity. Qed.

Lemma aliased_select (df : DataFrame) (names : list string) :
  (forall c, In c names -> has_column df c = true) ->
  aliased df (map (fun c => (c, c)) names) = Return (select df names).
Proof.
  induction names as [|c names IH]; intros H; [reflexivity|].
  cbn [map aliased]. unfold col.
  destruct (proj1 (lookup_some_mem df c) (H c (or_introl eq_refl))) as (s & L).
  rewrite L. cbn [and_then].
  rewrite IH by (intros c' Hc'; apply H; now right).
  cbn [and_then]. now rewrite select_cons, L.
Qed.

Lemma select_names_ok (df : DataFrame) (names : list string) :
  NoDup names ->
  (forall c, In c names -> has_column df c = true) ->
  select_names df names = Return (select df names).
Proof.
  intros N H. unfold select_names, select_as.
  rewrite (aliased_select df names H). cbn [and_then].
  rewrite (select_columns df names H).
  now rewrite (proj2 (first_duplicate_none names) N).
Qed.

Lemma filter_app (a b : DataFrame) (mask : list bool) :
  Polars.filter (a ++ b) mask = Polars.filter a mask ++ Polars.filter b mask.
Proof. apply map_app. Qed.

Lemma select_filter (df : DataFrame) (mask : list bool) (names : list string) :
  select (Polars.filter df mask) names = Polars.filter (select df names) mask.
Proof.
  induction names as [|c names IH]; [reflexivity|].
  rewrite !select_cons, IH, lookup_filter, filter_app. f_equal.
  now destruct (lookup c df).
Qed.

Lemma select_In (df : DataFrame) (names : list string) (c : string)
    (s : Series) :
  In (c, s) (select df names) -> lookup c df = Some s.
Proof.
  unfold select. intros H. apply in_flat_map in H.
  destruct H as (c' & _ & H).
  destruct (lookup c' df) as [s'|] eqn:L; [|contradiction].
  destruct H as [H|[]]. now injection H as -> ->.
Qed.

Lemma rectangular_select (df : DataFrame) (names : list string) :
  rectangular df -> names <> [] ->
  (forall c, In c names -> has_column df c = true) ->
  rectangular (select df names) /\ height (select df names) = height df
  /\ select df names <> [].
Proof.
  intros Rect Hne H.
  destruct names as [|c names]; [congruence|].
  destruct (proj1 (lookup_some_mem df c) (H c (or_introl eq_refl))) as (s & L).
  assert (Hh : height (select df (c :: names)) = height df).
  { rewrite select_cons, L. cbn [app height].
    exact (rectangular_lookup _ _ _ Rect L). }
  split; [|split; [exact Hh|]].
  - unfold rectangular. rewrite Hh. apply Forall_forall. intros [c' s'] Hin.
    cbn [snd]. apply select_In in Hin.
    exact (rectangular_lookup _ _ _ Rect Hin).
  - rewrite select_cons, L. discriminate.
Qed.

Lemma rectangular_filter (df : DataFrame) (mask : list bool) :
  rectangular df -> length mask = height df ->
  rectangular (Polars.filter df mask).
Proof.
  intros Rect Hm. unfold rectangular in *. rewrite Forall_forall in Rect.
  assert (Hh : df <> [] -> height (Polars.filter df mask) = count_true mask).
  { destruct df as [|[n s] df]; [congruence|]. intros _. simpl.
    apply filter_series_len. simpl in Hm. now rewrite Hm. }
  apply Forall_forall. intros [n s] Hin. cbn [snd].
  unfold Polars.filter in Hin. apply in_map_iff in Hin.
  destruct Hin as ([n0 s0] & Heq & Hin0). cbn [fst snd] in Heq.
  injection Heq as <- <-.
  rewrite Hh by (intros ->; contradiction).
  apply filter_series_len. rewrite Hm. exact (Rect _ Hin0).
Qed.

Lemma rectangular_take_rows (df : DataFrame) (idx : list nat) :
  rectangular df -> df <> [] ->
  Forall (fun i => i < height df) idx ->
  rectangular (take_rows idx df).
Proof.
  intros Rect Hne F. unfold rectangular.
  rewrite (height_take_rows df idx Rect Hne F).
  unfold rectangular in Rect. rewrite Forall_forall in Rect.
  apply Forall_forall. intros [n s] Hin. cbn [snd].
  unfold take_rows in Hin. apply in_map_iff in Hin.
  destruct Hin as ([n0 s0] & Heq & Hin0). cbn [fst snd] in Heq.
  injection Heq as <- <-.
  rewrite <- to_list_length, to_list_take, (take_valid PyNone), length_map;
    [reflexivity|].
  rewrite to_list_length. specialize (Rect _ Hin0). cbn [snd] in Rect.
  now rewrite Rect.
Qed.

Lemma to_dicts_take_rows (df : DataFrame) (idx : list nat) :
  rectangular df -> df <> [] ->
  Forall (fun i => i < height df) idx ->
  to_dicts (take_rows idx df) = map (row df) idx.
Proof.
  intros Rect Hne F. unfold to_dicts.
  rewrite (height_take_rows df idx Rect Hne F).
  etransitivity; [|symmetry; apply (map_as_nth 0)].
  apply map_ext_in. intros k Hk. apply in_seq in Hk.
  apply (row_take_rows df idx k Rect F). lia.
Qed.

Lemma firstn_seq (m a h : nat) : firstn m (seq a h) = seq a (Nat.min m h).
Proof.
  revert a h. induction m as [|m IH]; intros a h; [reflexivity|].
  destruct h as [|h]; [reflexivity|]. simpl. now rewrite IH.
Qed.

Lemma to_dicts_head (df : DataFrame) (n : Z) :
  rectangular df ->
  to_dicts (head df n) = LeadersSpec.first_rows n (to_dicts df).
Proof.
  intros Rect. unfold head, LeadersSpec.first_rows.
  destruct df as [|col df].
  { unfold take_rows, to_dicts. cbn [map height seq].
    destruct (0 <=? n)%Z; now rewrite firstn_nil. }
  set (fr := col :: df) in *.
  assert (Hne : fr <> []) by discriminate.
  rewrite to_dicts_length.
  assert (X : forall k, k <= height fr ->
                to_dicts (take_rows (seq 0 k) fr)
                = firstn k (to_dicts fr)).
  { intros k Hk. rewrite (to_dicts_take_rows fr _ Rect Hne).
    - unfold to_dicts. rewrite firstn_map, firstn_seq.
      now rewrite Nat.min_l by exact Hk.
    - apply Forall_forall. intros i Hi. apply in_seq in Hi. lia. }
  destruct (0 <=? n)%Z.
  - rewrite X by lia.
    destruct (Nat.le_gt_cases (Z.to_nat n) (height fr)) as [H|H].
    + now rewrite Nat.min_l by exact H.
    + rewrite Nat.min_r by lia.
      rewrite !firstn_all2; rewrite ?to_dicts_length; [reflexivity | lia | lia].
  - apply X. lia.
Qed.

End FrameSteps.

Section Leaders.
Import Polars MapperSpec Frames SupabaseClient PlayerAnalytics LeadersSpec.
Variable E : Engine.
Variable R : Runtime.

Lemma rushing_columns_NoDup : NoDup rushing_columns.
Proof. apply NoDup_by_computation. vm_compute. reflexivity. Qed.

Lemma row_select (df : DataFrame) (names : list string) (i : nat) :
  (forall c, In c names -> has_column df c = true) ->
  row (select df names) i = map (fun c => (c, record_get c (row df i))) names.
Proof.
  induction names as [|c names IH]; intros H; [reflexivity|].
  destruct (proj1 (lookup_some_mem df c) (H c (or_introl eq_refl))) as (s & L).
  rewrite select_cons, L, row_app, IH by (intros c' Hc'; apply H; now right).
  cbn [map app]. f_equal. unfold row at 1. cbn [map fst snd].
  now rewrite (record_get_row df c s i L).
Qed.

Lemma to_dicts_select (df : DataFrame) (names : list string) :
  rectangular df -> names <> [] ->
  (forall c, In c names -> has_column df c = true) ->
  to_dicts (select df names)
  = map (fun r => map (fun c => (c, record_get c r)) names) (to_dicts df).
Proof.
  intros Rect Hne H.
  destruct (rectangular_select df names Rect Hne H) as (_ & Hh & _).
  unfold to_dicts. rewrite Hh, map_map. apply map_ext. intros i.
  now apply row_select.
Qed.

(** The mask of the touchdown filter marks the rows that qualify. *)
Lemma mask_qualifies (ps : DataFrame) (l : list (option Z)) (n : Z) :
  rectangular ps ->
  lookup "rushing_tds" ps = Some (Int64 l) ->
  map (fun c => match c with Some z => (n <=? z)%Z | None => false end) l
  = map (qualifies n) (to_dicts ps).
Proof.
  intros Rect L.
  pose proof (rectangular_lookup _ _ _ Rect L) as Hh. cbn [series_len] in Hh.
  rewrite (map_as_nth None). unfold to_dicts. rewrite map_map, Hh.
  apply map_ext. intros i. unfold qualifies.
  rewrite (record_get_row ps _ _ i L). cbn [to_list].
  change PyNone with (py_of_int None). rewrite map_nth.
  now destruct (nth i l None).
Qed.

Lemma kept_are_some (l : list (option Z)) (n : Z) :
  let mask :=
    map (fun c => match c with Some z => (n <=? z)%Z | None => false end) l in
  keep mask l = map Some (map cell_or_zero (keep mask l)).
Proof.
  induction l as [|[z|] l IH]; cbn [map keep]; [reflexivity| |exact IH].
  destruct (n <=? z)%Z; [|exact IH]. cbn [map cell_or_zero]. f_equal. exact IH.
Qed.

Lemma sorted_transfer {A B : Type} (P : Z -> Z -> Prop) (f : A -> Z)
    (h : A -> B) (g : B -> Z) (l : list A) :
  (forall x, In x l -> g (h x) = f x) ->
  StronglySorted P (map f l) ->
  StronglySorted (fun a b => P (g a) (g b)) (map h l).
Proof.
  induction l as [|x l IH]; intros H S; [constructor|].
  cbn [map] in *. inversion S as [|? ? S' F]; subst.
  constructor.
  - apply IH; [|exact S']. intros y Hy. apply H. now right.
  - rewrite Forall_map in F |- *. rewrite Forall_forall in F |- *.
    intros y Hy. rewrite (H x (or_introl eq_refl)), (H y (or_intror Hy)).
    now apply F.
Qed.

Lemma tds_listed : mem "rushing_tds" rushing_columns = true.
Proof. reflexivity. Qed.

Lemma leaders_unfold (fetch : SelectQuery -> result (list Record))
    (season : Z) (week : option Z) (min_tds limit : Z)
    (data : list Record) (ps : DataFrame) (l : list (option Z)) :
  fetch (leaders_request season week) = Ok data ->
  from_dicts E data = Ok ps ->
  (forall c, In c rushing_columns -> has_column ps c = true) ->
  lookup "rushing_tds" ps = Some (Int64 l) ->
  get_rushing_touchdowns E R fetch season week min_tds limit
  = (let mask :=
       map (fun c => match c with
                     | Some z => (min_tds <=? z)%Z
                     | None => false
                     end) l in
     let selected := Polars.filter (select ps rushing_columns) mask in
     Return (head (take_rows (sort_order R (Int64 (keep mask l)) true)
                             selected)
                  limit)).
Proof.
  intros Hf Hd Hcols L. unfold get_rushing_touchdowns. cbv zeta.
  rewrite query_request.
  assert (Hreq : fetch (mkSelect "player_stats" "*"
                   (ReaderSpec.items
                      (Some match week with
                            | Some w => [("season", PyInt season)]
                                        ++ [("week", PyInt w)]
                            | None => [("season", PyInt season)]
                            end))) = Ok data).
  { rewrite <- Hf. unfold leaders_request. now destruct week. }
  rewrite Hreq. cbn [bind]. rewrite Hd. cbn [lift and_then].
  unfold col at 1. rewrite L. cbn [and_then at_least_mask].
  rewrite (select_names_ok _ rushing_columns rushing_columns_NoDup).
  2:{ intros c Hc. rewrite has_column_mem, filter_columns, <- has_column_mem.
      now apply Hcols. }
  cbn [and_then]. rewrite select_filter. unfold sort, col.
  rewrite lookup_filter, lookup_select, tds_listed, L.
  reflexivity.
Qed.

(** X11.  [get_rushing_touchdowns] returns the leaders: for an integer
    [rushing_tds] column and an engine whose descending sort sorts, the
    rows of the result are the first [limit] rows (all but the last
    [-limit] for a negative [limit]) of the rows of the answer that have
    at least [min_tds] rushing touchdowns, restricted to the seven
    columns of the result and sorted by touchdowns, largest first; rows
    with as many touchdowns come in the engine's order.  The store is
    asked once, for the season and, when a week is given, the week. *)
Theorem rushing_touchdown_leaders
    (fetch : SelectQuery -> result (list Record))
    (season : Z) (week : option Z) (min_tds limit : Z)
    (data : list Record) (ps : DataFrame) (l : list (option Z)) :
  sorts_descending R ->
  fetch (leaders_request season week) = Ok data ->
  from_dicts E data = Ok ps ->
  rectangular ps ->
  (forall c, In c rushing_columns -> has_column ps c = true) ->
  lookup "rushing_tds" ps = Some (Int64 l) ->
  exists out sorted,
    get_rushing_touchdowns E R fetch season week min_tds limit = Return out
    /\ columns out = rushing_columns
    /\ to_dicts out = first_rows limit sorted
    /\ Permutation sorted
         (map leader_row (List.filter (qualifies min_tds) (to_dicts ps)))
    /\ StronglySorted (fun a b => (touchdowns b <= touchdowns a)%Z) sorted.
Proof.
  intros Law Hf Hd Rect Hcols L.
  rewrite (leaders_unfold fetch season week min_tds limit data ps l
             Hf Hd Hcols L). cbv zeta.
  remember (map (fun c => match c with
                          | Some z => (min_tds <=? z)%Z
                          | None => false
                          end) l) as mask eqn:Hmask.
  assert (Hne : rushing_columns <> []) by discriminate.
  destruct (rectangular_select ps rushing_columns Rect Hne Hcols)
    as (RQ & HQ & NQ).
  remember (select ps rushing_columns) as Q eqn:HeqQ.
  pose proof (rectangular_lookup _ _ _ Rect L) as Hlen.
  cbn [series_len] in Hlen.
  assert (Hm : length mask = height Q).
  { rewrite Hmask, length_map, HQ. exact Hlen. }
  pose proof (rectangular_filter Q mask RQ Hm) as RS.
  remember (Polars.filter Q mask) as selected eqn:Hsel.
  assert (NS : selected <> []).
  { subst selected. destruct Q; [congruence | discriminate]. }
  (* the rows of the selection *)
  assert (Drows : to_dicts selected
                  = map leader_row
                        (List.filter (qualifies min_tds) (to_dicts ps))).
  { rewrite Hsel, (to_dicts_filter Q mask RQ Hm), HeqQ.
    rewrite (to_dicts_select ps rushing_columns Rect Hne Hcols).
    fold leader_row. rewrite keep_map. f_equal.
    rewrite Hmask, (mask_qualifies ps l min_tds Rect L).
    apply keep_filter. }
  (* its touchdown column *)
  assert (Ltd : lookup "rushing_tds" selected = Some (Int64 (keep mask l))).
  { rewrite Hsel, lookup_filter, HeqQ, lookup_select, tds_listed, L.
    reflexivity. }
  pose proof (rectangular_lookup _ _ _ RS Ltd) as Hh. cbn [series_len] in Hh.
  remember (map cell_or_zero (keep mask l)) as zs eqn:Hzs.
  assert (Kz : keep mask l = map Some zs).
  { rewrite Hzs, Hmask. apply kept_are_some. }
  assert (Hnz : length zs = height selected).
  { rewrite <- Hh, Kz. now rewrite length_map. }
  assert (Td : forall i, touchdowns (row selected i) = nth i zs 0%Z).
  { intros i. unfold touchdowns.
    rewrite (record_get_row selected _ _ i Ltd). cbn [to_list].
    change PyNone with (py_of_int None). rewrite map_nth, Kz.
    destruct (Nat.lt_ge_cases i (length zs)) as [Hi|Hi].
    - rewrite (nth_indep _ None (Some 0%Z)) by (now rewrite length_map).
      now rewrite map_nth.
    - rewrite !nth_overflow; [reflexivity | lia | rewrite length_map; lia]. }
  rewrite Kz.
  destruct (Law zs) as (Perm & Sorted).
  remember (sort_order R (Int64 (map Some zs)) true) as idx eqn:Hidx.
  assert (Valid : Forall (fun i => i < height selected) idx).
  { apply Forall_forall. intros i Hi.
    apply (Permutation_in _ Perm), in_seq in Hi. lia. }
  pose proof (rectangular_take_rows selected idx RS NS Valid) as RT.
  exists (head (take_rows idx selected) limit), (map (row selected) idx).
  split; [reflexivity|]. split; [|split; [|split]].
  - unfold head. rewrite !take_rows_columns, Hsel, filter_columns, HeqQ.
    now apply select_columns.
  - rewrite (to_dicts_head _ limit RT).
    now rewrite (to_dicts_take_rows selected idx RS NS Valid).
  - rewrite <- Drows. unfold to_dicts. rewrite <- Hnz.
    apply Permutation_map. exact Perm.
  - apply (sorted_transfer (fun a b => (b <= a)%Z)
             (fun i => nth i zs 0%Z) (row selected) touchdowns idx);
      [|exact Sorted].
    intros i _. apply Td.
Qed.

(** X12.  When the store has no row for the season and week asked for,
    [get_rushing_touchdowns] raises: the frame built from no rows has
    no columns, and the filter on [rushing_tds] does not find its
    column. *)
Theorem rushing_touchdowns_of_nothing
    (fetch : SelectQuery -> result (list Record))
    (season : Z) (week : option Z) (min_tds limit : Z) :
  fetch (leaders_request season week) = Ok [] ->
  get_rushing_touchdowns E R fetch season week min_tds limit
  = Throw (ColumnNotFoundError "rushing_tds").
Proof.
  intros Hf. unfold get_rushing_touchdowns. cbv zeta.
  rewrite query_request.
  assert (Hreq : fetch (mkSelect "player_stats" "*"
                   (ReaderSpec.items
                      (Some match week with
                            | Some w => [("season", PyInt season)]
                                        ++ [("week", PyInt w)]
                            | None => [("season", PyInt season)]
                            end))) = Ok []).
  { rewrite <- Hf. unfold leaders_request. now destruct week. }
  rewrite Hreq. reflexivity.
Qed.

End Leaders.

(** ** The week-17 example *)

Section Week17.
Import Polars MapperSpec Frames SupabaseClient PlayerAnalytics LeadersSpec
       Week17Example.
Variable E : Engine.
Variable R : Runtime.

Lemma keep_none {A : Type} (mask : list bool) (l : list A) :
  (forall b, In b mask -> b = false) -> keep mask l = [].
Proof.
  revert l. induction mask as [|b mask IH]; intros l H; [reflexivity|].
  destruct l as [|x l]; [reflexivity|]. cbn [keep].
  rewrite (H b (or_introl eq_refl)). apply IH. intros b' Hb. apply H. now right.
Qed.

Lemma take_nil {A : Type} (idx : list nat) : take idx (@nil A) = [].
Proof.
  induction idx as [|i idx IH]; [reflexivity|].
  rewrite take_cons, IH. now destruct i.
Qed.

Lemma take_rows_of_empty (idx : list nat) (df : DataFrame) :
  Forall (fun col => series_len (snd col) = 0) df ->
  Forall (fun col => series_len (snd col) = 0) (take_rows idx df).
Proof.
  intros F. unfold take_rows. rewrite Forall_map.
  eapply Forall_impl; [|exact F]. cbv beta. intros [n s] H. cbn [snd] in *.
  rewrite <- to_list_length, to_list_take.
  rewrite <- to_list_length in H. apply length_zero_iff_nil in H.
  now rewrite H, take_nil.
Qed.

Lemma height_of_empty (df : DataFrame) :
  Forall (fun col => series_len (snd col) = 0) df -> height df = 0.
Proof. destruct df as [|[n s] df]; [reflexivity|]. now inversion 1. Qed.

(** X13.  The example's report depends on why nothing came back.  When the
    store has no row at all for week 17 of 2025, [main] reports the
    error raised for the missing [rushing_tds] column, not that no data
    was found; it reports that no data was found when the store has
    rows for the week and none of them has a rushing touchdown. *)
Theorem week17_example_reports
    (fetch : SelectQuery -> result (list Record)) :
  (fetch (leaders_request 2025 (Some 17%Z)) = Ok [] ->
   main E R fetch = Failed (ColumnNotFoundError "rushing_tds"))
  /\ (forall data ps l,
        fetch (leaders_request 2025 (Some 17%Z)) = Ok data ->
        from_dicts E data = Ok ps ->
        rectangular ps ->
        (forall c, In c rushing_columns -> has_column ps c = true) ->
        lookup "rushing_tds" ps = Some (Int64 l) ->
        (forall r, In r (to_dicts ps) -> qualifies 1 r = false) ->
        main E R fetch = NoData).
Proof.
  split.
  - intros Hf. unfold main.
    assert (X : get_rushing_touchdowns E R fetch 2025 (Some 17%Z) 1 50
                = Throw (ColumnNotFoundError "rushing_tds")).
    { unfold get_rushing_touchdowns. cbv zeta. rewrite query_request.
      unfold leaders_request in Hf. cbn [app ReaderSpec.items].
      rewrite Hf. reflexivity. }
    now rewrite X.
  - intros data ps l Hf Hd Rect Hcols L Hnone. unfold main.
    rewrite (leaders_unfold E R fetch 2025 (Some 17%Z) 1 50 data ps l
               Hf Hd Hcols L). cbv zeta.
    rewrite (mask_qualifies ps l 1 Rect L).
    remember (map (qualifies 1) (to_dicts ps)) as mask eqn:Hmask.
    assert (Hm : forall b, In b mask -> b = false).
    { intros b Hb. rewrite Hmask in Hb. apply in_map_iff in Hb.
      destruct Hb as (r & <- & Hr). now apply Hnone. }
    assert (Z0 : Forall (fun col => series_len (snd col) = 0)
                        (Polars.filter (select ps rushing_columns) mask)).
    { unfold Polars.filter. rewrite Forall_map. apply Forall_forall.
      intros [n s] _. cbn [snd].
      rewrite <- to_list_length, to_list_filter.
      now rewrite (keep_none mask _ Hm). }
    rewrite (keep_none mask l Hm).
    remember (sort_order R (Int64 []) true) as idx.
    assert (H0 : height (head (take_rows idx
                   (Polars.filter (select ps rushing_columns) mask)) 50) = 0).
    { unfold head. apply height_of_empty.
      now apply take_rows_of_empty, take_rows_of_empty. }
    now rewrite H0.
Qed.

End Week17.

Lemma dry_frame_read :
  Polars.from_dicts MapperSpec.reference_engine LeadersSpec.dry_rows
  = Ok LeadersSpec.dry_frame.
Proof. vm_compute. reflexivity. Qed.

Lemma dry_frame_columns (c : string) :
  In c LeadersSpec.rushing_columns ->
  Polars.has_column LeadersSpec.dry_frame c = true.
Proof.
  unfold LeadersSpec.rushing_columns. cbn [In]. intros H.
  repeat (destruct H as [<-|H]; [reflexivity|]). contradiction.
Qed.

Lemma dry_frame_has_no_leader (r : Record) :
  In r (Polars.to_dicts LeadersSpec.dry_frame) ->
  LeadersSpec.qualifies 1 r = false.
Proof. intros [<-|[]]. reflexivity. Qed.

Lemma week17_example_reports_witness :
  Week17Example.main MapperSpec.reference_engine
    TeamPointsSpec.reference_runtime LeadersSpec.empty_fetch
  = Week17Example.Failed (ColumnNotFoundError "rushing_tds")
  /\ Week17Example.main MapperSpec.reference_engine
       TeamPointsSpec.reference_runtime LeadersSpec.dry_fetch
     = Week17Example.NoData.
Proof.
  split.
  - exact (proj1 (week17_example_reports MapperSpec.reference_engine
                    TeamPointsSpec.reference_runtime LeadersSpec.empty_fetch)
             eq_refl).
  - exact (proj2 (week17_example_reports MapperSpec.reference_engine
                    TeamPointsSpec.reference_runtime LeadersSpec.dry_fetch)
             _ _ _ eq_refl dry_frame_read ltac:(repeat constructor)
             dry_frame_columns eq_refl dry_frame_has_no_leader).
Defined.

(** ** Reading a table page by page *)

Section Pages.
Import PassingLeaders PassingLeadersSpec.

Lemma firstn_plus {A : Type} (a b : nat) (l : list A) :
  firstn (a + b) l = firstn a l ++ firstn b (skipn a l).
Proof.
  revert l. induction a as [|a IH]; intros l; [reflexivity|].
  destruct l as [|x l]; simpl; [now rewrite firstn_nil|].
  now rewrite IH.
Qed.

Lemma exact_page (rows : list Record) (offset : nat) :
  exact_pages rows offset (offset + page_size - 1)
  = Ok (firstn page_size (skipn offset rows)).
Proof.
  unfold exact_pages, py_slice. do 2 f_equal. unfold page_size. lia.
Qed.

Lemma div_step (n : nat) :
  1000 <= n -> n / 1000 = S ((n - 1000) / 1000).
Proof.
  intros H. replace n with ((n - 1000) + 1 * 1000) at 1 by lia.
  rewrite Nat.div_add by lia. lia.
Qed.

Lemma paginate_collects (rows : list Record) (fuel offset : nat) :
  offset <= length rows ->
  (length rows - offset) / page_size < fuel ->
  paginate (exact_pages rows) fuel offset (firstn offset rows)
  = Some (Ok rows).
Proof.
  revert offset. induction fuel as [|fuel IH]; intros offset Hle Hf; [lia|].
  cbn [paginate]. rewrite exact_page.
  pose proof (length_firstn page_size (skipn offset rows)) as Hlen.
  rewrite length_skipn in Hlen.
  destruct (firstn page_size (skipn offset rows)) as [|x data] eqn:Hd.
  - cbn [length] in Hlen.
    assert (offset = length rows) by (unfold page_size in Hlen; lia).
    subst offset. now rewrite firstn_all.
  - destruct (Nat.ltb_spec (length (x :: data)) page_size) as [Hs|Hs].
    + rewrite Hlen in Hs. cbv zeta iota. rewrite <- Hd.
      rewrite (@firstn_all2 _ page_size (skipn offset rows))
        by (rewrite length_skipn; lia).
      now rewrite firstn_skipn.
    + cbv zeta iota. rewrite <- Hd, <- firstn_plus. apply IH.
      * rewrite Hlen in Hs. lia.
      * rewrite Hlen in Hs. unfold page_size in *.
        rewrite (div_step (length rows - offset)) in Hf by lia.
        replace (length rows - (offset + 1000))
          with (length rows - offset - 1000) by lia.
        lia.
Qed.

Lemma paginate_needs (rows : list Record) (fuel offset : nat)
    (all_data : list Record) :
  fuel <= (length rows - offset) / page_size ->
  paginate (exact_pages rows) fuel offset all_data = None.
Proof.
  revert offset all_data.
  induction fuel as [|fuel IH]; intros offset all_data Hf; [reflexivity|].
  cbn [paginate]. rewrite exact_page.
  assert (Hbig : page_size <= length rows - offset).
  { unfold page_size in *.
    destruct (Nat.le_gt_cases 1000 (length rows - offset)) as [H|H]; [exact H|].
    rewrite (Nat.div_small _ _ H) in Hf. lia. }
  pose proof (length_firstn page_size (skipn offset rows)) as Hlen.
  rewrite length_skipn in Hlen.
  destruct (firstn page_size (skipn offset rows)) as [|x data] eqn:Hd.
  - cbn [length] in Hlen. unfold page_size in *. lia.
  - destruct (Nat.ltb_spec (length (x :: data)) page_size) as [Hs|Hs];
      [lia|].
    cbv zeta iota. apply IH. unfold page_size in *.
    rewrite (div_step (length rows - offset)) in Hf by lia.
    replace (length rows - (offset + 1000))
      with (length rows - offset - 1000) by lia.
    lia.
Qed.

(** X15.  Against a store that answers every range request with exactly the
    rows asked for, the paging loop of [scripts/test_passing_leaders.py]
    stops and has then collected every row of the table in order; it
    sends one request more than the table has full pages of 1,000
    rows, and has not stopped before. *)
Theorem paginate_reads_every_row (rows : list Record) (fuel : nat) :
  (length rows / page_size < fuel ->
   paginate (exact_pages rows) fuel 0 [] = Some (Ok rows))
  /\ (fuel <= length rows / page_size ->
      paginate (exact_pages rows) fuel 0 [] = None).
Proof.
  split; intros H.
  - apply (paginate_collects rows fuel 0); [lia|].
    now rewrite Nat.sub_0_r.
  - apply paginate_needs. now rewrite Nat.sub_0_r.
Qed.

End Pages.

Lemma paginate_reads_every_row_witness :
  length PassingLeadersSpec.many_rows / PassingLeaders.page_size < 3
  /\ PassingLeaders.paginate
       (PassingLeadersSpec.exact_pages PassingLeadersSpec.many_rows) 3 0 []
     = Some (Ok PassingLeadersSpec.many_rows)
  /\ PassingLeaders.paginate
       (PassingLeadersSpec.exact_pages PassingLeadersSpec.many_rows) 2 0 []
     = None.
Proof.
  assert (H : length PassingLeadersSpec.many_rows / PassingLeaders.page_size < 3)
    by (vm_compute; lia).
  assert (H' : 2 <= length PassingLeadersSpec.many_rows
                    / PassingLeaders.page_size)
    by (vm_compute; lia).
  split; [exact H|]. split.
  - exact (proj1 (paginate_reads_every_row PassingLeadersSpec.many_rows 3) H).
  - exact (proj2 (paginate_reads_every_row PassingLeadersSpec.many_rows 2) H').
Defined.

(** ** The loading script *)

Section ScriptFacts.
Import Polars MapperSpec Frames SupabaseClient UploadSpec LoadData LoadSpec.
Variable E : Engine.
Variable R : Runtime.
Variable World : Type.
Variable respond : World -> WriteRequest -> World * option string.
Variable nfl : Provider.

Lemma sends_ret {A : Type} (P : WriteRequest -> Prop) (a : A) :
  sends (World := World) P (ret World a).
Proof. intros r. exists []. split; [now rewrite app_nil_r | constructor]. Qed.

Lemma sends_pure {A : Type} (P : WriteRequest -> Prop) (o : outcome A) :
  sends (World := World) P (pure World o).
Proof. intros r. exists []. split; [now rewrite app_nil_r | constructor]. Qed.

Lemma sends_step {A B : Type} (P : WriteRequest -> Prop)
    (m : Script World A) (k : A -> Script World B) :
  sends P m -> (forall a, sends P (k a)) -> sends P (step World m k).
Proof.
  intros Hm Hk r. destruct (Hm r) as (ws1 & C1 & F1). unfold step.
  destruct (m r) as [r1 [a|e]]; cbn [fst] in *.
  - destruct (Hk a r1) as (ws2 & C2 & F2).
    exists (ws1 ++ ws2). split.
    + now rewrite C2, C1, app_assoc.
    + now apply Forall_app.
  - exists ws1. now split.
Qed.

Lemma sends_impl {A : Type} (P Q : WriteRequest -> Prop)
    (m : Script World A) :
  (forall q, P q -> Q q) -> sends P m -> sends Q m.
Proof.
  intros H Hm r. destruct (Hm r) as (ws & C & F).
  exists ws. split; [exact C|]. eapply Forall_impl; [exact H | exact F].
Qed.

Lemma chunk_incl (records : list Record) (k i : nat) :
  incl (chunk records k i) records.
Proof.
  unfold chunk, py_slice. intros x Hx.
  rewrite <- (firstn_skipn i records). apply in_or_app. right.
  rewrite <- (firstn_skipn (i + k - i) (skipn i records)).
  apply in_or_app. now left.
Qed.

Lemma chunk_le (records : list Record) (k i : nat) :
  length (chunk records k i) <= k.
Proof. unfold chunk. rewrite py_slice_length. lia. Qed.

(** What one upload of the script sends: upserts into its table, of 1
    to 1,000 rows of the frame each. *)
Lemma sends_upload (df : DataFrame) (t : string) :
  sends (fun q => w_table q = t /\ w_upsert q = true
                  /\ 1 <= length (w_rows q) <= 1000
                  /\ incl (w_rows q) (to_dicts df))
        (upload World respond df t).
Proof.
  intros r. unfold upload.
  destruct (upload_dataframe_runs World respond r df t 1000 true ltac:(lia))
    as (r' & Hrun & Hcalls).
  rewrite Hrun. cbn [fst]. eexists. split; [exact Hcalls|].
  unfold chunk_writes. apply Forall_forall. intros q Hq.
  apply in_map_iff in Hq. destruct Hq as (i & <- & Hi). cbn [w_table w_upsert w_rows].
  split; [reflexivity|]. split; [reflexivity|]. split; [split|].
  - pose proof (chunks_nonempty (to_dicts df) (Z.to_nat 1000) ltac:(lia)) as N.
    rewrite to_dicts_length in N. rewrite Forall_forall in N.
    exact (N i Hi).
  - exact (chunk_le _ _ _).
  - apply chunk_incl.
Qed.

Lemma sorted_nothing {A : Type} (lo hi : nat) (m : Script World A) :
  (forall r, fst (m r) = r) -> sends_sorted lo hi m.
Proof.
  intros H r. exists []. rewrite H, app_nil_r.
  split; [reflexivity|]. split; constructor.
Qed.

Lemma sorted_step {A B : Type} (lo mid hi : nat)
    (m : Script World A) (k : A -> Script World B) :
  lo <= mid -> mid <= hi ->
  sends_sorted lo mid m -> (forall a, sends_sorted mid hi (k a)) ->
  sends_sorted lo hi (step World m k).
Proof.
  intros H1 H2 Hm Hk r. destruct (Hm r) as (ws1 & C1 & F1 & S1). unfold step.
  assert (F1' : Forall (fun q => script_write q
                                 /\ lo <= table_rank (w_table q) < hi) ws1).
  { eapply Forall_impl; [|exact F1]. cbv beta. intros q (? & ?). split; [assumption | lia]. }
  destruct (m r) as [r1 [a|e]]; cbn [fst] in *.
  - destruct (Hk a r1) as (ws2 & C2 & F2 & S2).
    exists (ws1 ++ ws2). split; [now rewrite C2, C1, app_assoc|]. split.
    + apply Forall_app. split; [exact F1'|].
      eapply Forall_impl; [|exact F2]. cbv beta. intros q (? & ?).
      split; [assumption | lia].
    + unfold in_table_order in *. clear - F1 F2 S1 S2.
      induction S1 as [|q ws1 S1 IH Hq]; [exact S2|].
      inversion F1 as [|? ? Fq F1']; subst.
      simpl. constructor; [now apply IH|].
      apply Forall_app. split; [exact Hq|].
      eapply Forall_impl; [|exact F2]. cbv beta. intros q' (_ & ?).
      destruct Fq as (_ & ?). lia.
  - exists ws1. repeat split; assumption.
Qed.

Lemma sorted_upload (df : DataFrame) (t : string) :
  In t table_order ->
  sends_sorted (table_rank t) (S (table_rank t)) (upload World respond df t).
Proof.
  intros Ht r. destruct (sends_upload df t r) as (ws & C & F).
  exists ws. split; [exact C|]. split.
  - eapply Forall_impl; [|exact F]. cbv beta.
    intros q (Hq & Hu & Hl & _). rewrite Hq.
    split; [|lia]. unfold script_write. rewrite Hq. auto.
  - unfold in_table_order. clear C.
    induction F as [|q ws (Hq & _) F IH]; constructor; [exact IH|].
    eapply Forall_impl; [|exact F]. cbv beta. intros q' (Hq' & _).
    rewrite Hq, Hq'. lia.
Qed.

Lemma sorted_after_pure {A B : Type} (lo hi : nat) (o : outcome A)
    (k : A -> Script World B) :
  lo <= hi ->
  (forall a, sends_sorted lo hi (k a)) ->
  sends_sorted lo hi (step World (pure World o) k).
Proof.
  intros H Hk. apply (sorted_step lo lo hi); [lia | exact H | | exact Hk].
  now apply sorted_nothing.
Qed.

Lemma sorted_weaken {A : Type} (lo hi lo' hi' : nat) (m : Script World A) :
  lo' <= lo -> hi <= hi' -> sends_sorted lo hi m -> sends_sorted lo' hi' m.
Proof.
  intros H1 H2 Hm r. destruct (Hm r) as (ws & C & F & S).
  exists ws. split; [exact C|]. split; [|exact S].
  eapply Forall_impl; [|exact F]. cbv beta. intros q (? & ?).
  split; [assumption | lia].
Qed.

Lemma sorted_when (lo hi : nat) (name : string)
    (data_types : list string) (load : Script World Summary) :
  lo <= hi ->
  sends_sorted lo hi load -> sends_sorted lo hi (when World name data_types load).
Proof.
  intros H Hl. unfold when. destruct (existsb _ _).
  - apply (sorted_step lo hi hi); [exact H | lia | exact Hl|].
    intros _. now apply sorted_nothing.
  - now apply sorted_nothing.
Qed.

Lemma rank_of_tables :
  table_rank "players" = 0 /\ table_rank "teams" = 1
  /\ table_rank "play_by_play" = 2 /\ table_rank "player_stats" = 3
  /\ table_rank "team_stats" = 4 /\ table_rank "rosters" = 5
  /\ table_rank "schedules" = 6.
Proof. repeat split. Qed.

Lemma tables_listed :
  In "players" table_order /\ In "teams" table_order
  /\ In "play_by_play" table_order /\ In "player_stats" table_order
  /\ In "team_stats" table_order /\ In "rosters" table_order
  /\ In "schedules" table_order.
Proof. unfold table_order. cbn [In]. repeat split; auto 10. Qed.

Lemma sorted_table_upload (df : DataFrame) (t : string) (n : nat) :
  In t table_order -> table_rank t = n ->
  sends_sorted n (S n) (upload World respond df t).
Proof. intros Ht <-. now apply sorted_upload. Qed.

Lemma load_reference_data_sorted :
  sends_sorted 0 2 (load_reference_data E World respond nfl).
Proof.
  unfold load_reference_data.
  apply sorted_after_pure; [lia|]. intros players_df.
  apply sorted_after_pure; [lia|]. intros players_prepared.
  apply (sorted_step 0 1 2); [lia | lia | |].
  - apply sorted_table_upload;
      [apply tables_listed | apply rank_of_tables].
  - intros _. apply sorted_after_pure; [lia|]. intros teams_df.
    apply sorted_after_pure; [lia|]. intros teams_prepared.
    apply sorted_table_upload;
      [apply tables_listed | apply rank_of_tables].
Qed.

Lemma load_play_by_play_sorted :
  sends_sorted 2 3 (load_play_by_play E World respond nfl).
Proof.
  unfold load_play_by_play.
  apply sorted_after_pure; [lia|]. intros df.
  apply sorted_table_upload; [apply tables_listed | apply rank_of_tables].
Qed.

Lemma load_player_stats_sorted :
  sends_sorted 3 4 (load_player_stats E World respond nfl).
Proof.
  unfold load_player_stats.
  apply sorted_after_pure; [lia|]. intros df.
  apply sorted_after_pure; [lia|]. intros df_prepared.
  apply sorted_table_upload; [apply tables_listed | apply rank_of_tables].
Qed.

Lemma load_team_stats_sorted :
  sends_sorted 4 5 (load_team_stats E R World respond nfl).
Proof.
  unfold load_team_stats.
  apply sorted_after_pure; [lia|]. intros stats.
  apply sorted_after_pure; [lia|]. intros schedules.
  apply sorted_after_pure; [lia|]. intros df.
  apply sorted_after_pure; [lia|]. intros df_prepared.
  apply sorted_table_upload; [apply tables_listed | apply rank_of_tables].
Qed.

Lemma load_rosters_sorted :
  sends_sorted 5 6 (load_rosters E World respond nfl).
Proof.
  unfold load_rosters.
  apply sorted_after_pure; [lia|]. intros df.
  apply sorted_after_pure; [lia|]. intros df_prepared.
  apply sorted_table_upload; [apply tables_listed | apply rank_of_tables].
Qed.

Lemma load_schedules_sorted :
  sends_sorted 6 7 (load_schedules E World respond nfl).
Proof.
  unfold load_schedules.
  apply sorted_after_pure; [lia|]. intros df.
  apply sorted_after_pure; [lia|]. intros df_prepared.
  apply sorted_table_upload; [apply tables_listed | apply rank_of_tables].
Qed.

Lemma existsb_same (c : string) (l l' : list string) :
  (forall x, In x l <-> In x l') ->
  existsb (String.eqb c) l = existsb (String.eqb c) l'.
Proof.
  intros H. apply eq_true_iff_eq. rewrite !existsb_exists.
  split; intros (x & Hx & Hc); exists x; (split; [|exact Hc]); now apply H.
Qed.

(** X16.  Whatever data types are asked for and whatever the provider and
    the store answer, the writes of [main] are upserts of 1 to 1,000
    rows into the seven tables, and they come table by table in the
    script's order (players, teams, plays, player statistics, team
    statistics, rosters, schedules), not in the order of the command
    line.  The run depends only on which names are asked for, and
    [all] stands for the six data types whatever else is named. *)
Theorem main_writes_in_script_order (data_types : list string)
    (r : Remote World) :
  (exists ws,
     calls (fst (main E R World respond nfl data_types r)) = calls r ++ ws
     /\ Forall script_write ws
     /\ in_table_order ws)
  /\ (forall data_types',
        (forall x, In x data_types <-> In x data_types') ->
        main E R World respond nfl data_types' r
        = main E R World respond nfl data_types r)
  /\ (In "all" data_types ->
      main E R World respond nfl data_types r
      = main E R World respond nfl all_data_types r).
Proof.
  split; [|split].
  - assert (S : sends_sorted 0 7 (main E R World respond nfl data_types)).
    { unfold main. cbv zeta.
      apply (sorted_step 0 2 7); [lia | lia | |].
      { apply sorted_when; [lia | apply load_reference_data_sorted]. }
      intros _. apply (sorted_step 2 3 7); [lia | lia | |].
      { apply sorted_when; [lia | apply load_play_by_play_sorted]. }
      intros _. apply (sorted_step 3 4 7); [lia | lia | |].
      { apply sorted_when; [lia | apply load_player_stats_sorted]. }
      intros _. apply (sorted_step 4 5 7); [lia | lia | |].
      { apply sorted_when; [lia | apply load_team_stats_sorted]. }
      intros _. apply (sorted_step 5 6 7); [lia | lia | |].
      { apply sorted_when; [lia | apply load_rosters_sorted]. }
      intros _. apply sorted_when; [lia | apply load_schedules_sorted]. }
    destruct (S r) as (ws & C & F & O).
    exists ws. split; [exact C|]. split; [|exact O].
    eapply Forall_impl; [|exact F]. cbv beta. now intros q (? & _).
  - intros data_types' H. unfold main, when.
    rewrite (existsb_same "all" _ _ H).
    destruct (existsb (String.eqb "all") data_types'); [reflexivity|].
    now rewrite !(existsb_same _ _ _ H).
  - intros H. unfold main.
    assert (X : existsb (String.eqb "all") data_types = true).
    { apply existsb_exists. exists "all". split; [exact H|].
      apply String.eqb_refl. }
    rewrite X. reflexivity.
Qed.

Lemma keyed_upload (out : DataFrame) (t c : string) :
  Forall (fun rec => key_present c rec = true) (to_dicts out) ->
  sends (keyed c) (upload World respond out t).
Proof.
  intros K. eapply sends_impl; [|apply sends_upload]. cbv beta.
  intros q (_ & _ & _ & Hin).
  unfold keyed. rewrite Forall_forall in K |- *.
  intros rec Hr. apply K, Hin, Hr.
Qed.

Lemma sends_after {A B : Type} (P : WriteRequest -> Prop) (o : outcome A)
    (k : A -> Script World B) :
  (forall a, o = Return a -> sends P (k a)) ->
  sends P (step World (pure World o) k).
Proof.
  intros H r. unfold step, pure. destruct o as [a|e].
  - exact (H a eq_refl r).
  - exists []. split; [now rewrite app_nil_r | constructor].
Qed.

Lemma lift_returns {A : Type} (x : result A) (a : A) :
  lift x = Return a -> x = Ok a.
Proof. destruct x; simpl; intros H; [now injection H as -> | discriminate]. Qed.

(** X17.  No row without a key is ever sent: when the provider's table has
    the id column, every row that the script writes to
    [player_stats], to [rosters] and to [players] has a [player_id]
    that is not null, whatever the store answers. *)
Theorem script_sends_keyed_rows (df : DataFrame) (key : Series) :
  (nfl_load_player_stats nfl = Ok df -> lookup "player_id" df = Some key ->
   sends (keyed "player_id") (load_player_stats E World respond nfl))
  /\ (nfl_load_rosters nfl = Ok df -> lookup "gsis_id" df = Some key ->
      sends (keyed "player_id") (load_rosters E World respond nfl))
  /\ (nfl_load_players nfl = Ok df -> lookup "gsis_id" df = Some key ->
      sends (fun q => w_table q = "players" -> keyed "player_id" q)
            (load_reference_data E World respond nfl)).
Proof.
  split; [|split]; intros Hn L.
  - unfold load_player_stats. rewrite Hn.
    apply sends_after. intros df0 H0. apply lift_returns, Ok_inj in H0.
    subst df0.
    apply sends_after. intros out Hout. apply lift_returns in Hout.
    destruct (player_stats_drop_null_keys E df out key L Hout) as (Lo & Hh).
    apply keyed_upload. exact (keyed_records out _ key Lo Hh).
  - unfold load_rosters. rewrite Hn.
    apply sends_after. intros df0 H0. apply lift_returns, Ok_inj in H0.
    subst df0.
    apply sends_after. intros out Hout. apply lift_returns in Hout.
    rewrite dispatch_rosters in Hout.
    destruct (rosters_drop_null_keys E df out key L Hout) as (Lo & Hh).
    apply keyed_upload. exact (keyed_records out _ key Lo Hh).
  - unfold load_reference_data. rewrite Hn.
    apply sends_after. intros df0 H0. apply lift_returns, Ok_inj in H0.
    subst df0.
    apply sends_after. intros out Hout. apply lift_returns in Hout.
    destruct (player_info_drop_null_keys E df out key L Hout) as (Lo & Hh).
    apply sends_step.
    + eapply sends_impl; [|apply (keyed_upload out "players" "player_id")].
      * cbv beta. auto.
      * exact (keyed_records out _ key Lo Hh).
    + intros _. apply sends_after. intros teams_df _.
      apply sends_after. intros teams_prepared _.
      eapply sends_impl; [|apply sends_upload]. cbv beta.
      intros q (Hq & _) Hp. rewrite Hq in Hp. discriminate Hp.
Qed.

End ScriptFacts.

(** ** Reading back what was uploaded *)

Section RoundTrip.
Import Polars MapperSpec SupabaseClient UploadSpec RoundTripSpec.
Variable E : Engine.

Lemma union_keys_ext (seen seen' ks : list string) :
  (forall x, In x seen <-> In x seen') ->
  union_keys seen ks = union_keys seen' ks.
Proof.
  revert seen seen'. induction ks as [|k ks IH]; intros seen seen' H;
    [reflexivity|].
  cbn [union_keys].
  assert (X : existsb (String.eqb k) seen = existsb (String.eqb k) seen').
  { apply eq_true_iff_eq. rewrite !existsb_exists.
    split; intros (x & Hx & Hc); exists x; (split; [|exact Hc]); now apply H. }
  rewrite X. destruct (existsb (String.eqb k) seen').
  - now apply IH.
  - f_equal. apply IH. intros x. simpl. now rewrite H.
Qed.

Lemma existsb_In (k : string) (l : list string) :
  existsb (String.eqb k) l = true <-> In k l.
Proof.
  rewrite existsb_exists. split.
  - intros (x & Hx & Hc). apply String.eqb_eq in Hc. now subst.
  - intros H. exists k. split; [exact H | apply String.eqb_refl].
Qed.

Lemma union_keys_seen (seen ks : list string) :
  (forall x, In x ks -> In x seen) -> union_keys seen ks = [].
Proof.
  induction ks as [|k ks IH]; intros H; [reflexivity|].
  cbn [union_keys].
  rewrite (proj2 (existsb_In k seen)) by (apply H; now left).
  apply IH. intros x Hx. apply H. now right.
Qed.

Lemma union_keys_fresh (seen ks : list string) :
  NoDup ks -> (forall x, In x ks -> ~ In x seen) ->
  union_keys seen ks = ks.
Proof.
  revert seen. induction ks as [|k ks IH]; intros seen N F; [reflexivity|].
  inversion N as [|? ? Hk N']; subst. cbn [union_keys].
  destruct (existsb (String.eqb k) seen) eqn:X.
  - apply existsb_In in X. exfalso. apply (F k); [now left | exact X].
  - f_equal. apply IH; [exact N'|].
    intros x Hx [<-|Hs]; [contradiction|].
    apply (F x); [now right | exact Hs].
Qed.

Lemma union_keys_app (seen a b : list string) :
  union_keys seen (a ++ b) = union_keys seen a ++ union_keys (a ++ seen) b.
Proof.
  revert seen. induction a as [|k a IH]; intros seen; [reflexivity|].
  cbn [app union_keys].
  destruct (existsb (String.eqb k) seen) eqn:X.
  - rewrite IH. f_equal. apply union_keys_ext. intros x. simpl.
    apply existsb_In in X. split; [auto|]. intros [<-|H]; [|exact H].
    apply in_or_app. now right.
  - cbn [app]. f_equal. rewrite IH. f_equal. apply union_keys_ext.
    intros x. rewrite !in_app_iff. simpl. rewrite in_app_iff. tauto.
Qed.

(** The keys of the dictionaries of a frame are its columns. *)
Lemma keys_of_rows (df : DataFrame) (idx : list nat) :
  NoDup (columns df) -> idx <> [] ->
  union_keys [] (flat_map (map fst) (map (row df) idx)) = columns df.
Proof.
  intros N Hne. destruct idx as [|i idx]; [congruence|].
  cbn [map flat_map]. rewrite union_keys_app.
  assert (Hk : forall j, map fst (row df j) = columns df).
  { intros j. unfold row. rewrite map_map. reflexivity. }
  rewrite Hk, (union_keys_fresh [] _ N) by (intros x _ []).
  rewrite union_keys_seen; [apply app_nil_r|].
  intros x Hx. apply in_flat_map in Hx. destruct Hx as (r & Hr & Hx).
  apply in_map_iff in Hr. destruct Hr as (j & <- & _).
  rewrite Hk in Hx. apply in_or_app. now left.
Qed.

Lemma first_dtype_uniform (vals : list PyValue) (t : DType) :
  (forall v, In v vals -> v = PyNone \/ dtype_of v = t) ->
  (first_dtype vals = TNull /\ forall v, In v vals -> v = PyNone)
  \/ first_dtype vals = t.
Proof.
  induction vals as [|v vals IH]; intros H.
  - left. split; [reflexivity | intros v []].
  - assert (H' : forall w, In w vals -> w = PyNone \/ dtype_of w = t)
      by (intros; apply H; now right).
    destruct v as [|z|f|x].
    + cbn [first_dtype]. destruct (IH H') as [[I1 I2]|I]; [|now right].
      left. split; [exact I1|]. intros w [<-|Hw]; [reflexivity | now apply I2].
    + right. destruct (H (PyInt z) (or_introl eq_refl)) as [X|X];
        [discriminate X | exact X].
    + right. destruct (H (PyFloat f) (or_introl eq_refl)) as [X|X];
        [discriminate X | exact X].
    + right. destruct (H (PyStr x) (or_introl eq_refl)) as [X|X];
        [discriminate X | exact X].
Qed.

Lemma all_none (vals : list PyValue) :
  (forall v, In v vals -> v = PyNone) -> vals = repeat PyNone (length vals).
Proof.
  induction vals as [|v vals IH]; intros H; [reflexivity|].
  cbn [length repeat]. rewrite (H v (or_introl eq_refl)). f_equal.
  apply IH. intros w Hw. apply H. now right.
Qed.

Lemma in_int32_in_int64 (z : Z) : in_int32 z = true -> in_int64 z = true.
Proof.
  unfold in_int32, in_int64, int32_min, int32_max. intros H.
  apply andb_prop in H as [H1 H2].
  apply Z.leb_le in H1. apply Z.leb_le in H2.
  apply andb_true_intro. split; [apply Z.leb_le | apply Z.ltb_lt]; lia.
Qed.

Lemma dtype_eqb_eq (a b : DType) : dtype_eqb a b = true -> a = b.
Proof. destruct a, b; simpl; congruence. Qed.

(** A column read back from its own values has the same values. *)
Lemma infer_series_same (s : Series) :
  well_typed s = true -> dtype_visible s = true ->
  exists s', infer_series E (to_list s) = Ok s' /\ to_list s' = to_list s.
Proof.
  intros W V. unfold dtype_visible in V. apply dtype_eqb_eq in V.
  unfold infer_series. rewrite V. clear V.
  destruct s as [l|l|l|l|n]; cbn [to_list] in *.
  - (* Int32 *)
    destruct (first_dtype_uniform (map py_of_int l) TInt64) as [[T N]|T].
    { intros v Hv. apply in_map_iff in Hv. destruct Hv as ([z|] & <- & _);
        [now right | now left]. }
    + rewrite T.
      rewrite (proj2 (forallb_forall _ _))
        by (intros v Hv; now rewrite (N v Hv)).
      eexists. split; [reflexivity|]. cbn [to_list].
      symmetry. now apply all_none.
    + rewrite T.
      rewrite (proj2 (forallb_forall _ _)).
      * eexists. split; [reflexivity|]. cbn [to_list].
        rewrite !map_map. apply map_ext. now intros [z|].
      * intros v Hv. apply in_map_iff in Hv.
        destruct Hv as ([z|] & <- & Hin); [|reflexivity]. cbn.
        cbn [well_typed] in W. rewrite forallb_forall in W.
        apply in_int32_in_int64. exact (W _ Hin).
  - (* Int64 *)
    destruct (first_dtype_uniform (map py_of_int l) TInt64) as [[T N]|T].
    { intros v Hv. apply in_map_iff in Hv. destruct Hv as ([z|] & <- & _);
        [now right | now left]. }
    + rewrite T.
      rewrite (proj2 (forallb_forall _ _))
        by (intros v Hv; now rewrite (N v Hv)).
      eexists. split; [reflexivity|]. cbn [to_list].
      symmetry. now apply all_none.
    + rewrite T.
      rewrite (proj2 (forallb_forall _ _)).
      * eexists. split; [reflexivity|]. cbn [to_list].
        rewrite !map_map. apply map_ext. now intros [z|].
      * intros v Hv. apply in_map_iff in Hv.
        destruct Hv as ([z|] & <- & Hin); [|reflexivity]. cbn.
        cbn [well_typed] in W. rewrite forallb_forall in W.
        exact (W _ Hin).
  - (* Float64 *)
    destruct (first_dtype_uniform (map py_of_float l) TFloat64) as [[T N]|T].
    { intros v Hv. apply in_map_iff in Hv. destruct Hv as ([z|] & <- & _);
        [now right | now left]. }
    + rewrite T.
      rewrite (proj2 (forallb_forall _ _))
        by (intros v Hv; now rewrite (N v Hv)).
      eexists. split; [reflexivity|]. cbn [to_list].
      symmetry. now apply all_none.
    + rewrite T.
      rewrite (proj2 (forallb_forall _ _)).
      * eexists. split; [reflexivity|]. cbn [to_list].
        rewrite !map_map. apply map_ext. now intros [z|].
      * intros v Hv. apply in_map_iff in Hv.
        destruct Hv as ([z|] & <- & Hin); reflexivity.
  - (* Utf8 *)
    destruct (first_dtype_uniform (map py_of_str l) TUtf8) as [[T N]|T].
    { intros v Hv. apply in_map_iff in Hv. destruct Hv as ([z|] & <- & _);
        [now right | now left]. }
    + rewrite T.
      rewrite (proj2 (forallb_forall _ _))
        by (intros v Hv; now rewrite (N v Hv)).
      eexists. split; [reflexivity|]. cbn [to_list].
      symmetry. now apply all_none.
    + rewrite T.
      rewrite (proj2 (forallb_forall _ _)).
      * eexists. split; [reflexivity|]. cbn [to_list].
        rewrite !map_map. apply map_ext. now intros [z|].
      * intros v Hv. apply in_map_iff in Hv.
        destruct Hv as ([z|] & <- & Hin); reflexivity.
  - (* Null *)
    assert (N : forall v, In v (repeat PyNone n) -> v = PyNone)
      by (intros v Hv; now apply repeat_spec in Hv).
    destruct (first_dtype_uniform (repeat PyNone n) TNull) as [[T _]|T];
      [intros v Hv; left; now apply N | |];
      rewrite T;
      rewrite (proj2 (forallb_forall _ _))
        by (intros v Hv; now rewrite (N v Hv));
      (eexists; split; [reflexivity|]); cbn [to_list];
      now rewrite repeat_length.
Qed.

Lemma column_of_rows (df : DataFrame) (k : string) (s : Series) :
  rectangular df -> lookup k df = Some s ->
  map (record_get k) (to_dicts df) = to_list s.
Proof.
  intros Rect L. unfold to_dicts. rewrite map_map.
  pose proof (list_as_nth PyNone (to_list s)) as X.
  rewrite to_list_length, (rectangular_lookup df k s Rect L) in X.
  rewrite X.
  apply map_ext. intros i. now apply record_get_row.
Qed.

Lemma infer_columns_same (df sub : DataFrame) :
  rectangular df -> NoDup (columns df) ->
  (forall col, In col sub -> In col df) ->
  readable sub = true ->
  exists sub',
    infer_columns E (columns sub) (to_dicts df) = Ok sub'
    /\ Forall2 (fun a b => fst a = fst b /\ to_list (snd a) = to_list (snd b))
               sub sub'.
Proof.
  intros Rect N. induction sub as [|[k s] sub IH]; intros Hin Hr.
  - exists []. split; [reflexivity | constructor].
  - cbn [readable forallb snd] in Hr. apply andb_prop in Hr as [Hs Hr].
    apply andb_prop in Hs as [W V].
    destruct (IH (fun col H => Hin col (or_intror H)) Hr) as (sub' & I & F).
    assert (L : lookup k df = Some s).
    { apply In_lookup_NoDup; [exact N|]. apply Hin. now left. }
    destruct (infer_series_same s W V) as (s' & Is & Ts).
    exists ((k, s') :: sub'). split.
    + cbn [columns map fst infer_columns].
      rewrite (column_of_rows df k s Rect L), Is. cbn [bind].
      fold (columns sub). rewrite I. reflexivity.
    + constructor; [|exact F]. split; [reflexivity | now symmetry].
Qed.

Lemma same_cells_rows (df df' : DataFrame) :
  Forall2 (fun a b => fst a = fst b /\ to_list (snd a) = to_list (snd b))
          df df' ->
  columns df' = columns df /\ to_dicts df' = to_dicts df.
Proof.
  intros F.
  assert (Hc : columns df' = columns df).
  { induction F as [|a b df df' (H1 & _) F IH]; [reflexivity|].
    cbn [columns map]. f_equal; [now symmetry | exact IH]. }
  assert (Hr : forall i, row df' i = row df i).
  { intros i. induction F as [|a b df df' (H1 & H2) F IH]; [reflexivity|].
    unfold row in *. cbn [map]. f_equal; [|apply IH].
    - now rewrite H1, H2.
    - unfold columns in Hc. cbn [map] in Hc. now injection Hc. }
  assert (Hh : height df' = height df).
  { destruct F as [|[n s] [n' s'] df df' (_ & H2) F]; [reflexivity|].
    cbn [height snd] in *. now rewrite <- !to_list_length, H2. }
  split; [exact Hc|]. unfold to_dicts. rewrite Hh.
  apply map_ext. exact Hr.
Qed.

Lemma skipn_length_app {A : Type} (a b : list A) :
  skipn (length a) (a ++ b) = b.
Proof. induction a as [|x a IH]; [reflexivity | exact IH]. Qed.

(** A frame that is sent and read back arrives with the same rows and
    columns, unless it is empty: then it arrives without columns. *)
Lemma from_own_rows (df : DataFrame) :
  rectangular df -> NoDup (columns df) -> readable df = true ->
  (1 <= height df ->
   exists df', from_dicts E (to_dicts df) = Ok df'
               /\ columns df' = columns df /\ to_dicts df' = to_dicts df)
  /\ (height df = 0 -> from_dicts E (to_dicts df) = Ok []).
Proof.
  intros Rect N Hr. split; intros Hh.
  - destruct (infer_columns_same df df Rect N (fun _ H => H) Hr)
      as (df' & I & F).
    exists df'. split; [|now apply same_cells_rows].
    unfold from_dicts.
    destruct (to_dicts df) as [|r0 rows] eqn:Hd.
    { apply (f_equal (@length _)) in Hd. rewrite to_dicts_length in Hd.
      simpl in Hd. lia. }
    rewrite <- Hd in I |- *. unfold to_dicts at 1. rewrite firstn_map.
    rewrite keys_of_rows; [exact I | exact N|].
    intros Heq. apply (f_equal (@length _)) in Heq.
    rewrite length_firstn, length_seq in Heq.
    unfold infer_schema_length in Heq. simpl length in Heq. lia.
  - unfold to_dicts. now rewrite Hh.
Qed.

(** X18.  What [upload_dataframe] sends, [query] reads back: when the store
    answers the unfiltered select with the rows of the writes it was
    sent, in their order, the frame [query] builds has the columns and
    the rows of the uploaded frame, for a frame of at least one row
    whose columns show their dtype within the first hundred rows; an
    empty frame comes back without its columns. *)
Theorem upload_then_query_round_trip (World : Type)
    (respond : World -> WriteRequest -> World * option string)
    (fetch : SelectQuery -> result (list Record))
    (r r' : Remote World) (s : Summary) (df : DataFrame) (t : string)
    (batch_size : Z) (upsert : bool) :
  (1 <= batch_size)%Z ->
  upload_dataframe respond r df t batch_size upsert = Ok (r', s) ->
  fetch (select_all t) = Ok (rows_sent r r') ->
  rectangular df -> NoDup (columns df) -> readable df = true ->
  (1 <= height df ->
   exists df', query E fetch t None = Ok df'
               /\ columns df' = columns df /\ to_dicts df' = to_dicts df)
  /\ (height df = 0 -> query E fetch t None = Ok []).
Proof.
  intros Hb Hup Hf Rect N Hr.
  assert (Hsent : rows_sent r r' = to_dicts df).
  { destruct (upload_dataframe_runs World respond r df t batch_size upsert Hb)
      as (r'' & Hrun & Hcalls).
    rewrite Hrun in Hup. apply Ok_inj in Hup.
    apply (f_equal fst) in Hup. cbn [fst] in Hup. subst r''.
    unfold rows_sent. rewrite Hcalls, skipn_length_app.
    unfold chunk_writes. rewrite map_map. cbn [w_rows].
    rewrite <- (to_dicts_length df).
    apply chunks_partition. lia. }
  rewrite Hsent in Hf.
  assert (Hq : query E fetch t None = from_dicts E (to_dicts df)).
  { unfold query. now rewrite Hf. }
  rewrite Hq. now apply from_own_rows.
Qed.

End RoundTrip.

(** ** Concrete runs *)

Lemma pbp_play_ids_distinct_witness :
  exists out_ids,
    Polars.lookup "play_id"
      (PlayByPlayLoader.prepare_for_upload MapperSpec.reference_engine
         MapperDemo.raw_plays) = Some out_ids
    /\ NoDup (Polars.keys out_ids)
    /\ Polars.height
         (PlayByPlayLoader.prepare_for_upload MapperSpec.reference_engine
            MapperDemo.raw_plays) = 3.
Proof.
  destruct (pbp_play_ids_distinct MapperSpec.reference_engine
              MapperDemo.raw_plays _ (fun l => Permutation_refl l) eq_refl)
    as (out_ids & L & N & _ & H).
  exists out_ids. split; [exact L|]. split; [exact N | exact H].
Defined.

Lemma player_info_keeps_both_ids_witness :
  exists out,
    PlayerStatsLoader.prepare_player_info_for_upload
      MapperSpec.reference_engine MapperDemo.dated_players = Ok out
    /\ Polars.lookup "player_id" out = Polars.lookup "gsis_id" out
    /\ Polars.lookup "gsis_id" out = Some (Polars.Utf8 [Some "00-0033873"]).
Proof.
  eexists.
  assert (H : PlayerStatsLoader.prepare_player_info_for_upload
                MapperSpec.reference_engine MapperDemo.dated_players = Ok _)
    by (vm_compute; reflexivity).
  split; [exact H|].
  exact (player_info_keeps_both_ids MapperSpec.reference_engine
           MapperDemo.dated_players _ _ eq_refl H).
Defined.

Section SortingFacts.
Import Polars MapperSpec Frames LeadersSpec SortingRuntime.

Lemma insert_desc_perm (zs : list Z) (i : nat) (idx : list nat) :
  Permutation (insert_desc zs i idx) (i :: idx).
Proof.
  induction idx as [|j idx IH]; cbn [insert_desc]; [apply Permutation_refl|].
  destruct (nth j zs 0 <=? nth i zs 0)%Z; [apply Permutation_refl|].
  etransitivity; [apply perm_skip; exact IH | apply perm_swap].
Qed.

Lemma positions_desc_perm (zs : list Z) :
  Permutation (positions_desc zs) (seq 0 (length zs)).
Proof.
  unfold positions_desc. induction (seq 0 (length zs)) as [|i l IH];
    [apply Permutation_refl|].
  cbn [fold_right]. etransitivity; [apply insert_desc_perm|].
  now apply perm_skip.
Qed.

Lemma insert_desc_sorted (zs : list Z) (i : nat) (idx : list nat) :
  StronglySorted (fun a b => (nth b zs 0 <= nth a zs 0)%Z) idx ->
  StronglySorted (fun a b => (nth b zs 0 <= nth a zs 0)%Z)
                 (insert_desc zs i idx).
Proof.
  induction idx as [|j idx IH]; intros S; cbn [insert_desc].
  - constructor; constructor.
  - inversion S as [|? ? S' F]; subst.
    destruct (Z.leb_spec (nth j zs 0%Z) (nth i zs 0%Z)) as [H|H].
    + constructor; [exact S|]. constructor; [exact H|].
      eapply Forall_impl; [|exact F]. cbv beta. intros b Hb. lia.
    + constructor; [now apply IH|].
      apply (@Permutation_Forall _ _ (i :: idx));
        [apply Permutation_sym, insert_desc_perm|].
      constructor; [lia | exact F].
Qed.

Lemma positions_desc_sorted (zs : list Z) :
  StronglySorted (fun a b => (nth b zs 0 <= nth a zs 0)%Z) (positions_desc zs).
Proof.
  unfold positions_desc. induction (seq 0 (length zs)) as [|i l IH];
    [constructor|].
  cbn [fold_right]. now apply insert_desc_sorted.
Qed.

Lemma sorted_map {A : Type} (P : Z -> Z -> Prop) (f : A -> Z) (l : list A) :
  StronglySorted (fun a b => P (f a) (f b)) l -> StronglySorted P (map f l).
Proof.
  induction 1 as [|x l S IH F]; cbn [map]; constructor; [exact IH|].
  rewrite Forall_map. exact F.
Qed.

Lemma sorting_runtime_sorts : sorts_descending sorting_runtime.
Proof.
  intros zs. cbv zeta. cbn [sort_order sorting_runtime].
  rewrite map_map.
  replace (map (fun x => cell_or_zero (Some x)) zs) with zs
    by (symmetry; apply map_id).
  split; [apply positions_desc_perm|].
  apply (sorted_map (fun a b => (b <= a)%Z)). apply positions_desc_sorted.
Qed.

End SortingFacts.

Lemma week_frame_read :
  Polars.from_dicts MapperSpec.reference_engine LeadersSpec.week_rows
  = Ok LeadersSpec.week_frame.
Proof. vm_compute. reflexivity. Qed.

Lemma week_frame_rectangular : MapperSpec.rectangular LeadersSpec.week_frame.
Proof. repeat constructor. Qed.

Lemma week_frame_columns (c : string) :
  In c LeadersSpec.rushing_columns ->
  Polars.has_column LeadersSpec.week_frame c = true.
Proof.
  unfold LeadersSpec.rushing_columns. cbn [In]. intros H.
  repeat (destruct H as [<-|H]; [reflexivity|]). contradiction.
Qed.

Lemma rushing_touchdown_leaders_witness :
  exists out,
    PlayerAnalytics.get_rushing_touchdowns MapperSpec.reference_engine
      SortingRuntime.sorting_runtime LeadersSpec.week_fetch
      2024 (Some 5%Z) 1 50 = Return out
    /\ map LeadersSpec.touchdowns (Polars.to_dicts out) = [2%Z; 1%Z].
Proof.
  destruct (rushing_touchdown_leaders MapperSpec.reference_engine
              SortingRuntime.sorting_runtime LeadersSpec.week_fetch
              2024 (Some 5%Z) 1 50 _ _ _
              sorting_runtime_sorts eq_refl week_frame_read
              week_frame_rectangular week_frame_columns eq_refl)
    as (out & sorted & H & _).
  exists out. split; [exact H|].
  vm_compute in H. injection H as <-. reflexivity.
Defined.

Lemma rushing_touchdowns_of_nothing_witness :
  PlayerAnalytics.get_rushing_touchdowns MapperSpec.reference_engine
    TeamPointsSpec.reference_runtime LeadersSpec.empty_fetch
    2025 (Some 17%Z) 1 50
  = Throw (ColumnNotFoundError "rushing_tds").
Proof.
  exact (rushing_touchdowns_of_nothing MapperSpec.reference_engine
           TeamPointsSpec.reference_runtime LeadersSpec.empty_fetch
           2025 (Some 17%Z) 1 50 eq_refl).
Defined.

Lemma main_writes_in_script_order_witness :
  In "all" ["pbp"; "all"]
  /\ LoadData.main MapperSpec.reference_engine TeamPointsSpec.reference_runtime
       nat UploadDemo.demo_respond LoadSpec.stats_only ["pbp"; "all"]
       UploadDemo.demo_remote
     = LoadData.main MapperSpec.reference_engine
         TeamPointsSpec.reference_runtime nat UploadDemo.demo_respond
         LoadSpec.stats_only LoadData.all_data_types UploadDemo.demo_remote.
Proof.
  assert (H : In "all" ["pbp"; "all"]) by (right; left; reflexivity).
  split; [exact H|].
  exact (proj2 (proj2 (main_writes_in_script_order
           MapperSpec.reference_engine TeamPointsSpec.reference_runtime
           nat UploadDemo.demo_respond LoadSpec.stats_only ["pbp"; "all"]
           UploadDemo.demo_remote)) H).
Defined.

Lemma script_sends_keyed_rows_witness :
  LoadData.nfl_load_player_stats LoadSpec.stats_only
  = Ok MapperSpec.raw_player_stats
  /\ LoadSpec.sends (LoadSpec.keyed "player_id")
       (LoadData.load_player_stats MapperSpec.reference_engine nat
          UploadDemo.demo_respond LoadSpec.stats_only).
Proof.
  split; [reflexivity|].
  exact (proj1 (script_sends_keyed_rows MapperSpec.reference_engine nat
           UploadDemo.demo_respond LoadSpec.stats_only
           MapperSpec.raw_player_stats _) eq_refl eq_refl).
Defined.

Lemma raw_team_stats_plain :
  MapperSpec.rectangular MapperSpec.raw_team_stats
  /\ NoDup (Polars.columns MapperSpec.raw_team_stats)
  /\ RoundTripSpec.readable MapperSpec.raw_team_stats = true.
Proof.
  split; [repeat constructor|]. split; [|reflexivity].
  apply NoDup_by_computation. reflexivity.
Qed.

Lemma upload_then_query_round_trip_witness :
  exists df',
    SupabaseClient.query MapperSpec.reference_engine
      (fun _ => Ok (Polars.to_dicts MapperSpec.raw_team_stats))
      "team_stats" None = Ok df'
    /\ Polars.to_dicts df' = Polars.to_dicts MapperSpec.raw_team_stats.
Proof.
  eassert (Hup : SupabaseClient.upload_dataframe UploadDemo.demo_respond
                   UploadDemo.demo_remote MapperSpec.raw_team_stats
                   "team_stats" 1 true = Ok (_, _))
    by (vm_compute; reflexivity).
  destruct (proj1 (upload_then_query_round_trip MapperSpec.reference_engine
              nat UploadDemo.demo_respond
              (fun _ => Ok (Polars.to_dicts MapperSpec.raw_team_stats))
              UploadDemo.demo_remote _ _ MapperSpec.raw_team_stats
              "team_stats" 1 true ltac:(lia) Hup eq_refl
              (proj1 raw_team_stats_plain)
              (proj1 (proj2 raw_team_stats_plain))
              (proj2 (proj2 raw_team_stats_plain)))
            ltac:(vm_compute; lia))
    as (df' & Hq & _ & Hd).
  exists df'. split; [exact Hq | exact Hd].
Defined.
